(** * DOCX diagnostic engine (scripts/docx_diagnostic.py)

    A shallow embedding of the [DocxDiagnostic] class: the issue and
    statistics accumulator, the sequence of checks of [run_all_checks] and
    the summary of [get_summary], followed by the properties of the
    package diagnostic engine.

    Conventions.
    - A Python [str] is a Rocq [string] holding its UTF-8 encoding.  The
      decoded text of a part, which the source indexes per code point, is
      a [list Z] of code points.
    - [bytes] are [list byte].
    - The methods of [DocxDiagnostic] mutate [self]; here they are
      computations of the monad [Py], which threads the object and an
      exception result.
    - What the interpreter and its libraries decide (the XML parser, case
      mapping, float formatting, path normalisation, iteration order of a
      set of strings) is gathered in the record [Runtime]; what the file
      system holds is the function [OS], which does not change during
      a run.
    - Console output ([print]) is not part of the state of the engine:
      [run_all_checks] below starts at the first check of the method.
      What goes to the console is modelled apart, with a console that
      can refuse a write: the method with the print that opens it is
      [run_all_checks_printing], and [print_report] and [main] follow
      it. *)

From Stdlib Require Import ZArith String Ascii List HexadecimalString.
From Stdlib.Strings Require Import Byte.
From stdpp Require Import base option list gmap strings pretty sorting.

Local Open Scope string_scope.
Local Open Scope Z_scope.
Local Open Scope list_scope.

(** ** Python string methods *)

Module Str.

(** [s.startswith(p)] *)
Definition startswith (s p : string) : bool := String.prefix p s.

(** [s.endswith(p)] *)
Definition endswith (s p : string) : bool :=
  String.prefix (String.rev p) (String.rev s).

(** [sub in s] *)
Fixpoint contains (sub s : string) : bool :=
  String.prefix sub s ||
  match s with
  | EmptyString => false
  | String _ s' => contains sub s'
  end.

(** [s.lstrip(chars)]: drops every leading character that occurs in
    [chars]. *)
Fixpoint lstrip (chars : list ascii) (s : string) : string :=
  match s with
  | EmptyString => EmptyString
  | String c s' => if bool_decide (c ∈ chars) then lstrip chars s' else s
  end.

(** [s.split(sep)] for a one-character separator. *)
Fixpoint split (sep : ascii) (s : string) : list string :=
  match s with
  | EmptyString => [EmptyString]
  | String c s' =>
      if Ascii.eqb c sep then EmptyString :: split sep s'
      else match split sep s' with
           | h :: t => String c h :: t
           | [] => [String c EmptyString]
           end
  end.

(** [s.replace(old, new)] for a one-character [old]. *)
Fixpoint replace (old : ascii) (new : string) (s : string) : string :=
  match s with
  | EmptyString => EmptyString
  | String c s' =>
      if Ascii.eqb c old then new +:+ replace old new s'
      else String c (replace old new s')
  end.

(** [s.index(c)]: [None] stands for the [ValueError] of a missing
    character. *)
Fixpoint index (c : ascii) (s : string) : option nat :=
  match s with
  | EmptyString => None
  | String c' s' => if Ascii.eqb c' c then Some O else S <$> index c s'
  end.

(** [sep.join(l)] *)
Definition join (sep : string) (l : list string) : string :=
  String.concat sep l.

(** [l[-1]] of a list of strings that [split] returned. *)
Definition last (l : list string) : string := List.last l EmptyString.

(** Truth value of a string: the empty string is false. *)
Definition truthy (s : string) : bool := negb (String.eqb s EmptyString).

(** [hex(n)] *)
Definition hex (n : Z) : string :=
  "0x" +:+ NilZero.string_of_uint (N.to_hex_uint (Z.to_N n)).

End Str.

(** [x in l] for a list of strings. *)
Definition str_in (x : string) (l : list string) : bool :=
  bool_decide (x ∈ l).

(** ** UTF-8 *)

Definition byte_val (b : byte) : Z := Z.of_N (Byte.to_N b).

Definition is_continuation (b : byte) : bool :=
  (128 <=? byte_val b) && (byte_val b <=? 191).

(** Result of [content.decode('utf-8')]: the text, or a
    [UnicodeDecodeError] whose [start] is the offset of the lead byte of
    the first sequence that does not decode. *)
Inductive DecodeResult :=
| Decoded (text : list Z)
| UnicodeDecodeError (start : nat).

Definition decoded_cons (c : Z) (r : DecodeResult) : DecodeResult :=
  match r with
  | Decoded t => Decoded (c :: t)
  | UnicodeDecodeError k => UnicodeDecodeError k
  end.

Definition low6 (b : byte) : Z := Z.land (byte_val b) 63.

(** The strict decoder: lead bytes 0x00-0x7F, 0xC2-0xDF, 0xE0-0xEF and
    0xF0-0xF4, with the second byte narrowed after 0xE0, 0xED, 0xF0 and
    0xF4 (no overlong forms, no surrogates, nothing above U+10FFFF). *)
Fixpoint utf8_decode_at (pos : nat) (bs : list byte) {struct bs} : DecodeResult :=
  match bs with
  | [] => Decoded []
  | b1 :: r1 =>
      let c1 := byte_val b1 in
      if c1 <? 128 then decoded_cons c1 (utf8_decode_at (pos + 1) r1)
      else if c1 <? 194 then UnicodeDecodeError pos
      else if c1 <? 224 then
        match r1 with
        | b2 :: r2 =>
            if is_continuation b2
            then decoded_cons (Z.lor (Z.shiftl (Z.land c1 31) 6) (low6 b2))
                              (utf8_decode_at (pos + 2) r2)
            else UnicodeDecodeError pos
        | [] => UnicodeDecodeError pos
        end
      else if c1 <? 240 then
        match r1 with
        | b2 :: r2 =>
            if is_continuation b2
               && negb ((c1 =? 224) && (byte_val b2 <? 160))
               && negb ((c1 =? 237) && (160 <=? byte_val b2))
            then match r2 with
                 | b3 :: r3 =>
                     if is_continuation b3
                     then decoded_cons
                            (Z.lor (Z.shiftl (Z.land c1 15) 12)
                               (Z.lor (Z.shiftl (low6 b2) 6) (low6 b3)))
                            (utf8_decode_at (pos + 3) r3)
                     else UnicodeDecodeError pos
                 | [] => UnicodeDecodeError pos
                 end
            else UnicodeDecodeError pos
        | [] => UnicodeDecodeError pos
        end
      else if c1 <? 245 then
        match r1 with
        | b2 :: r2 =>
            if is_continuation b2
               && negb ((c1 =? 240) && (byte_val b2 <? 144))
               && negb ((c1 =? 244) && (144 <=? byte_val b2))
            then match r2 with
                 | b3 :: r3 =>
                     if is_continuation b3
                     then match r3 with
                          | b4 :: r4 =>
                              if is_continuation b4
                              then decoded_cons
                                     (Z.lor (Z.shiftl (Z.land c1 7) 18)
                                        (Z.lor (Z.shiftl (low6 b2) 12)
                                           (Z.lor (Z.shiftl (low6 b3) 6) (low6 b4))))
                                     (utf8_decode_at (pos + 4) r4)
                              else UnicodeDecodeError pos
                          | [] => UnicodeDecodeError pos
                          end
                     else UnicodeDecodeError pos
                 | [] => UnicodeDecodeError pos
                 end
            else UnicodeDecodeError pos
        | [] => UnicodeDecodeError pos
        end
      else UnicodeDecodeError pos
  end.

Definition utf8_decode (bs : list byte) : DecodeResult := utf8_decode_at 0 bs.

Definition byte_of_Z (z : Z) : byte :=
  match Byte.of_N (Z.to_N z) with
  | Some b => b
  | None => x00
  end.

(** UTF-8 encoding of one code point. *)
Definition utf8_encode_char (c : Z) : list byte :=
  if c <? 128 then [byte_of_Z c]
  else if c <? 2048 then
    [byte_of_Z (Z.lor 192 (Z.shiftr c 6)); byte_of_Z (Z.lor 128 (Z.land c 63))]
  else if c <? 65536 then
    [byte_of_Z (Z.lor 224 (Z.shiftr c 12));
     byte_of_Z (Z.lor 128 (Z.land (Z.shiftr c 6) 63));
     byte_of_Z (Z.lor 128 (Z.land c 63))]
  else
    [byte_of_Z (Z.lor 240 (Z.shiftr c 18));
     byte_of_Z (Z.lor 128 (Z.land (Z.shiftr c 12) 63));
     byte_of_Z (Z.lor 128 (Z.land (Z.shiftr c 6) 63));
     byte_of_Z (Z.lor 128 (Z.land c 63))].

(** A text (code points) as a [str] value of the model. *)
Definition str_of_text (t : list Z) : string :=
  string_of_list_byte (flat_map utf8_encode_char t).

(** ** Data model *)

(** [class Severity] *)
Inductive Severity := ERROR | WARNING | INFO.

#[global] Instance Severity_eq_dec : EqDecision Severity.
Proof. solve_decision. Defined.

(** [class Issue] *)
Record Issue := mkIssue {
  severity : Severity;
  category : string;
  message : string;
  location : option string;
  context : option string;
  suggestion : option string
}.

(** Values stored in [self.stats]: an integer, the float
    [round(size / (1024 * 1024), 2)] (kept as the size it is computed
    from) and the nested dictionary of the tracked-changes check. *)
Inductive StatValue :=
| VInt (n : Z)
| VMegabytes (size : Z)
| VDict (m : gmap string Z).

(** An [xml.etree.ElementTree.Element]: the tag in Clark notation
    ([{uri}local]), the attributes, the text and the child elements. *)
#[warnings="-register-all"] Inductive Element := mkElement {
  tag : string;
  attrib : list (string * string);
  text : option string;
  children : list Element
}.

(** Exceptions, by the classes the handlers of the source tell apart,
    with the text [str(e)]. *)
Inductive ExnClass := KeyError | ParseError | BadZipFile | OtherException.

#[global] Instance ExnClass_eq_dec : EqDecision ExnClass.
Proof. solve_decision. Defined.

Record PyExn := mkExn { exn_class : ExnClass; exn_str : string }.

(** A member of the archive: its name, its bytes, and the exception that
    opening and reading it raises, if any ([BadZipFile] for a bad header
    or CRC). *)
Record Member := mkMember {
  member_name : string;
  member_data : list byte;
  member_fault : option PyExn
}.

(** The central directory of an opened archive, in order. *)
Definition Archive := list Member.

(** [zipfile.ZipFile]: the archive and whether the handle is still open. *)
Record ZipFile := mkZipFile {
  filelist : Archive;
  fp_open : bool
}.

(** Outcome of [zipfile.ZipFile(path, 'r')]. *)
Inductive ZipOpen :=
| ZipRaises (e : PyExn)
| ZipOpened (a : Archive).

(** What the file system answers for one path. *)
Record PathInfo := mkPathInfo {
  path_exists : bool;
  path_isfile : bool;
  path_getsize : Z;
  path_zip : ZipOpen
}.

Definition OS := string -> PathInfo.

(** Outcome of [ET.fromstring(content)]. *)
Inductive XmlResult :=
| XmlTree (root : Element)
| XmlRaises (e : PyExn).

(** The interpreter and its libraries. *)
Record Runtime := mkRuntime {
  (** [ET.fromstring] *)
  ET_fromstring : list byte -> XmlResult;
  (** [str.upper] *)
  str_upper : string -> string;
  (** text of the float [round(size / (1024 * 1024), 2)] *)
  float_repr_mb : Z -> string;
  (** [os.path.normpath] *)
  os_path_normpath : string -> string;
  (** [list(set(l))]: the order in which a set built from [l] is
      iterated, which depends on the string hash seed of the process *)
  set_list : list string -> list string
}.

(** The [DocxDiagnostic] object. *)
Record DocxDiagnostic := mkDiag {
  filepath : string;
  verbose : bool;
  issues : list Issue;
  stats : gmap string StatValue;
  zip_file : option ZipFile
}.

(** [DocxDiagnostic.__init__] *)
Definition init (filepath : string) (verbose : bool) : DocxDiagnostic :=
  mkDiag filepath verbose [] ∅ None.

(** ** The monad of methods: state and exceptions *)

Inductive Result (A : Type) :=
| Return (a : A)
| Raise (e : PyExn).
Arguments Return {A} a.
Arguments Raise {A} e.

Definition Py (A : Type) : Type := DocxDiagnostic -> DocxDiagnostic * Result A.

Definition ret {A} (a : A) : Py A := fun d => (d, Return a).

Definition bind {A B} (m : Py A) (k : A -> Py B) : Py B :=
  fun d => match m d with
           | (d', Return a) => k a d'
           | (d', Raise e) => (d', Raise e)
           end.

Definition raise {A} (e : PyExn) : Py A := fun d => (d, Raise e).

(** [try: m  except Exception as e: h e]; a handler that does not match
    raises again. *)
Definition try_except {A} (m : Py A) (h : PyExn -> Py A) : Py A :=
  fun d => match m d with
           | (d', Return a) => (d', Return a)
           | (d', Raise e) => h e d'
           end.

Declare Scope py_scope.
Delimit Scope py_scope with py.
Notation "x <- m ;; k" := (bind m (fun x => k))
  (at level 100, m at next level, right associativity) : py_scope.
Notation "m ;; k" := (bind m (fun _ => k))
  (at level 100, right associativity) : py_scope.
Local Open Scope py_scope.

Definition pass : Py unit := ret tt.

(** [if c: m] *)
Definition when (c : bool) (m : Py unit) : Py unit := if c then m else pass.

(** [self.issues.append(Issue(...))] *)
Definition add_issue (sev : Severity) (cat msg : string)
    (loc ctx sug : option string) : Py unit :=
  fun d => (mkDiag (filepath d) (verbose d)
                   (issues d ++ [mkIssue sev cat msg loc ctx sug])
                   (stats d) (zip_file d), Return tt).

(** [self.stats[k] = v] *)
Definition set_stat (k : string) (v : StatValue) : Py unit :=
  fun d => (mkDiag (filepath d) (verbose d) (issues d)
                   (<[k:=v]> (stats d)) (zip_file d), Return tt).

(** [self.zip_file = z] *)
Definition set_zip_file (z : ZipFile) : Py unit :=
  fun d => (mkDiag (filepath d) (verbose d) (issues d) (stats d) (Some z),
            Return tt).

Definition get_filepath : Py string := fun d => (d, Return (filepath d)).
Definition get_verbose : Py bool := fun d => (d, Return (verbose d)).
Definition get_zip_file : Py (option ZipFile) := fun d => (d, Return (zip_file d)).
Definition get_issues : Py (list Issue) := fun d => (d, Return (issues d)).

(** Lifting of a library call that returns or raises. *)
Definition lift {A} (r : PyExn + A) : Py A :=
  match r with
  | inl e => raise e
  | inr a => ret a
  end.

(** ** ElementTree *)

(** [elem.iter()]: the element and all its descendants, in document
    order. *)
Fixpoint iter (e : Element) : list Element :=
  match e with
  | mkElement _ _ _ cs =>
      e :: (fix iter_all (l : list Element) : list Element :=
              match l with
              | [] => []
              | c :: l' => iter c ++ iter_all l'
              end) cs
  end.

(** The elements strictly below [e], in document order. *)
Definition descendants (e : Element) : list Element :=
  flat_map iter (children e).

(** [e.findall('.//' + t)]: the descendants of [e] with tag [t]; the
    element itself is never among them. *)
Definition findall (e : Element) (t : string) : list Element :=
  filter (fun x => tag x = t) (descendants e).

(** [e.find(t)]: the first child of [e] with tag [t]. *)
Definition find (e : Element) (t : string) : option Element :=
  List.find (fun x => String.eqb (tag x) t) (children e).

(** [e.get(key)] *)
Fixpoint assoc (key : string) (l : list (string * string)) : option string :=
  match l with
  | [] => None
  | (k, v) :: l' => if String.eqb k key then Some v else assoc key l'
  end.

Definition get (e : Element) (key : string) : option string :=
  assoc key (attrib e).

(** [e.get(key, default)] *)
Definition get_default (e : Element) (key default : string) : string :=
  match get e key with
  | Some v => v
  | None => default
  end.

(** ** zipfile *)

Definition dquote : string := String (ascii_of_nat 34) EmptyString.

(** [ZipFile.getinfo]: [NameToInfo] keeps, for a name, the last member of
    the central directory that carries it. *)
Definition getinfo (a : Archive) (name : string) : option Member :=
  List.find (fun m => String.eqb (member_name m) name) (rev a).

(** [z.namelist()] *)
Definition namelist (z : ZipFile) : list string :=
  map member_name (filelist z).

(** [z.open(name)] followed by [read()]. *)
Definition read_member (a : Archive) (name : string) : PyExn + list byte :=
  match getinfo a name with
  | None =>
      inl (mkExn KeyError
             (dquote +:+ "There is no item named '" +:+ name
                     +:+ "' in the archive" +:+ dquote))
  | Some m =>
      match member_fault m with
      | Some e => inl e
      | None => inr (member_data m)
      end
  end.

(** [z.testzip()]: reads the members in directory order, each through its
    name; the name of the first one that raises [BadZipFile], or [None];
    any other exception propagates. *)
Fixpoint testzip_from (a : Archive) (l : list Member) : PyExn + option string :=
  match l with
  | [] => inr None
  | zinfo :: l' =>
      match read_member a (member_name zinfo) with
      | inl e =>
          if bool_decide (exn_class e = BadZipFile)
          then inr (Some (member_name zinfo))
          else inl e
      | inr _ => testzip_from a l'
      end
  end.

Definition testzip (a : Archive) : PyExn + option string := testzip_from a a.

(** [zipfile.ZipFile(path, 'r')] *)
Definition zipfile_ZipFile (os : OS) (path : string) : PyExn + Archive :=
  match path_zip (os path) with
  | ZipRaises e => inl e
  | ZipOpened a => inr a
  end.

(** [z.close()] *)
Definition close (z : ZipFile) : ZipFile := mkZipFile (filelist z) false.

(** Truth value of an [Optional[str]]. *)
Definition truthy_opt (o : option string) : bool :=
  match o with
  | None => false
  | Some s => Str.truthy s
  end.

(** ** Constants of the module *)

Definition NAMESPACES : list (string * string) :=
  [ ("w", "http://schemas.openxmlformats.org/wordprocessingml/2006/main");
    ("r", "http://schemas.openxmlformats.org/officeDocument/2006/relationships");
    ("o", "urn:schemas-microsoft-com:office:office");
    ("m", "http://schemas.openxmlformats.org/officeDocument/2006/math");
    ("wp", "http://schemas.openxmlformats.org/drawingml/2006/wordprocessingDrawing");
    ("a", "http://schemas.openxmlformats.org/drawingml/2006/main");
    ("pic", "http://schemas.openxmlformats.org/drawingml/2006/picture");
    ("ct", "http://schemas.openxmlformats.org/package/2006/content-types");
    ("rel", "http://schemas.openxmlformats.org/package/2006/relationships") ].

(** [NAMESPACES[p]] for the literal keys the source uses. *)
Definition NS (p : string) : string :=
  match assoc p NAMESPACES with
  | Some uri => uri
  | None => EmptyString
  end.

(** The f-string [{uri}local] of a qualified tag or attribute name. *)
Definition qname (uri local : string) : string :=
  "{" +:+ uri +:+ "}" +:+ local.

Definition REQUIRED_FILES : list string :=
  [ "[Content_Types].xml"; "_rels/.rels"; "word/document.xml" ].

Definition INVALID_CHAR_RANGES : list (Z * Z) :=
  [ (0, 8); (11, 12); (14, 31); (127, 127); (65534, 65535) ].

(** ** The checks *)

(** Truth value of a list. *)
Definition nonempty {A} (l : list A) : bool :=
  match l with
  | [] => false
  | _ :: _ => true
  end.

(** [for x in l: body x] *)
Fixpoint for_each {A} (l : list A) (body : A -> Py unit) : Py unit :=
  match l with
  | [] => pass
  | x :: l' => body x ;; for_each l' body
  end.

Definition _check_file_exists (rt : Runtime) (os : OS) : Py bool :=
  path <- get_filepath ;;
  if negb (path_exists (os path)) then
    add_issue ERROR "File Access" ("File not found: " +:+ path) None None None ;;
    ret false
  else if negb (path_isfile (os path)) then
    add_issue ERROR "File Access" ("Path is not a file: " +:+ path) None None None ;;
    ret false
  else
    let size := path_getsize (os path) in
    set_stat "file_size" (VInt size) ;;
    set_stat "file_size_mb" (VMegabytes size) ;;
    if size =? 0 then
      add_issue ERROR "File Access" "File is empty (0 bytes)" None None None ;;
      ret false
    else
      when (100 * 1024 * 1024 <? size)
        (add_issue WARNING "File Size"
           ("File is very large (" +:+ float_repr_mb rt size
              +:+ "MB), may cause performance issues") None None None) ;;
      ret true.

Definition _check_zip_structure (os : OS) : Py bool :=
  try_except
    (path <- get_filepath ;;
     a <- lift (zipfile_ZipFile os path) ;;
     set_zip_file (mkZipFile a true) ;;
     bad_file <- lift (testzip a) ;;
     if truthy_opt bad_file then
       add_issue ERROR "ZIP Structure"
         ("Corrupted file in archive: " +:+ default EmptyString bad_file)
         None None
         (Some "The DOCX archive is corrupted. Try opening and re-saving in Word.") ;;
       ret false
     else
       set_stat "zip_files" (VInt (Z.of_nat (length a))) ;;
       ret true)
    (fun e =>
       if bool_decide (exn_class e = BadZipFile) then
         add_issue ERROR "ZIP Structure"
           ("Invalid ZIP archive: " +:+ exn_str e) None None
           (Some "File is not a valid DOCX. May be corrupted or not a Word document.") ;;
         ret false
       else
         add_issue ERROR "ZIP Structure"
           ("Error reading file: " +:+ exn_str e) None None None ;;
         ret false).

(** The [optional_files] dictionary of [_check_required_files], in
    insertion order. *)
Definition optional_files : list (string * string) :=
  [ ("word/styles.xml",
     "Style definitions missing - default styles will be used");
    ("word/numbering.xml",
     "Numbering definitions missing - lists may not render correctly");
    ("word/settings.xml",
     "Settings missing - document settings may be lost") ].

Definition _check_required_files : Py unit :=
  z <- get_zip_file ;;
  match z with
  | None => pass
  | Some zf =>
      let file_list := namelist zf in
      for_each REQUIRED_FILES (fun required =>
        when (negb (str_in required file_list))
          (add_issue ERROR "DOCX Structure"
             ("Missing required file: " +:+ required) None None
             (Some "Document structure is incomplete. May be corrupted."))) ;;
      for_each optional_files (fun '(filepath, message) =>
        when (negb (str_in filepath file_list))
          (add_issue INFO "DOCX Structure" message (Some filepath) None None))
  end.

(** One entry of [invalid_found]. *)
Record InvalidChar := mkInvalidChar {
  ic_char : string;
  ic_position : nat;
  ic_line : nat;
  ic_context : string
}.

(** The inner loop over [INVALID_CHAR_RANGES], which stops at the first
    range that holds the code point. *)
Definition in_invalid_range (code : Z) : bool :=
  existsb (fun '(s, e) => (s <=? code) && (code <=? e)) INVALID_CHAR_RANGES.

Definition newline : ascii := ascii_of_nat 10.
Definition carriage_return : ascii := ascii_of_nat 13.

(** [text[ctx_start:ctx_end].replace('\n', '\\n').replace('\r', '\\r')] *)
Definition context_at (text : list Z) (i : nat) : string :=
  let ctx_start := Nat.max 0 (i - 20) in
  let ctx_end := Nat.min (length text) (i + 20) in
  Str.replace carriage_return "\r"
    (Str.replace newline "\n"
       (str_of_text (take (ctx_end - ctx_start) (drop ctx_start text)))).

(** [text[:i].count('\n') + 1] *)
Definition line_at (text : list Z) (i : nat) : nat :=
  (length (filter (fun c : Z => c = 10%Z) (take i text)) + 1)%nat.

Fixpoint scan_from (text : list Z) (i : nat) (rest : list Z) : list InvalidChar :=
  match rest with
  | [] => []
  | code :: rest' =>
      (if in_invalid_range code
       then [mkInvalidChar (Str.hex code) i (line_at text i) (context_at text i)]
       else [])
      ++ scan_from text (S i) rest'
  end.

(** The list [invalid_found] after the loop over [enumerate(text)]. *)
Definition scan_invalid (text : list Z) : list InvalidChar :=
  scan_from text 0 text.

(** [char_counts[k] += 1] on a [defaultdict(int)], keys in insertion
    order. *)
Fixpoint count_incr (k : string) (l : list (string * nat)) : list (string * nat) :=
  match l with
  | [] => [(k, 1%nat)]
  | (k', n) :: l' =>
      if String.eqb k' k then (k', S n) :: l' else (k', n) :: count_incr k l'
  end.

Definition char_counts (found : list InvalidChar) : list (string * nat) :=
  fold_left (fun acc item => count_incr (ic_char item) acc) found [].

Definition _check_invalid_characters (content : list byte) (filename : string)
  : Py unit :=
  match utf8_decode content with
  | UnicodeDecodeError start =>
      add_issue ERROR "Encoding"
        ("Invalid UTF-8 encoding in " +:+ filename)
        (Some ("Byte position: " +:+ pretty start)) None
        (Some "Document contains invalid byte sequences. May need manual repair.")
  | Decoded text =>
      let invalid_found := scan_invalid text in
      match invalid_found with
      | [] => pass
      | first :: _ =>
          let summary :=
            Str.join ", "
              (map (fun '(char, count) => char +:+ ": " +:+ pretty count +:+ "x")
                   (char_counts invalid_found)) in
          add_issue ERROR "Invalid Characters"
            ("Found " +:+ pretty (length invalid_found)
               +:+ " invalid XML character(s) in " +:+ filename)
            (Some ("Characters found: " +:+ summary))
            (Some (ic_context first))
            (Some "Remove control characters. These often come from copy/paste operations.") ;;
          verbose <- get_verbose ;;
          when verbose
            (for_each (take 5 invalid_found) (fun item =>
               add_issue INFO "Invalid Character Detail"
                 ("Character " +:+ ic_char item +:+ " at line "
                    +:+ pretty (ic_line item) +:+ ", position "
                    +:+ pretty (ic_position item))
                 None (Some (ic_context item)) None))
      end
  end.

(** *** Checks over the parsed document *)

Definition _check_tracked_changes (root : Element) : Py unit :=
  let w := NS "w" in
  let insertions := findall root (qname w "ins") in
  let deletions := findall root (qname w "del") in
  let para_changes := findall root (qname w "pPrChange") in
  let run_changes := findall root (qname w "rPrChange") in
  let total_revisions :=
    (length insertions + length deletions
       + length para_changes + length run_changes)%nat in
  set_stat "tracked_changes"
    (VDict (<["insertions" := Z.of_nat (length insertions)]>
           (<["deletions" := Z.of_nat (length deletions)]>
           (<["paragraph_changes" := Z.of_nat (length para_changes)]>
           (<["run_changes" := Z.of_nat (length run_changes)]>
           (<["total" := Z.of_nat total_revisions]> ∅)))))) ;;
  when (0 <? total_revisions)%nat
    (let severity := if (total_revisions <? 100)%nat then WARNING else ERROR in
     add_issue severity "Tracked Changes"
       ("Document contains " +:+ pretty total_revisions +:+ " tracked change(s)")
       (Some ("Insertions: " +:+ pretty (length insertions)
                +:+ ", Deletions: " +:+ pretty (length deletions)
                +:+ ", Paragraph changes: " +:+ pretty (length para_changes)
                +:+ ", Run changes: " +:+ pretty (length run_changes)))
       None
       (Some "Accept or reject all tracked changes before processing to avoid issues.") ;;
     when (existsb (fun ins => nonempty (findall ins (qname w "del"))) insertions)
       (add_issue WARNING "Nested Revisions"
          "Found deletions nested inside insertions (complex revision structure)"
          None None
          (Some "This can cause processing issues. Accept all changes in Word first."))).

Definition _check_smart_tags (root : Element) : Py unit :=
  let w := NS "w" in
  let smart_tags := findall root (qname w "smartTag") in
  set_stat "smart_tags" (VInt (Z.of_nat (length smart_tags))) ;;
  when (nonempty smart_tags)
    (add_issue WARNING "Smart Tags"
       ("Document contains " +:+ pretty (length smart_tags)
          +:+ " deprecated smart tag(s)")
       None None
       (Some ("Smart tags are deprecated and may cause processing issues. "
                +:+ "Open in Word and save to remove them."))).

(** Whether one [w:sdt] element counts as locked. *)
Definition sdt_locked (sdt : Element) : bool :=
  let w := NS "w" in
  match find sdt (qname w "sdtPr") with
  | None => false
  | Some sdt_pr =>
      match find sdt_pr (qname w "lock") with
      | None => false
      | Some lock =>
          let lock_val := get_default lock (qname w "val") EmptyString in
          str_in lock_val ["sdtLocked"; "contentLocked"; "sdtContentLocked"]
      end
  end.

Definition _check_content_controls (root : Element) : Py unit :=
  let w := NS "w" in
  let sdt_elements := findall root (qname w "sdt") in
  set_stat "content_controls" (VInt (Z.of_nat (length sdt_elements))) ;;
  when (nonempty sdt_elements)
    (let locked_count := length (filter (fun sdt => sdt_locked sdt = true) sdt_elements) in
     if (0 <? locked_count)%nat then
       add_issue WARNING "Content Controls"
         ("Document contains " +:+ pretty locked_count
            +:+ " locked content control(s)")
         None None
         (Some "Locked content controls may prevent editing. Unlock them in Word if needed.")
     else
       add_issue INFO "Content Controls"
         ("Document contains " +:+ pretty (length sdt_elements)
            +:+ " content control(s)")
         None None None).

(** The label the [if]/[elif] chain of [_check_field_codes] gives one
    [w:instrText] element, if any. *)
Definition field_type (rt : Runtime) (instr : Element) : option string :=
  let text := default EmptyString (text instr) in
  let upper := str_upper rt text in
  if Str.contains "TOC" upper then Some "Table of Contents"
  else if Str.contains "REF" upper then Some "Cross-reference"
  else if Str.contains "HYPERLINK" upper then Some "Hyperlink"
  else if Str.contains "MERGEFIELD" upper then Some "Mail Merge"
  else if Str.contains "PAGE" upper then Some "Page Number"
  else if Str.contains "DATE" upper || Str.contains "TIME" upper then Some "Date/Time"
  else None.

Definition _check_field_codes (rt : Runtime) (root : Element) : Py unit :=
  let w := NS "w" in
  let field_chars := findall root (qname w "fldChar") in
  let instr_texts := findall root (qname w "instrText") in
  set_stat "field_codes" (VInt (Z.of_nat (length field_chars))) ;;
  when (nonempty field_chars || nonempty instr_texts)
    (let field_types := omap (field_type rt) instr_texts in
     let unique_types := set_list rt field_types in
     add_issue INFO "Field Codes"
       ("Document contains " +:+ pretty (length field_chars) +:+ " field code(s)")
       (Some ("Types found: " +:+
                (if nonempty unique_types then Str.join ", " unique_types
                 else "Unknown")))
       None
       (Some "Field codes may need to be updated or unlinked before processing.")).

Definition _check_equations (root : Element) : Py unit :=
  let m := NS "m" in
  let equations := findall root (qname m "oMath") in
  let equation_paras := findall root (qname m "oMathPara") in
  let total_equations := (length equations + length equation_paras)%nat in
  set_stat "equations" (VInt (Z.of_nat total_equations)) ;;
  when (0 <? total_equations)%nat
    (add_issue INFO "Equations"
       ("Document contains " +:+ pretty total_equations +:+ " equation(s)")
       None None
       (Some ("Equations (OMML) may cause processing issues. "
                +:+ "Consider converting to images if problems occur."))).

(** A hyperlink with neither a relationship id nor an anchor. *)
Definition hyperlink_broken (hl : Element) : bool :=
  let r_id := get hl (qname (NS "r") "id") in
  let anchor := get hl (qname (NS "w") "anchor") in
  negb (truthy_opt r_id) && negb (truthy_opt anchor).

Definition _check_hyperlinks (root : Element) : Py unit :=
  let w := NS "w" in
  let hyperlinks := findall root (qname w "hyperlink") in
  set_stat "hyperlinks" (VInt (Z.of_nat (length hyperlinks))) ;;
  when (nonempty hyperlinks)
    (let broken_count := length (filter (fun hl => hyperlink_broken hl = true) hyperlinks) in
     if (0 <? broken_count)%nat then
       add_issue WARNING "Hyperlinks"
         ("Found " +:+ pretty broken_count +:+ " hyperlink(s) without target reference")
         None None
         (Some "Some hyperlinks may be broken. Check document relationships.")
     else
       add_issue INFO "Hyperlinks"
         ("Document contains " +:+ pretty (length hyperlinks) +:+ " hyperlink(s)")
         None None None).

(** [tag[a:b]] *)
Definition slice (s : string) (a b : nat) : string := substring a (b - a) s.

(** The loop of [_check_namespaces] over [root.iter()]: the values of the
    [namespaces] dictionary in insertion order.  An [ElementTree] element
    has no [nsmap], so the [else] branch is the one that runs;
    [tag.index] raises [ValueError] on a tag that opens a brace and never
    closes it. *)
Fixpoint collect_namespaces (elems : list Element) (namespaces : list string)
  : PyExn + list string :=
  match elems with
  | [] => inr namespaces
  | elem :: elems' =>
      if Str.startswith (tag elem) "{" then
        match Str.index "}" (tag elem) with
        | None => inl (mkExn OtherException "substring not found")
        | Some idx =>
            let ns := slice (tag elem) 1 idx in
            collect_namespaces elems'
              (if str_in ns namespaces then namespaces else namespaces ++ [ns])
        end
      else collect_namespaces elems' namespaces
  end.

Definition _check_namespaces (root : Element) : Py unit :=
  namespaces <- lift (collect_namespaces (iter root) []) ;;
  let known_ns := map snd NAMESPACES in
  let custom_ns :=
    filter (fun ns => Str.truthy ns && negb (str_in ns known_ns) = true) namespaces in
  when (nonempty custom_ns)
    (add_issue INFO "Custom Namespaces"
       ("Document contains " +:+ pretty (length custom_ns) +:+ " custom namespace(s)")
       (Some (Str.join ", " (take 3 custom_ns)
                +:+ (if (3 <? length custom_ns)%nat then "..." else EmptyString)))
       None
       (Some "Custom namespaces may indicate third-party extensions that could cause issues.")).

(** The element-specific checks, in the order [_analyze_document_xml]
    calls them. *)
Definition SEMANTIC_CHECKS (rt : Runtime) : list (Element -> Py unit) :=
  [ _check_tracked_changes; _check_smart_tags; _check_content_controls;
    _check_field_codes rt; _check_equations; _check_hyperlinks;
    _check_namespaces ].

(** The checks run as consecutive statements: the first one that raises
    ends the sequence. *)
Definition run_checks (checks : list (Element -> Py unit)) (root : Element)
  : Py unit :=
  for_each checks (fun check => check root).

Definition xml_result (r : XmlResult) : PyExn + Element :=
  match r with
  | XmlTree root => inr root
  | XmlRaises e => inl e
  end.

(** The handler of the inner [try] of [_analyze_document_xml]:
    [except ET.ParseError], after which the method returns. *)
Definition on_parse_error (e : PyExn) : Py (option Element) :=
  if bool_decide (exn_class e = ParseError) then
    add_issue ERROR "XML Parsing"
      ("Failed to parse document.xml: " +:+ exn_str e) None None
      (Some "Document XML is malformed. Check for invalid characters or corrupted content.") ;;
    ret None
  else raise e.

(** The handlers of the outer [try]: [except KeyError], then
    [except Exception]. *)
Definition on_analysis_error (e : PyExn) : Py unit :=
  if bool_decide (exn_class e = KeyError) then
    add_issue ERROR "DOCX Structure"
      "document.xml not found in archive" None None None
  else
    add_issue ERROR "Analysis"
      ("Error analyzing document.xml: " +:+ exn_str e) None None None.

(** [_analyze_document_xml], with the list of element-specific checks as
    a parameter. *)
Definition analyze_document_xml_with (rt : Runtime)
    (checks : list (Element -> Py unit)) : Py unit :=
  z <- get_zip_file ;;
  match z with
  | None => pass
  | Some zf =>
      try_except
        (content <- lift (read_member (filelist zf) "word/document.xml") ;;
         _check_invalid_characters content "word/document.xml" ;;
         parsed <- try_except
                     (root <- lift (xml_result (ET_fromstring rt content)) ;;
                      ret (Some root))
                     on_parse_error ;;
         match parsed with
         | None => pass
         | Some root => run_checks checks root
         end)
        on_analysis_error
  end.

Definition _analyze_document_xml (rt : Runtime) : Py unit :=
  analyze_document_xml_with rt (SEMANTIC_CHECKS rt).

(** *** Relationships *)

(** One entry of [broken_refs]. *)
Record BrokenRef := mkBrokenRef { br_target : string; br_type : string }.

(** [target[1:]] *)
Definition drop_first (s : string) : string :=
  match s with
  | EmptyString => EmptyString
  | String _ s' => s'
  end.

Definition backslash : ascii := ascii_of_nat 92.

(** The test that sends a relationship to [external_refs]. *)
Definition is_external (rel : Element) : bool :=
  let target := get_default rel "Target" EmptyString in
  let target_mode := get_default rel "TargetMode" EmptyString in
  String.eqb target_mode "External" || Str.startswith target "http".

(** The normalised part path of an internal target. *)
Definition target_path (rt : Runtime) (target : string) : string :=
  let target_path :=
    if Str.startswith target "/" then drop_first target
    else "word/" +:+ target in
  Str.replace backslash "/" (os_path_normpath rt target_path).

(** [target.lstrip('./')] *)
Definition alt_path (target : string) : string :=
  Str.lstrip [ "."%char; "/"%char ] target.

(** The body of the loop over [relationships]; the accumulator holds
    [broken_refs] and [external_refs]. *)
Definition rel_step (rt : Runtime) (names : list string)
    (acc : list BrokenRef * list string) (rel : Element)
  : list BrokenRef * list string :=
  let '(broken_refs, external_refs) := acc in
  let target := get_default rel "Target" EmptyString in
  let rel_type := get_default rel "Type" EmptyString in
  if is_external rel then (broken_refs, external_refs ++ [target])
  else if negb (str_in (target_path rt target) names) then
    if negb (str_in (alt_path target) names) then
      (broken_refs ++
         [mkBrokenRef target
            (if Str.truthy rel_type then Str.last (Str.split "/" rel_type)
             else "unknown")],
       external_refs)
    else (broken_refs, external_refs)
  else (broken_refs, external_refs).

Definition scan_relationships (rt : Runtime) (names : list string)
    (relationships : list Element) : list BrokenRef * list string :=
  fold_left (rel_step rt names) relationships ([], []).

Definition rels_path : string := "word/_rels/document.xml.rels".

Definition _check_relationships (rt : Runtime) : Py unit :=
  z <- get_zip_file ;;
  match z with
  | None => pass
  | Some zf =>
      try_except
        (if negb (str_in rels_path (namelist zf)) then
           add_issue WARNING "Relationships"
             "Document relationships file not found" (Some rels_path) None None
         else
           content <- lift (read_member (filelist zf) rels_path) ;;
           root <- lift (xml_result (ET_fromstring rt content)) ;;
           let rel_ns := "http://schemas.openxmlformats.org/package/2006/relationships" in
           let relationships := findall root (qname rel_ns "Relationship") in
           set_stat "relationships" (VInt (Z.of_nat (length relationships))) ;;
           let '(broken_refs, external_refs) :=
             scan_relationships rt (namelist zf) relationships in
           when (nonempty broken_refs)
             (let types := set_list rt (map br_type broken_refs) in
              add_issue WARNING "Broken References"
                ("Found " +:+ pretty (length broken_refs)
                   +:+ " broken internal reference(s)")
                (Some ("Types: " +:+ Str.join ", " types)) None
                (Some "Some referenced files are missing. Document may have been edited externally.")) ;;
           when (nonempty external_refs)
             (set_stat "external_refs" (VInt (Z.of_nat (length external_refs))) ;;
              add_issue INFO "External References"
                ("Document contains " +:+ pretty (length external_refs)
                   +:+ " external reference(s) (URLs)") None None None))
        (fun e =>
           if bool_decide (exn_class e = ParseError) then
             add_issue ERROR "Relationships"
               ("Failed to parse relationships: " +:+ exn_str e) None None None
           else
             add_issue WARNING "Relationships"
               ("Error checking relationships: " +:+ exn_str e) None None None)
  end.

(** *** Embedded objects *)

Definition _check_embedded_objects : Py unit :=
  z <- get_zip_file ;;
  match z with
  | None => pass
  | Some zf =>
      let file_list := namelist zf in
      let embeddings :=
        filter (fun f => Str.startswith f "word/embeddings/" = true) file_list in
      set_stat "embedded_objects" (VInt (Z.of_nat (length embeddings))) ;;
      when (nonempty embeddings)
        (let ole_objects := filter (fun f => Str.endswith f ".bin" = true) embeddings in
         let other_objects := filter (fun f => Str.endswith f ".bin" = false) embeddings in
         add_issue WARNING "Embedded Objects"
           ("Document contains " +:+ pretty (length embeddings) +:+ " embedded object(s)")
           (Some ("OLE objects: " +:+ pretty (length ole_objects)
                    +:+ ", Other: " +:+ pretty (length other_objects)))
           None
           (Some ("Embedded OLE objects (Excel, PDF, etc.) may cause processing issues. "
                    +:+ "Consider removing or converting them."))) ;;
      let media := filter (fun f => Str.startswith f "word/media/" = true) file_list in
      set_stat "media_files" (VInt (Z.of_nat (length media))) ;;
      when (nonempty media)
        (add_issue INFO "Media Files"
           ("Document contains " +:+ pretty (length media)
              +:+ " media file(s) (images, etc.)") None None None)
  end.

(** ** The run and its summary *)

(** [if self.zip_file: self.zip_file.close()] *)
Definition close_zip_file : Py unit :=
  fun d => (mkDiag (filepath d) (verbose d) (issues d) (stats d)
                   (close <$> zip_file d), Return tt).

(** [len([i for i in self.issues if i.severity == sev])] *)
Definition count_severity (sev : Severity) (l : list Issue) : nat :=
  length (filter (fun i => severity i = sev) l).

(** [run_all_checks] from its first check on, with the element-specific
    checks as a parameter.  The [print] that opens the method is not
    here: it is in [run_all_checks_printing]. *)
Definition run_all_checks_with (rt : Runtime) (os : OS)
    (checks : list (Element -> Py unit)) : Py bool :=
  exists_ok <- _check_file_exists rt os ;;
  if negb exists_ok then ret false else
  zip_ok <- _check_zip_structure os ;;
  if negb zip_ok then ret false else
  _check_required_files ;;
  analyze_document_xml_with rt checks ;;
  _check_relationships rt ;;
  _check_embedded_objects ;;
  close_zip_file ;;
  issues <- get_issues ;;
  ret (count_severity ERROR issues =? 0)%nat.

Definition run_all_checks (rt : Runtime) (os : OS) : Py bool :=
  run_all_checks_with rt os (SEMANTIC_CHECKS rt).

Definition severity_name (s : Severity) : string :=
  match s with
  | ERROR => "ERROR"
  | WARNING => "WARNING"
  | INFO => "INFO"
  end.

(** [Issue.to_dict]: the optional keys are present when their value is
    true. *)
Definition to_dict (i : Issue) : list (string * string) :=
  [ ("severity", severity_name (severity i));
    ("category", category i);
    ("message", message i) ]
  ++ (if truthy_opt (location i) then [("location", default EmptyString (location i))] else [])
  ++ (if truthy_opt (context i) then [("context", default EmptyString (context i))] else [])
  ++ (if truthy_opt (suggestion i) then [("suggestion", default EmptyString (suggestion i))] else []).

(** The dictionary [get_summary] returns. *)
Record Summary := mkSummary {
  sm_file : string;
  sm_status : string;
  sm_errors : nat;
  sm_warnings : nat;
  sm_info : nat;
  sm_statistics : gmap string StatValue;
  sm_issues : list (list (string * string))
}.

Definition get_summary (d : DocxDiagnostic) : Summary :=
  let error_count := count_severity ERROR (issues d) in
  let warning_count := count_severity WARNING (issues d) in
  let info_count := count_severity INFO (issues d) in
  mkSummary (filepath d)
    (if (0 <? error_count)%nat then "FAIL"
     else if (0 <? warning_count)%nat then "WARN" else "PASS")
    error_count warning_count info_count
    (stats d)
    (map to_dict (issues d)).

(** The checks of one run as [main] performs it: a fresh object,
    [run_all_checks] from its first check on, and the object the summary
    is taken from. *)
Definition diagnose (rt : Runtime) (os : OS) (path : string) (verbose : bool)
  : DocxDiagnostic * Result bool :=
  run_all_checks rt os (init path verbose).

(** ** A reference runtime

    An instance of [Runtime] for the concrete runs below: POSIX
    [os.path.normpath], case mapping of ASCII letters, the shortest
    representation of a float with two decimals, and a parser given by
    the parts it is run on. *)

(** [posixpath.normpath] *)
Definition posix_normpath (path : string) : string :=
  if String.eqb path EmptyString then "." else
  let initial_slashes : nat :=
    if Str.startswith path "/" then
      if Str.startswith path "//" && negb (Str.startswith path "///")
      then 2%nat else 1%nat
    else 0%nat in
  let comps := Str.split "/" path in
  let new_comps :=
    fold_left
      (fun new_comps comp =>
         if str_in comp [EmptyString; "."] then new_comps
         else if negb (String.eqb comp "..")
                 || ((initial_slashes =? 0)%nat && negb (nonempty new_comps))
                 || (nonempty new_comps && String.eqb (Str.last new_comps) "..")
         then new_comps ++ [comp]
         else if nonempty new_comps then removelast new_comps
         else new_comps)
      comps [] in
  let path := Str.join "/" new_comps in
  let path := Str.join EmptyString (replicate initial_slashes "/") +:+ path in
  if String.eqb path EmptyString then "." else path.

Definition ascii_upper_char (c : ascii) : ascii :=
  let n := nat_of_ascii c in
  if (97 <=? n)%nat && (n <=? 122)%nat then ascii_of_nat (n - 32) else c.

(** [str.upper] on ASCII text; outside ASCII it leaves every character
    as it is, which [str.upper] does not.  The samples it is run on are
    ASCII. *)
Fixpoint ascii_upper (s : string) : string :=
  match s with
  | EmptyString => EmptyString
  | String c s' => String (ascii_upper_char c) (ascii_upper s')
  end.

(** [round(size / (1024 * 1024), 2)] in hundredths: the quotient is exact
    for the sizes of files, and the rounding is to the nearest hundredth,
    ties to even. *)
Definition mb_hundredths (size : Z) : Z :=
  let q := (size * 100) / 1048576 in
  let r := (size * 100) mod 1048576 in
  if 524288 <? r then q + 1
  else if r =? 524288 then (if Z.even q then q else q + 1)
  else q.

(** The text of that float: at least one decimal, no trailing zero. *)
Definition mb_repr (size : Z) : string :=
  let h := mb_hundredths size in
  let frac := h mod 100 in
  pretty (h / 100) +:+ "." +:+
    (if frac mod 10 =? 0 then pretty (frac / 10)
     else if frac <? 10 then "0" +:+ pretty frac
     else pretty frac).

(** A parser known by its results on the given contents; any other
    content is rejected. *)
Fixpoint parser_of (table : list (list byte * Element)) (content : list byte)
  : XmlResult :=
  match table with
  | [] => XmlRaises (mkExn ParseError "syntax error: line 1, column 0")
  | (bs, root) :: table' =>
      if String.eqb (string_of_list_byte bs) (string_of_list_byte content)
      then XmlTree root
      else parser_of table' content
  end.

(** Two iteration orders of a set of strings, as two hash seeds may give
    them. *)
Definition set_order_a (l : list string) : list string := remove_dups l.
Definition set_order_b (l : list string) : list string := rev (remove_dups l).

Definition reference_runtime (table : list (list byte * Element))
    (order : list string -> list string) : Runtime :=
  mkRuntime (parser_of table) ascii_upper mb_repr posix_normpath order.

(** [rt] with another iteration order of sets. *)
Definition with_set_list (order : list string -> list string) (rt : Runtime)
  : Runtime :=
  mkRuntime (ET_fromstring rt) (str_upper rt) (float_repr_mb rt)
            (os_path_normpath rt) order.

(** A file system in which one path holds the given archive. *)
Definition os_with_archive (path : string) (size : Z) (a : Archive) : OS :=
  fun p =>
    if String.eqb p path then mkPathInfo true true size (ZipOpened a)
    else mkPathInfo false false 0 (ZipRaises (mkExn OtherException "No such file")).

(** An element without attributes or text. *)
Definition node (t : string) (cs : list Element) : Element :=
  mkElement t [] None cs.

Definition w_tag (local : string) : string := qname (NS "w") local.

Definition ascii_bytes (s : string) : list byte := list_byte_of_string s.

Definition intact (name : string) (data : list byte) : Member :=
  mkMember name data None.

(** ** Sample parts used by the concrete runs *)

(** A document with one insertion that holds one deletion, and one smart
    tag. *)
Definition revised_doc : Element :=
  node (w_tag "document")
    [ node (w_tag "body")
        [ node (w_tag "ins") [ node (w_tag "del") [] ];
          node (w_tag "smartTag") [] ] ].

Definition revised_doc_bytes : list byte :=
  ascii_bytes
    ("<w:document xmlns:w='http://schemas.openxmlformats.org/wordprocessingml/2006/main'>"
       +:+ "<w:body><w:ins><w:del/></w:ins><w:smartTag/></w:body></w:document>").

(** ** Well-formed UTF-8 sequences

    [decode_head bs] is the code point of the well-formed sequence at the
    head of [bs] and the number of bytes it takes, if there is one
    (Unicode, table 3-7). *)
Definition decode_head (bs : list byte) : option (Z * nat) :=
  match bs with
  | [] => None
  | b1 :: r1 =>
      let c1 := byte_val b1 in
      if c1 <? 128 then Some (c1, 1%nat)
      else if c1 <? 194 then None
      else if c1 <? 224 then
        match r1 with
        | b2 :: _ =>
            if is_continuation b2
            then Some (Z.lor (Z.shiftl (Z.land c1 31) 6) (low6 b2), 2%nat)
            else None
        | [] => None
        end
      else if c1 <? 240 then
        match r1 with
        | b2 :: b3 :: _ =>
            if is_continuation b2
               && negb ((c1 =? 224) && (byte_val b2 <? 160))
               && negb ((c1 =? 237) && (160 <=? byte_val b2))
               && is_continuation b3
            then Some (Z.lor (Z.shiftl (Z.land c1 15) 12)
                         (Z.lor (Z.shiftl (low6 b2) 6) (low6 b3)), 3%nat)
            else None
        | _ => None
        end
      else if c1 <? 245 then
        match r1 with
        | b2 :: b3 :: b4 :: _ =>
            if is_continuation b2
               && negb ((c1 =? 240) && (byte_val b2 <? 144))
               && negb ((c1 =? 244) && (144 <=? byte_val b2))
               && is_continuation b3 && is_continuation b4
            then Some (Z.lor (Z.shiftl (Z.land c1 7) 18)
                         (Z.lor (Z.shiftl (low6 b2) 12)
                            (Z.lor (Z.shiftl (low6 b3) 6) (low6 b4))), 4%nat)
            else None
        | _ => None
        end
      else None
  end.

(** [bs] is a concatenation of well-formed sequences. *)
Inductive well_formed_utf8 : list byte -> Prop :=
| wf_nil : well_formed_utf8 []
| wf_seq bs c n :
    decode_head bs = Some (c, n) →
    well_formed_utf8 (drop n bs) →
    well_formed_utf8 bs.

(** The issue [_check_invalid_characters] records for a decode failure
    at byte offset [start]. *)
Definition encoding_issue (filename : string) (start : nat) : Issue :=
  mkIssue ERROR "Encoding" ("Invalid UTF-8 encoding in " +:+ filename)
    (Some ("Byte position: " +:+ pretty start)) None
    (Some "Document contains invalid byte sequences. May need manual repair.").

(** The object after one more issue. *)
Definition with_issue (i : Issue) (d : DocxDiagnostic) : DocxDiagnostic :=
  mkDiag (filepath d) (verbose d) (issues d ++ [i]) (stats d) (zip_file d).

(** A main part written in ISO-8859-1: its declaration names the
    encoding, and the byte 0xE9 of its text is not UTF-8. *)
Definition latin1_doc_bytes : list byte :=
  ascii_bytes
    ("<?xml version='1.0' encoding='ISO-8859-1'?>"
       +:+ "<w:document xmlns:w='http://schemas.openxmlformats.org/wordprocessingml/2006/main'>"
       +:+ "<w:body><w:smartTag>caf")
  ++ [xe9] ++ ascii_bytes "</w:smartTag></w:body></w:document>".

(** The tree the parser builds from it; the text holds U+00E9. *)
Definition latin1_doc : Element :=
  node (w_tag "document")
    [ node (w_tag "body")
        [ mkElement (w_tag "smartTag") [] (Some (str_of_text [99; 97; 102; 233])) [] ] ].

Definition latin1_archive : Archive :=
  [ intact "[Content_Types].xml" [];
    intact "_rels/.rels" [];
    intact "word/document.xml" latin1_doc_bytes ].

Definition latin1_runtime : Runtime :=
  reference_runtime [(latin1_doc_bytes, latin1_doc)] set_order_a.

(** The object right after [_check_zip_structure] opened [a]. *)
Definition opened (path : string) (verbose : bool) (a : Archive) : DocxDiagnostic :=
  mkDiag path verbose [] ∅ (Some (mkZipFile a true)).

(** ** Relationship entries, in the words of the specification *)

Definition is_alpha (c : ascii) : bool :=
  let n := nat_of_ascii c in
  ((65 <=? n)%nat && (n <=? 90)%nat) || ((97 <=? n)%nat && (n <=? 122)%nat).

Definition is_scheme_char (c : ascii) : bool :=
  let n := nat_of_ascii c in
  is_alpha c || ((48 <=? n)%nat && (n <=? 57)%nat)
  || bool_decide (c ∈ ["+"%char; "-"%char; "."%char]).

Fixpoint scheme_rest (s : string) : bool :=
  match s with
  | EmptyString => false
  | String c s' =>
      if Ascii.eqb c ":" then true
      else if is_scheme_char c then scheme_rest s' else false
  end.

(** The target starts with a URL scheme: a letter, then letters, digits,
    [+], [-] or [.], then a colon. *)
Definition starts_with_url_scheme (s : string) : bool :=
  match s with
  | EmptyString => false
  | String c s' => is_alpha c && scheme_rest s'
  end.

(** "External if its target mode is external or its target starts with a
    URL scheme". *)
Definition spec_external (rel : Element) : bool :=
  String.eqb (get_default rel "TargetMode" EmptyString) "External"
  || starts_with_url_scheme (get_default rel "Target" EmptyString).

(** "A leading './' stripped". *)
Definition strip_dot_slash (target : string) : string :=
  if Str.startswith target "./" then drop_first (drop_first target) else target.

(** The entry that the specification's words send to the broken
    references: not external, and neither its resolved, normalised path
    nor its target without a leading './' is a part of the package. *)
Definition spec_broken (rt : Runtime) (names : list string) (rel : Element) : bool :=
  let target := get_default rel "Target" EmptyString in
  negb (spec_external rel)
  && negb (str_in (target_path rt target) names)
  && negb (str_in (strip_dot_slash target) names).

(** The entry the code sends to [broken_refs]. *)
Definition unresolved (rt : Runtime) (names : list string) (rel : Element) : bool :=
  let target := get_default rel "Target" EmptyString in
  negb (is_external rel)
  && negb (str_in (target_path rt target) names)
  && negb (str_in (alt_path target) names).

(** The dictionary appended to [broken_refs] for an entry. *)
Definition broken_ref (rel : Element) : BrokenRef :=
  let rel_type := get_default rel "Type" EmptyString in
  mkBrokenRef (get_default rel "Target" EmptyString)
    (if Str.truthy rel_type then Str.last (Str.split "/" rel_type) else "unknown").

Definition rel_tag : string :=
  qname "http://schemas.openxmlformats.org/package/2006/relationships" "Relationship".

(** A relationship of the main part to [docProps/app.xml], written
    relative to the directory of the part with one [..] too many. *)
Definition rootward_rel : Element :=
  mkElement rel_tag
    [ ("Id", "rId9");
      ("Type", "http://schemas.openxmlformats.org/officeDocument/2006/relationships/extended-properties");
      ("Target", "../../docProps/app.xml") ] None [].

Definition rootward_names : list string :=
  [ "[Content_Types].xml"; "_rels/.rels"; "docProps/app.xml"; "word/document.xml";
    "word/_rels/document.xml.rels" ].

Definition plain_runtime : Runtime := reference_runtime [] set_order_a.

(** ** Failures inside the document analysis *)

(** The issue [on_analysis_error] records for an exception. *)
Definition analysis_issue (e : PyExn) : Issue :=
  if bool_decide (exn_class e = KeyError) then
    mkIssue ERROR "DOCX Structure" "document.xml not found in archive" None None None
  else
    mkIssue ERROR "Analysis" ("Error analyzing document.xml: " +:+ exn_str e)
      None None None.

(** An archive whose main part is [revised_doc]; it has no [_rels/.rels]
    and no relationships part. *)
Definition revised_archive : Archive :=
  [ intact "[Content_Types].xml" [];
    intact "word/document.xml" revised_doc_bytes ].

Definition revised_runtime : Runtime :=
  reference_runtime [(revised_doc_bytes, revised_doc)] set_order_a.

(** ** The issues of the character check *)

(** The object after more issues. *)
Definition with_issues (l : list Issue) (d : DocxDiagnostic) : DocxDiagnostic :=
  mkDiag (filepath d) (verbose d) (issues d ++ l) (stats d) (zip_file d).

(** The aggregate issue for a non-empty [invalid_found]. *)
Definition invalid_characters_issue (filename : string)
    (invalid_found : list InvalidChar) (first : InvalidChar) : Issue :=
  mkIssue ERROR "Invalid Characters"
    ("Found " +:+ pretty (length invalid_found)
       +:+ " invalid XML character(s) in " +:+ filename)
    (Some ("Characters found: " +:+
             Str.join ", "
               (map (fun '(char, count) => char +:+ ": " +:+ pretty count +:+ "x")
                    (char_counts invalid_found))))
    (Some (ic_context first))
    (Some "Remove control characters. These often come from copy/paste operations.").

(** The issue of verbose mode for one occurrence. *)
Definition detail_issue (item : InvalidChar) : Issue :=
  mkIssue INFO "Invalid Character Detail"
    ("Character " +:+ ic_char item +:+ " at line "
       +:+ pretty (ic_line item) +:+ ", position "
       +:+ pretty (ic_position item))
    None (Some (ic_context item)) None.

(** The detail issues of verbose mode for the content of a part. *)
Definition detail_issues (content : list byte) : list Issue :=
  match utf8_decode content with
  | UnicodeDecodeError _ => []
  | Decoded text => map detail_issue (take 5 (scan_invalid text))
  end.

(** What [_check_invalid_characters] appends without verbose mode. *)
Definition character_issues (filename : string) (content : list byte) : list Issue :=
  match utf8_decode content with
  | UnicodeDecodeError start => [encoding_issue filename start]
  | Decoded text =>
      match scan_invalid text with
      | [] => []
      | first :: _ => [invalid_characters_issue filename (scan_invalid text) first]
      end
  end.

(** ** Failures of the package loader *)


Definition bad_crc (name : string) : PyExn :=
  mkExn BadZipFile ("Bad CRC-32 for file '" +:+ name +:+ "'").

(** An archive whose main part fails its CRC check. *)
Definition corrupted_archive : Archive :=
  [ intact "[Content_Types].xml" [];
    intact "_rels/.rels" [];
    mkMember "word/document.xml" revised_doc_bytes (Some (bad_crc "word/document.xml")) ].

(** An archive whose first member has an empty name and fails its CRC
    check; the other members are those of [revised_archive]. *)
Definition unnamed_member_archive : Archive :=
  mkMember EmptyString (ascii_bytes "hello") (Some (bad_crc EmptyString))
  :: revised_archive.

(** ** Two runs side by side *)

(** The object after [self.stats[k] = v]. *)
Definition with_stat (k : string) (v : StatValue) (d : DocxDiagnostic)
  : DocxDiagnostic :=
  mkDiag (filepath d) (verbose d) (issues d) (<[k:=v]> (stats d)) (zip_file d).

(** The object with another archive handle. *)
Definition with_zip (z : option ZipFile) (d : DocxDiagnostic) : DocxDiagnostic :=
  mkDiag (filepath d) (verbose d) (issues d) (stats d) z.

(** Two computations started on objects related by [Pre] end on objects
    related by [Post] with the same result or exception. *)
Definition related (Pre Post : DocxDiagnostic -> DocxDiagnostic -> Prop)
    {A} (m1 m2 : Py A) : Prop :=
  forall d1 d2, Pre d1 d2 ->
    Post (fst (m1 d1)) (fst (m2 d2)) /\ snd (m1 d1) = snd (m2 d2).

(** A relation between two objects that the updates of the checks
    preserve when they are applied to both. *)
Class Stable (Inv : DocxDiagnostic -> DocxDiagnostic -> Prop) : Prop := mkStable {
  stable_filepath : forall d1 d2, Inv d1 d2 -> filepath d1 = filepath d2;
  stable_zip_file : forall d1 d2, Inv d1 d2 -> zip_file d1 = zip_file d2;
  stable_issue : forall i d1 d2, Inv d1 d2 -> Inv (with_issue i d1) (with_issue i d2);
  stable_stat : forall k v d1 d2, Inv d1 d2 -> Inv (with_stat k v d1) (with_stat k v d2);
  stable_zip : forall z d1 d2, Inv d1 d2 -> Inv (with_zip z d1) (with_zip z d2);
  stable_errors : forall d1 d2, Inv d1 d2 ->
    count_severity ERROR (issues d1) = count_severity ERROR (issues d2)
}.

(** The part of [_analyze_document_xml] that follows the character
    check, inside the outer [try]. *)
Definition after_character_check (rt : Runtime)
    (checks : list (Element -> Py unit)) (content : list byte) : Py unit :=
  parsed <- try_except
              (root <- lift (xml_result (ET_fromstring rt content)) ;;
               ret (Some root))
              on_parse_error ;;
  match parsed with
  | None => pass
  | Some root => run_checks checks root
  end.

(** [run_all_checks] up to [_check_required_files], followed by [k]. *)
Definition after_loader (rt : Runtime) (os : OS) (k : Py bool) : Py bool :=
  exists_ok <- _check_file_exists rt os ;;
  if negb exists_ok then ret false else
  zip_ok <- _check_zip_structure os ;;
  if negb zip_ok then ret false else
  _check_required_files ;;
  k.

(** The end of [run_all_checks], from [_check_relationships] on. *)
Definition finish (rt : Runtime) : Py bool :=
  _check_relationships rt ;;
  _check_embedded_objects ;;
  close_zip_file ;;
  issues <- get_issues ;;
  ret (count_severity ERROR issues =? 0)%nat.

(** ** Verbose mode *)

(** An issue of verbose mode. *)
Definition is_detail (i : Issue) : Prop :=
  severity i = INFO /\ category i = "Invalid Character Detail".

(** The objects of a verbose and of a quiet run that have recorded the
    same issues. *)
Definition same_but_verbose (dv dq : DocxDiagnostic) : Prop :=
  filepath dv = filepath dq /\ stats dv = stats dq /\ zip_file dv = zip_file dq
  /\ verbose dv = true /\ verbose dq = false
  /\ issues dv = issues dq.

(** The object of the verbose run holds the issues of the quiet run and,
    in one place, at most five issues of verbose mode. *)
Definition details_inserted (dv dq : DocxDiagnostic) : Prop :=
  filepath dv = filepath dq /\ stats dv = stats dq /\ zip_file dv = zip_file dq
  /\ exists before details after,
       issues dq = before ++ after
       /\ issues dv = before ++ details ++ after
       /\ (length details <= 5)%nat
       /\ Forall is_detail details.

(** ** Iteration order of sets *)

(** Two issues that agree in every field, except that the types listed
    in the location of a Field Codes or Broken References issue may come
    in another order. *)
Definition issue_agrees (i1 i2 : Issue) : Prop :=
  severity i1 = severity i2 /\ category i1 = category i2
  /\ message i1 = message i2 /\ context i1 = context i2
  /\ suggestion i1 = suggestion i2
  /\ (location i1 = location i2
      \/ (category i1 ∈ ["Field Codes"; "Broken References"]
          /\ exists prefix l1 l2,
               l1 ≡ₚ l2
               /\ location i1 = Some (prefix +:+ Str.join ", " l1)
               /\ location i2 = Some (prefix +:+ Str.join ", " l2))).

(** The objects of two runs that differ in the iteration order of sets
    only. *)
Definition agree_up_to_set_order (d1 d2 : DocxDiagnostic) : Prop :=
  filepath d1 = filepath d2 /\ verbose d1 = verbose d2
  /\ stats d1 = stats d2 /\ zip_file d1 = zip_file d2
  /\ Forall2 issue_agrees (issues d1) (issues d2).

(** A document with two field instructions of different types. *)
Definition fields_doc : Element :=
  node (w_tag "document")
    [ node (w_tag "body")
        [ mkElement (w_tag "instrText") [] (Some " TOC \o ") [];
          mkElement (w_tag "instrText") [] (Some " PAGE ") [] ] ].

Definition fields_doc_bytes : list byte :=
  ascii_bytes
    ("<w:document xmlns:w='http://schemas.openxmlformats.org/wordprocessingml/2006/main'>"
       +:+ "<w:body><w:instrText> TOC \o </w:instrText>"
       +:+ "<w:instrText> PAGE </w:instrText></w:body></w:document>").

Definition fields_archive : Archive :=
  [ intact "[Content_Types].xml" [];
    intact "_rels/.rels" [];
    intact "word/document.xml" fields_doc_bytes ].

Definition fields_runtime (order : list string -> list string) : Runtime :=
  reference_runtime [(fields_doc_bytes, fields_doc)] order.

(** The locations of the issues of one category. *)
Definition locations_of (cat : string) (l : list Issue) : list (option string) :=
  map location (filter (fun i => category i = cat) l).

(** ** Exceptions that escape *)

(** A computation that never raises. *)
Definition returns {A} (m : Py A) : Prop :=
  forall d, exists a, snd (m d) = Return a.

(** A computation that leaves [self.zip_file] as it is. *)
Definition keeps_zip_file {A} (m : Py A) : Prop :=
  forall d, zip_file (fst (m d)) = zip_file d.

(** The inputs that pass the first two checks: a non-empty regular file
    that opens as a zip archive whose integrity test returns nothing
    true. *)
Definition loader_passes (os : OS) (path : string) (a : Archive) : Prop :=
  path_exists (os path) = true
  /\ path_isfile (os path) = true
  /\ path_getsize (os path) <> 0
  /\ path_zip (os path) = ZipOpened a
  /\ exists bad_file, testzip a = inr bad_file /\ truthy_opt bad_file = false.

(** The inputs that reach the archive and fail there: the file does not
    open as a zip archive, or its integrity test raises or names a
    corrupted member. *)
Definition zip_fails (os : OS) (path : string) : Prop :=
  path_exists (os path) = true
  /\ path_isfile (os path) = true
  /\ path_getsize (os path) <> 0
  /\ ((exists e, path_zip (os path) = ZipRaises e)
      \/ (exists a, path_zip (os path) = ZipOpened a
            /\ ((exists e, testzip a = inl e)
                \/ (exists name, testzip a = inr (Some name)
                                 /\ name <> EmptyString)))).

(** ** What a run accumulates *)

(** A computation that only appends issues and only adds or overwrites
    statistics, and leaves the path and the verbose flag alone. *)
Definition accumulates {A} (m : Py A) : Prop :=
  forall d,
    filepath (fst (m d)) = filepath d
    /\ verbose (fst (m d)) = verbose d
    /\ issues d `prefix_of` issues (fst (m d))
    /\ forall k, is_Some (stats d !! k) -> is_Some (stats (fst (m d)) !! k).

(** ** The issues of the package checks *)

(** The issue [_check_required_files] records for a required file that
    the archive does not hold. *)
Definition missing_required_issue (required : string) : Issue :=
  mkIssue ERROR "DOCX Structure" ("Missing required file: " +:+ required)
    None None (Some "Document structure is incomplete. May be corrupted.").

(** The issue it records for an entry of [optional_files]. *)
Definition missing_optional_issue (entry : string * string) : Issue :=
  mkIssue INFO "DOCX Structure" (snd entry) (Some (fst entry)) None None.

(** The namespace URI that the loop of [_check_namespaces] reads off a
    tag in Clark notation, when the tag has one. *)
Definition tag_namespace (t : string) : option string :=
  if Str.startswith t "{" then (fun idx => slice t 1 idx) <$> Str.index "}" t
  else None.

(** A tag that opens a brace and never closes it. *)
Definition unclosed_tag (t : string) : Prop :=
  Str.startswith t "{" = true /\ Str.index "}" t = None.

(** The namespaces [_check_namespaces] calls custom: not empty and not
    among the values of [NAMESPACES]. *)
Definition is_custom_namespace (ns : string) : Prop :=
  ns <> EmptyString /\ ns ∉ map snd NAMESPACES.

(** ** Entries of the character scan *)

(** The entry of [invalid_found] for the code point at offset [i]. *)
Definition invalid_char_at (text : list Z) (i : nat) : InvalidChar :=
  mkInvalidChar (Str.hex (default 0 (text !! i))) i (line_at text i)
    (context_at text i).

(** [char_counts[k]] of the [defaultdict]: zero for a key it does not
    hold. *)
Definition count_of (k : string) (counts : list (string * nat)) : nat :=
  match List.find (fun p => String.eqb (fst p) k) counts with
  | Some p => snd p
  | None => 0%nat
  end.

(** ** A package with a relationships part *)

(** The relationships of the main part: one internal target that leaves
    the package root, and one external link. *)
Definition linked_rels : Element :=
  node (qname "http://schemas.openxmlformats.org/package/2006/relationships"
              "Relationships")
    [ rootward_rel;
      mkElement rel_tag
        [ ("Id", "rId1");
          ("Type", "http://schemas.openxmlformats.org/officeDocument/2006/relationships/hyperlink");
          ("Target", "https://example.com/");
          ("TargetMode", "External") ] None [] ].

Definition linked_rels_bytes : list byte :=
  ascii_bytes
    ("<Relationships xmlns='http://schemas.openxmlformats.org/package/2006/relationships'>"
       +:+ "<Relationship Id='rId9' Type='http://schemas.openxmlformats.org/officeDocument/2006/relationships/extended-properties' Target='../../docProps/app.xml'/>"
       +:+ "<Relationship Id='rId1' Type='http://schemas.openxmlformats.org/officeDocument/2006/relationships/hyperlink' Target='https://example.com/' TargetMode='External'/>"
       +:+ "</Relationships>").

Definition linked_archive : Archive :=
  [ intact "[Content_Types].xml" [];
    intact "_rels/.rels" [];
    intact "word/document.xml" revised_doc_bytes;
    intact rels_path linked_rels_bytes;
    intact "word/media/image1.png" [];
    intact "word/embeddings/oleObject1.bin" [];
    intact "word/embeddings/Microsoft_Excel_Sheet1.xlsx" [] ].

Definition linked_runtime : Runtime :=
  reference_runtime
    [ (revised_doc_bytes, revised_doc); (linked_rels_bytes, linked_rels) ]
    set_order_a.

(** The issue the handler of [_check_relationships] records for an
    exception. *)
Definition relationships_issue (e : PyExn) : Issue :=
  if bool_decide (exn_class e = ParseError) then
    mkIssue ERROR "Relationships"
      ("Failed to parse relationships: " +:+ exn_str e) None None None
  else
    mkIssue WARNING "Relationships"
      ("Error checking relationships: " +:+ exn_str e) None None None.

(** ** Categories and statistics of a report *)

(** The categories under which the checks record issues. *)
Definition report_categories : list string :=
  [ "File Access"; "File Size"; "ZIP Structure"; "DOCX Structure";
    "Encoding"; "Invalid Characters"; "Invalid Character Detail";
    "XML Parsing"; "Analysis"; "Tracked Changes"; "Nested Revisions";
    "Smart Tags"; "Content Controls"; "Field Codes"; "Equations";
    "Hyperlinks"; "Custom Namespaces"; "Relationships"; "Broken References";
    "External References"; "Embedded Objects"; "Media Files" ].

(** The keys under which the checks record statistics. *)
Definition statistic_keys : list string :=
  [ "file_size"; "file_size_mb"; "zip_files"; "tracked_changes"; "smart_tags";
    "content_controls"; "field_codes"; "equations"; "hyperlinks";
    "relationships"; "external_refs"; "embedded_objects"; "media_files" ].

(** The statistics of the element-specific checks. *)
Definition semantic_keys : list string :=
  [ "tracked_changes"; "smart_tags"; "content_controls"; "field_codes";
    "equations"; "hyperlinks" ].

(** A computation whose new issues have their category in [cats] and
    that writes no statistic outside [keys]. *)
Definition confined (cats keys : list string) {A} (m : Py A) : Prop :=
  forall d,
    (exists new, issues (fst (m d)) = issues d ++ new
                 /\ Forall (fun i => category i ∈ cats) new)
    /\ forall k, k ∉ keys -> stats (fst (m d)) !! k = stats d !! k.

(** The issue the inner handler of [_analyze_document_xml] records for an
    exception of the parser, or the one of the outer handler when the
    exception is no [ParseError]. *)
Definition parse_issue (e : PyExn) : Issue :=
  if bool_decide (exn_class e = ParseError) then
    mkIssue ERROR "XML Parsing" ("Failed to parse document.xml: " +:+ exn_str e)
      None None
      (Some "Document XML is malformed. Check for invalid characters or corrupted content.")
  else analysis_issue e.

(** A package that passes the loader checks and has no main part. *)
Definition headless_archive : Archive :=
  [ intact "[Content_Types].xml" []; intact "_rels/.rels" [] ].

(** The warning [_check_tracked_changes] records for a deletion inside an
    insertion. *)
Definition nested_revisions_issue : Issue :=
  mkIssue WARNING "Nested Revisions"
    "Found deletions nested inside insertions (complex revision structure)"
    None None
    (Some "This can cause processing issues. Accept all changes in Word first.").

(** ** Code points of a str *)

(** A Unicode scalar value: a code point that is no surrogate. *)
Definition is_scalar_value (c : Z) : Prop :=
  0 <= c < 55296 \/ 57344 <= c <= 1114111.

(** [f] holds on the [n] integers from [z] on. *)
Fixpoint all_from (n : nat) (z : Z) (f : Z -> bool) : bool :=
  match n with
  | O => true
  | S n' => if f z then all_from n' (z + 1) f else false
  end.

(** The encoding of [c] is one well-formed sequence that decodes to
    [c]. *)
Definition encodes_back (c : Z) : bool :=
  let bs := utf8_encode_char c in
  match decode_head bs with
  | Some (c', n) => (c' =? c) && (n =? length bs)%nat
  | None => false
  end.

(** The code points of a [str] of the model, which holds UTF-8. *)
Definition text_of_str (s : string) : list Z :=
  match utf8_decode (list_byte_of_string s) with
  | Decoded t => t
  | UnicodeDecodeError _ => []
  end.

(** [len(s)] *)
Definition py_len (s : string) : nat := length (text_of_str s).

(** [s[:n]] *)
Definition py_prefix (n : nat) (s : string) : string :=
  str_of_text (take n (text_of_str s)).

(** ** The console *)

(** The value [main] hands to [json.dumps]. *)
Inductive JsonDocument :=
| JsonObject (summary : Summary)
| JsonArray (summaries : list Summary).

(** The argument of a call of [print]: a string, or the JSON document. *)
Inductive Output :=
| Print (s : string)
| PrintJson (doc : JsonDocument).

(** A call of [print]: to the standard output, or with
    [file=sys.stderr]. *)
Inductive Write :=
| ToStdout (o : Output)
| ToStderr (s : string).

(** What the process and the interpreter decide for the command-line
    tool, beside [Runtime]. *)
Record Process := mkProcess {
  (** [glob.glob]: the list of the matches, or the exception it raises
      (it catches the errors of the operating system itself, but not, for
      instance, the [RecursionError] of a pattern of very many
      components) *)
  glob_glob : string -> PyExn + list string;
  (** [sys.stdout.isatty()], which raises on a closed stream *)
  stdout_isatty : PyExn + bool;
  (** whether the float [round(size / (1024 * 1024), 2)] is greater
      than 0 *)
  float_positive : Z -> bool;
  (** [str] of a dictionary, which lists its keys in insertion order *)
  dict_str : gmap string Z -> string;
  (** the exception a call of [print] raises, if any, after the calls
      that completed before it: [UnicodeEncodeError] for a text the
      stream cannot encode, [OSError] for a closed pipe or a full disk,
      [ValueError] for a closed stream *)
  write_fault : list Write -> Write -> option PyExn
}.

(** Code that prints: the state is the list of the calls of [print] that
    have completed, in order. *)
Definition IO (A : Type) : Type := list Write -> list Write * Result A.

Definition io_ret {A} (a : A) : IO A := fun written => (written, Return a).

Definition io_bind {A B} (m : IO A) (k : A -> IO B) : IO B :=
  fun written =>
    match m written with
    | (written', Return a) => k a written'
    | (written', Raise e) => (written', Raise e)
    end.

Definition io_raise {A} (e : PyExn) : IO A := fun written => (written, Raise e).

Declare Scope io_scope.
Delimit Scope io_scope with io.
Notation "x <- m ;; k" := (io_bind m (fun x => k))
  (at level 100, m at next level, right associativity) : io_scope.
Notation "m ;; k" := (io_bind m (fun _ => k))
  (at level 100, right associativity) : io_scope.

(** [print(...)] *)
Definition print (ps : Process) (x : Write) : IO unit :=
  fun written =>
    match write_fault ps written x with
    | Some e => (written, Raise e)
    | None => (written ++ [x], Return tt)
    end.

(** A [for] loop whose body prints. *)
Fixpoint io_for_each {A} (l : list A) (body : A -> IO unit) : IO unit :=
  match l with
  | [] => io_ret tt
  | x :: l' => (body x ;; io_for_each l' body)%io
  end.

(** A [for] loop that prints and updates local variables. *)
Fixpoint io_fold {A S} (body : S -> A -> IO S) (s : S) (l : list A) : IO S :=
  match l with
  | [] => io_ret s
  | x :: l' => (s' <- body s x ;; io_fold body s' l')%io
  end.

(** Calls of [print] one after the other. *)
Definition print_all (ps : Process) (l : list Write) : IO unit :=
  io_for_each l (print ps).

(** A console that takes every write. *)
Definition accepts_every_write (ps : Process) : Prop :=
  forall written x, write_fault ps written x = None.

(** An exception that a call of [print] can raise. *)
Definition console_fault (ps : Process) (e : PyExn) : Prop :=
  exists written x, write_fault ps written x = Some e.

(** The calls that went to the standard output, and those that went to
    the standard error. *)
Definition stdout_of (l : list Write) : list Output :=
  flat_map (fun x => match x with ToStdout o => [o] | ToStderr _ => [] end) l.

Definition stderr_of (l : list Write) : list string :=
  flat_map (fun x => match x with ToStdout _ => [] | ToStderr s => [s] end) l.

(** ** Console rendering *)

(** [class Colors]: its class attributes, which [disable] overwrites. *)
Module Colors.

Record t := mk {
  RED : string;
  YELLOW : string;
  GREEN : string;
  BLUE : string;
  CYAN : string;
  BOLD : string;
  RESET : string
}.

(** The escape sequence [\033[<code>m]. *)
Definition escape (code : string) : string :=
  String (ascii_of_nat 27) ("[" +:+ code +:+ "m").

(** The attributes as the class body sets them. *)
Definition initial : t :=
  mk (escape "91") (escape "93") (escape "92") (escape "94") (escape "96")
     (escape "1") (escape "0").

(** [Colors.disable()] *)
Definition disable (c : t) : t :=
  mk EmptyString EmptyString EmptyString EmptyString EmptyString EmptyString
     EmptyString.

End Colors.

Definition lf : string := String newline EmptyString.

(** The context line of [Issue.format]: the context itself up to 200
    characters, its first 200 characters and an ellipsis beyond. *)
Definition shown_context (context : string) : string :=
  if (py_len context <=? 200)%nat then context
  else py_prefix 200 context +:+ "...".

(** The list [lines] of [Issue.format] before it is joined. *)
Definition format_lines (c : Colors.t) (i : Issue) (verbose : bool) : list string :=
  let color :=
    match severity i with
    | ERROR => Colors.RED c
    | WARNING => Colors.YELLOW c
    | INFO => Colors.BLUE c
    end in
  [ color +:+ "[" +:+ severity_name (severity i) +:+ "]" +:+ Colors.RESET c
      +:+ " " +:+ Colors.BOLD c +:+ category i +:+ Colors.RESET c
      +:+ ": " +:+ message i ]
  ++ (if truthy_opt (location i)
      then ["  Location: " +:+ default EmptyString (location i)] else [])
  ++ (if verbose && truthy_opt (context i)
      then ["  Context: " +:+ shown_context (default EmptyString (context i))]
      else [])
  ++ (if truthy_opt (suggestion i)
      then ["  " +:+ Colors.CYAN c +:+ "Suggestion: "
              +:+ default EmptyString (suggestion i) +:+ Colors.RESET c]
      else []).

(** [Issue.format] *)
Definition format (c : Colors.t) (i : Issue) (verbose : bool) : string :=
  Str.join lf (format_lines c i verbose).

(** [by_category[issue.category].append(issue)] on a
    [defaultdict(list)], keys in insertion order. *)
Fixpoint group_append (i : Issue) (groups : list (string * list Issue))
  : list (string * list Issue) :=
  match groups with
  | [] => [(category i, [i])]
  | (k, l) :: groups' =>
      if String.eqb k (category i) then (k, l ++ [i]) :: groups'
      else (k, l) :: group_append i groups'
  end.

Definition by_category (l : list Issue) : list (string * list Issue) :=
  fold_left (fun groups issue => group_append issue groups) l [].

(** [by_category[category]] for a key of the dictionary. *)
Definition group_of (category : string) (groups : list (string * list Issue))
  : list Issue :=
  match List.find (fun g => String.eqb (fst g) category) groups with
  | Some g => snd g
  | None => []
  end.

(** The order of [str]: by code point, which on UTF-8 is the order of
    the bytes. *)
Definition str_le (a b : string) : Prop := String.leb a b = true.

#[global] Instance str_le_dec (a b : string) : Decision (str_le a b).
Proof. unfold str_le. apply _. Defined.

(** [sorted(keys)] *)
Definition sorted (keys : list string) : list string := merge_sort str_le keys.

(** The loop [for category in sorted(by_category.keys())] of
    [print_report]: each category with the issues printed under it. *)
Definition report_groups (d : DocxDiagnostic) : list (string * list Issue) :=
  let groups := by_category (issues d) in
  map (fun category => (category, group_of category groups))
      (sorted (map fst groups)).

(** [f"{Colors.BOLD}{'=' * 60}{Colors.RESET}"] *)
Definition rule (c : Colors.t) : string :=
  Colors.BOLD c +:+ Str.join EmptyString (replicate 60 "=") +:+ Colors.RESET c.

(** [str(v)] for a value of [self.stats]. *)
Definition stat_str (rt : Runtime) (ps : Process) (v : StatValue) : string :=
  match v with
  | VInt n => pretty n
  | VMegabytes size => float_repr_mb rt size
  | VDict m => dict_str ps m
  end.

Definition stat_items : list (string * string) :=
  [ ("tracked_changes", "Tracked Changes");
    ("content_controls", "Content Controls");
    ("field_codes", "Field Codes");
    ("equations", "Equations");
    ("hyperlinks", "Hyperlinks");
    ("embedded_objects", "Embedded Objects");
    ("media_files", "Media Files") ].

Definition type_error : PyExn :=
  mkExn OtherException "'>' not supported between instances of 'dict' and 'int'".

(** *** The lines of the report *)

(** One turn of the loop over [stat_items]: the lines it prints, or the
    [TypeError] of comparing a dictionary with 0. *)
Definition stat_lines (rt : Runtime) (ps : Process) (stats : gmap string StatValue)
    (item : string * string) : PyExn + list string :=
  let '(key, label) := item in
  match stats !! key with
  | None => inr []
  | Some val =>
      let val :=
        match val with
        | VDict m => match m !! "total" with Some total => VInt total | None => val end
        | _ => val
        end in
      let line := "  " +:+ label +:+ ": " +:+ stat_str rt ps val in
      match val with
      | VInt n => inr (if negb (n =? 0) && (0 <? n) then [line] else [])
      | VMegabytes size => inr (if float_positive ps size then [line] else [])
      | VDict m => if decide (m = ∅) then inr [] else inl type_error
      end
  end.

(** The lines of a loop that stops at the first turn that raises. *)
Fixpoint lines_until_error {A} (turn : A -> PyExn + list string) (l : list A)
  : list string * option PyExn :=
  match l with
  | [] => ([], None)
  | x :: l' =>
      match turn x with
      | inl e => ([], Some e)
      | inr lines =>
          let '(rest, exn) := lines_until_error turn l' in (lines ++ rest, exn)
      end
  end.

(** The arguments of the calls of [print] that [print_report] makes, in
    order, on a console that takes them all, and the [TypeError] that
    ends it, if any. *)
Definition report_lines (rt : Runtime) (ps : Process) (c : Colors.t)
    (d : DocxDiagnostic) : list string * option PyExn :=
  let bold s := Colors.BOLD c +:+ s +:+ Colors.RESET c in
  let summary := get_summary d in
  let status_color :=
    if String.eqb (sm_status summary) "PASS" then Colors.GREEN c
    else if String.eqb (sm_status summary) "WARN" then Colors.YELLOW c
    else if String.eqb (sm_status summary) "FAIL" then Colors.RED c
    else EmptyString in
  let head :=
    [ rule c;
      bold "DOCX Diagnostic Report";
      "File: " +:+ filepath d;
      "Size: " +:+ match stats d !! "file_size_mb" with
                   | Some v => stat_str rt ps v
                   | None => "N/A"
                   end +:+ " MB";
      rule c +:+ lf ]
    ++ flat_map
         (fun '(category, group) =>
            (lf +:+ bold ("[" +:+ category +:+ "]"))
            :: flat_map (fun issue => [format c issue (verbose d); EmptyString])
                        group)
         (report_groups d)
    ++ [ lf +:+ rule c;
         "Status: " +:+ status_color +:+ bold (sm_status summary);
         "Errors: " +:+ Colors.RED c +:+ pretty (sm_errors summary) +:+ Colors.RESET c;
         "Warnings: " +:+ Colors.YELLOW c +:+ pretty (sm_warnings summary)
           +:+ Colors.RESET c;
         "Info: " +:+ Colors.BLUE c +:+ pretty (sm_info summary) +:+ Colors.RESET c ] in
  let '(statistics, exn) :=
    if decide (stats d = ∅) then ([], None)
    else
      let '(lines, exn) := lines_until_error (stat_lines rt ps (stats d)) stat_items in
      ((lf +:+ bold "Statistics:") :: lines, exn) in
  match exn with
  | Some e => (head ++ statistics, Some e)
  | None => (head ++ statistics ++ [rule c +:+ lf], None)
  end.

(** *** [print_report] *)

(** The body of the loop over [stat_items]. *)
Definition print_stat (rt : Runtime) (ps : Process) (stats : gmap string StatValue)
    (item : string * string) : IO unit :=
  let '(key, label) := item in
  match stats !! key with
  | None => io_ret tt
  | Some val =>
      let val :=
        match val with
        | VDict m => match m !! "total" with Some total => VInt total | None => val end
        | _ => val
        end in
      let line := ToStdout (Print ("  " +:+ label +:+ ": " +:+ stat_str rt ps val)) in
      match val with
      | VInt n => if negb (n =? 0) && (0 <? n) then print ps line else io_ret tt
      | VMegabytes size => if float_positive ps size then print ps line else io_ret tt
      | VDict m => if decide (m = ∅) then io_ret tt else io_raise type_error
      end
  end.

Definition print_report (rt : Runtime) (ps : Process) (c : Colors.t)
    (d : DocxDiagnostic) : IO unit :=
  let say s := print ps (ToStdout (Print s)) in
  let bold s := Colors.BOLD c +:+ s +:+ Colors.RESET c in
  (say (rule c) ;;
   say (bold "DOCX Diagnostic Report") ;;
   say ("File: " +:+ filepath d) ;;
   say ("Size: " +:+ match stats d !! "file_size_mb" with
                     | Some v => stat_str rt ps v
                     | None => "N/A"
                     end +:+ " MB") ;;
   say (rule c +:+ lf) ;;
   io_for_each (report_groups d)
     (fun '(category, group) =>
        say (lf +:+ bold ("[" +:+ category +:+ "]")) ;;
        io_for_each group
          (fun issue => say (format c issue (verbose d)) ;; say EmptyString)) ;;
   let summary := get_summary d in
   say (lf +:+ rule c) ;;
   let status_color :=
     if String.eqb (sm_status summary) "PASS" then Colors.GREEN c
     else if String.eqb (sm_status summary) "WARN" then Colors.YELLOW c
     else if String.eqb (sm_status summary) "FAIL" then Colors.RED c
     else EmptyString in
   say ("Status: " +:+ status_color +:+ bold (sm_status summary)) ;;
   say ("Errors: " +:+ Colors.RED c +:+ pretty (sm_errors summary) +:+ Colors.RESET c) ;;
   say ("Warnings: " +:+ Colors.YELLOW c +:+ pretty (sm_warnings summary)
          +:+ Colors.RESET c) ;;
   say ("Info: " +:+ Colors.BLUE c +:+ pretty (sm_info summary) +:+ Colors.RESET c) ;;
   (if decide (stats d = ∅) then io_ret tt
    else
      say (lf +:+ bold "Statistics:") ;;
      io_for_each stat_items (print_stat rt ps (stats d))) ;;
   say (rule c +:+ lf))%io.

(** ** The command line *)

(** The parsed arguments. *)
Record Args := mkArgs {
  args_files : list string;
  args_json : bool;
  args_verbose : bool;
  args_no_color : bool
}.

(** The line [run_all_checks] prints before its first check. *)
Definition analyzing_line (c : Colors.t) (file : string) : string :=
  lf +:+ Colors.BOLD c +:+ "Analyzing: " +:+ file +:+ Colors.RESET c +:+ lf.

(** The method [run_all_checks] as a whole: the [print] that opens it,
    then the checks.  An exception of the [print] leaves the method
    before any check has run. *)
Definition run_all_checks_printing (rt : Runtime) (os : OS) (ps : Process)
    (c : Colors.t) (d : DocxDiagnostic) (written : list Write)
  : list Write * (DocxDiagnostic * Result bool) :=
  match print ps (ToStdout (Print (analyzing_line c (filepath d)))) written with
  | (written', Raise e) => (written', (d, Raise e))
  | (written', Return _) => (written', run_all_checks rt os d)
  end.

(** The attributes of [Colors] after the test at the start of [main];
    the test calls [isatty] unless [--no-color] is given. *)
Definition main_colors (ps : Process) (args : Args) : PyExn + Colors.t :=
  if args_no_color args then inr (Colors.disable Colors.initial)
  else
    match stdout_isatty ps with
    | inl e => inl e
    | inr isatty =>
        inr (if negb isatty || args_json args
             then Colors.disable Colors.initial
             else Colors.initial)
    end.

(** [files_to_check] for one argument, or [None] for a pattern that
    matches nothing, or the exception of [glob.glob]. *)
Definition files_to_check (ps : Process) (filepath : string)
  : PyExn + option (list string) :=
  if Str.contains "*" filepath || Str.contains "?" filepath then
    match glob_glob ps filepath with
    | inl e => inl e
    | inr [] => inr None
    | inr expanded => inr (Some expanded)
    end
  else inr (Some [filepath]).

(** The body of the inner loop of [main] for one file; the variables it
    updates are [results] and [has_errors]. *)
Definition main_file (rt : Runtime) (os : OS) (ps : Process) (args : Args)
    (c : Colors.t) (vars : list Summary * bool) (file : string)
  : IO (list Summary * bool) :=
  fun written =>
    let '(results, has_errors) := vars in
    match run_all_checks_printing rt os ps c (init file (args_verbose args))
            written with
    | (written', (_, Raise e)) => (written', Raise e)
    | (written', (diagnostic, Return passed)) =>
        let has_errors := if negb passed then true else has_errors in
        if args_json args then
          (written', Return (results ++ [get_summary diagnostic], has_errors))
        else
          (print_report rt ps c diagnostic ;;
           io_ret (results, has_errors))%io written'
    end.

(** The body of the outer loop of [main] for one argument. *)
Definition main_argument (rt : Runtime) (os : OS) (ps : Process) (args : Args)
    (c : Colors.t) (vars : list Summary * bool) (filepath : string)
  : IO (list Summary * bool) :=
  match files_to_check ps filepath with
  | inl e => io_raise e
  | inr None =>
      (print ps (ToStderr ("Warning: No files match pattern: " +:+ filepath)) ;;
       io_ret vars)%io
  | inr (Some files) => io_fold (main_file rt os ps args c) vars files
  end.

Definition index_error : PyExn :=
  mkExn OtherException "list index out of range".

(** [main], after the arguments are parsed.  It returns the argument of
    [sys.exit]; an exception it raises is caught by nothing. *)
Definition main (rt : Runtime) (os : OS) (ps : Process) (args : Args) : IO Z :=
  match main_colors ps args with
  | inl e => io_raise e
  | inr c =>
      (vars <- io_fold (main_argument rt os ps args c) ([], false)
                 (args_files args) ;;
       let '(results, has_errors) := vars in
       (if args_json args then
          match results with
          | [] => io_raise index_error
          | [summary] => print ps (ToStdout (PrintJson (JsonObject summary)))
          | _ => print ps (ToStdout (PrintJson (JsonArray results)))
          end
        else io_ret tt) ;;
       io_ret (if has_errors then 1 else 0))%io
  end.

(** ** Dictionaries among the statistics *)

(** Every dictionary stored among the statistics has a total. *)
Definition totals_kept (d : DocxDiagnostic) : Prop :=
  forall k m, stats d !! k = Some (VDict m) -> is_Some (m !! "total").

(** A computation that keeps it so. *)
Definition keeps_totals {A} (m : Py A) : Prop :=
  forall d, totals_kept d -> totals_kept (fst (m d)).

(** ** What [main] does for the files it analyses *)

(** The files [main] analyses for one argument of the command line. *)
Definition argument_files (ps : Process) (filepath : string) : list string :=
  match files_to_check ps filepath with
  | inr (Some files) => files
  | _ => []
  end.

(** The files [main] analyses, in order, when [glob.glob] raises on no
    argument. *)
Definition analysed_files (ps : Process) (args : Args) : list string :=
  flat_map (argument_files ps) (args_files args).

(** A pattern without a match. *)
Definition unmatched (ps : Process) (filepath : string) : bool :=
  match files_to_check ps filepath with
  | inr None => true
  | _ => false
  end.

(** The arguments that are patterns without a match. *)
Definition unmatched_patterns (ps : Process) (args : Args) : list string :=
  filter (fun filepath => unmatched ps filepath = true) (args_files args).

(** [glob.glob] raises on no argument. *)
Definition globs_return (ps : Process) (args : Args) : Prop :=
  Forall (fun filepath => exists files, files_to_check ps filepath = inr files)
         (args_files args).

(** An exception that [glob.glob] raises on an argument. *)
Definition glob_fault (ps : Process) (args : Args) (e : PyExn) : Prop :=
  exists filepath,
    filepath ∈ args_files args /\ files_to_check ps filepath = inl e.

(** The summary of the run on one file. *)
Definition file_summary (rt : Runtime) (os : OS) (args : Args) (file : string)
  : Summary :=
  get_summary (fst (diagnose rt os file (args_verbose args))).

(** What [main] prints to the standard output for one file when the
    console takes every write: the line of [run_all_checks], then the
    report unless the output is JSON. *)
Definition file_output (rt : Runtime) (os : OS) (ps : Process) (args : Args)
    (c : Colors.t) (file : string) : list Output :=
  Print (analyzing_line c file)
  :: (if args_json args then []
      else map Print
             (fst (report_lines rt ps c
                     (fst (diagnose rt os file (args_verbose args)))))).

(** The exit code for a list of summaries. *)
Definition exit_code (summaries : list Summary) : Z :=
  if existsb (fun s => String.eqb (sm_status s) "FAIL") summaries then 1 else 0.

(** The variables [results] and [has_errors] of [main] after one more
    file. *)
Definition after_file (rt : Runtime) (os : OS) (args : Args)
    (vars : list Summary * bool) (file : string) : list Summary * bool :=
  (fst vars ++ (if args_json args then [file_summary rt os args file] else []),
   snd vars || String.eqb (sm_status (file_summary rt os args file)) "FAIL").

(** The calls of [print] for one argument of the command line. *)
Definition argument_writes (rt : Runtime) (os : OS) (ps : Process) (args : Args)
    (c : Colors.t) (filepath : string) : list Write :=
  match files_to_check ps filepath with
  | inl _ => []
  | inr None => [ToStderr ("Warning: No files match pattern: " +:+ filepath)]
  | inr (Some files) => map ToStdout (flat_map (file_output rt os ps args c) files)
  end.

(** The JSON document for a list of summaries: none for the empty list,
    where [results[0]] raises. *)
Definition json_output (summaries : list Summary) : list Output :=
  match summaries with
  | [] => []
  | [summary] => [PrintJson (JsonObject summary)]
  | _ => [PrintJson (JsonArray summaries)]
  end.

(** How [main] ends when [glob.glob] raises on no argument and the
    console takes every write. *)
Definition main_result (args : Args) (summaries : list Summary) : Result Z :=
  match args_json args, summaries with
  | true, [] => Raise index_error
  | _, _ => Return (exit_code summaries)
  end.

(** A console that takes every write, on a terminal. *)
Definition terminal : Process :=
  mkProcess (fun _ => inr []) (inr true) (fun size => 0 <? size)
            (fun _ => EmptyString) (fun _ _ => None).

(** ** Printing *)

(** The code [m] makes the calls [l] of [print], in order and as long as
    the console takes them, and then ends as [r]. *)
Definition prints {A} (ps : Process) (m : IO A) (l : list Write) (r : Result A)
  : Prop :=
  forall written,
    m written
    = match print_all ps l written with
      | (written', Return _) => (written', r)
      | (written', Raise e) => (written', Raise e)
      end.

(** ** Revisions at the root *)

(** A part whose root element is an insertion that holds one deletion:
    [<w:ins xmlns:w='...'><w:del/></w:ins>]. *)
Definition ins_rooted_doc : Element :=
  node "{http://schemas.openxmlformats.org/wordprocessingml/2006/main}ins"
    [ node "{http://schemas.openxmlformats.org/wordprocessingml/2006/main}del" [] ].

(** ** Checks that are started *)


(** * Properties *)

Ltac run_py :=
  cbv beta iota delta
    [bind ret raise try_except pass when add_issue set_stat set_zip_file
     get_filepath get_verbose get_zip_file get_issues lift close_zip_file].

(** The same on an object given by its fields. *)
Ltac run_state :=
  cbv beta iota delta
    [bind ret raise try_except pass when add_issue set_stat set_zip_file
     get_filepath get_verbose get_zip_file get_issues lift close_zip_file
     filepath verbose issues stats zip_file init negb fst snd].

(** ** Status of the summary *)

Lemma count_severity_pos (sev : Severity) (l : list Issue) :
  (0 < count_severity sev l)%nat ↔ ∃ i, i ∈ l ∧ severity i = sev.
Proof.
  unfold count_severity. split.
  - intros Hpos. destruct (filter (λ i, severity i = sev) l) as [|i rest] eqn:Hf.
    + simpl in Hpos. lia.
    + exists i.
      assert (Hi : i ∈ filter (λ i, severity i = sev) l) by (rewrite Hf; left).
      apply list_elem_of_filter in Hi. tauto.
  - intros (i & Hin & Hsev).
    assert (Hi : i ∈ filter (λ i, severity i = sev) l)
      by (apply list_elem_of_filter; done).
    destruct (filter (λ i, severity i = sev) l); [inversion Hi | simpl; lia].
Qed.

Lemma count_severity_zero (sev : Severity) (l : list Issue) :
  count_severity sev l = 0%nat ↔ ¬ ∃ i, i ∈ l ∧ severity i = sev.
Proof. rewrite <- count_severity_pos. lia. Qed.

(** C1.  The status of the summary is FAIL exactly when some recorded
    issue has severity ERROR, WARN exactly when none has severity ERROR
    and some has severity WARNING, and PASS otherwise; it is a function of
    the issue list alone. *)
Theorem status_derived_from_issues (d : DocxDiagnostic) :
  let has sev := ∃ i, i ∈ issues d ∧ severity i = sev in
  (sm_status (get_summary d) = "FAIL" ↔ has ERROR)
  ∧ (sm_status (get_summary d) = "WARN" ↔ ¬ has ERROR ∧ has WARNING)
  ∧ (sm_status (get_summary d) = "PASS" ↔ ¬ has ERROR ∧ ¬ has WARNING)
  ∧ (∀ d', issues d' = issues d →
           sm_status (get_summary d') = sm_status (get_summary d)).
Proof.
  intros has. unfold has, get_summary. cbn [sm_status].
  rewrite <- !count_severity_pos.
  repeat split; try (intros d' ->; reflexivity);
    destruct (Nat.ltb_spec 0 (count_severity ERROR (issues d)));
    destruct (Nat.ltb_spec 0 (count_severity WARNING (issues d)));
    try discriminate; try lia; try done; intros; lia.
Qed.

(** ** Tracked changes *)

(** C6, as the code has it.  In a parsed document with N insertion
    elements and M deletion elements strictly below its root (the root
    element itself is not looked at) and no paragraph- or
    run-property-change element below the root, the check completes, the
    tracked-changes statistic has total N+M, and a Tracked Changes issue
    it records (there is one as soon as N+M is positive) has severity
    WARNING exactly when N+M < 100 and severity ERROR otherwise. *)
Theorem tracked_changes_total_and_severity
    (root : Element) (d : DocxDiagnostic) (N M : nat) :
  length (findall root
            "{http://schemas.openxmlformats.org/wordprocessingml/2006/main}ins")
  = N →
  length (findall root
            "{http://schemas.openxmlformats.org/wordprocessingml/2006/main}del")
  = M →
  findall root
    "{http://schemas.openxmlformats.org/wordprocessingml/2006/main}pPrChange"
  = [] →
  findall root
    "{http://schemas.openxmlformats.org/wordprocessingml/2006/main}rPrChange"
  = [] →
  let d' := fst (_check_tracked_changes root d) in
  snd (_check_tracked_changes root d) = Return tt
  ∧ (∃ m, stats d' !! "tracked_changes" = Some (VDict m)
          ∧ m !! "total" = Some (Z.of_nat (N + M)))
  ∧ (∃ new, issues d' = issues d ++ new
       ∧ (∀ i, i ∈ new → category i = "Tracked Changes" →
               (severity i = WARNING ↔ (N + M < 100)%nat)
               ∧ (severity i = ERROR ↔ (100 ≤ N + M)%nat))
       ∧ ((0 < N + M)%nat → ∃ i, i ∈ new ∧ category i = "Tracked Changes")).
Proof.
  intros HN HM Hp Hr.
  change "{http://schemas.openxmlformats.org/wordprocessingml/2006/main}ins"
    with (qname (NS "w") "ins") in HN.
  change "{http://schemas.openxmlformats.org/wordprocessingml/2006/main}del"
    with (qname (NS "w") "del") in HM.
  change "{http://schemas.openxmlformats.org/wordprocessingml/2006/main}pPrChange"
    with (qname (NS "w") "pPrChange") in Hp.
  change "{http://schemas.openxmlformats.org/wordprocessingml/2006/main}rPrChange"
    with (qname (NS "w") "rPrChange") in Hr.
  unfold _check_tracked_changes.
  rewrite Hp, Hr, HN, HM. cbn [length]. rewrite !Nat.add_0_r.
  set (nested := existsb _ _). clearbody nested.
  set (loc := Some _). clearbody loc.
  set (msg := (_ +:+ _)%string). clearbody msg.
  run_py. cbn [fst snd issues stats].
  destruct (Nat.ltb_spec 0 (N + M)) as [Hpos|Hzero];
    cbn [fst snd issues stats].
  - destruct (Nat.ltb_spec (N + M) 100) as [Hlt|Hge];
      destruct nested; cbn [fst snd issues stats];
      (split; [reflexivity|]);
      (split; [eexists; split; [apply lookup_insert_eq | reflexivity]|]);
      rewrite <- ?app_assoc;
      (eexists; split; [reflexivity|]);
      (split; [|intros _; eexists; split; [left|reflexivity]]);
      intros i Hi Hcat;
      repeat (apply elem_of_cons in Hi as [->|Hi]);
      try (inversion Hi; fail); cbn in Hcat; try discriminate;
      cbn [severity]; split; split; intros; try discriminate; try lia; done.
  - split; [reflexivity|].
    split; [eexists; split; [apply lookup_insert_eq | reflexivity]|].
    exists []. rewrite app_nil_r. split; [reflexivity|].
    split; [intros i Hi; inversion Hi | lia].
Qed.

Lemma tracked_changes_witness :
  let d' := fst (_check_tracked_changes revised_doc (init "a.docx" false)) in
  snd (_check_tracked_changes revised_doc (init "a.docx" false)) = Return tt
  ∧ (∃ m, stats d' !! "tracked_changes" = Some (VDict m)
          ∧ m !! "total" = Some (Z.of_nat (1 + 1)))
  ∧ (∃ new, issues d' = issues (init "a.docx" false) ++ new
       ∧ (∀ i, i ∈ new → category i = "Tracked Changes" →
               (severity i = WARNING ↔ (1 + 1 < 100)%nat)
               ∧ (severity i = ERROR ↔ (100 ≤ 1 + 1)%nat))
       ∧ ((0 < 1 + 1)%nat → ∃ i, i ∈ new ∧ category i = "Tracked Changes")).
Proof.
  apply (tracked_changes_total_and_severity revised_doc (init "a.docx" false) 1 1);
    reflexivity.
Defined.

(** C6 as stated fails: the part below parses to a tree whose root is an
    insertion that holds one deletion.  The document has one insertion
    element and one deletion element and no other element, yet the
    statistic counts no insertion and has total 1, not 2; and the
    deletion inside the insertion gives no Nested Revisions warning. *)
Lemma root_revision_not_counted :
  let d' := fst (_check_tracked_changes ins_rooted_doc (init "a.docx" false)) in
  map tag (iter ins_rooted_doc)
  = [ "{http://schemas.openxmlformats.org/wordprocessingml/2006/main}ins";
      "{http://schemas.openxmlformats.org/wordprocessingml/2006/main}del" ]
  ∧ (∃ m, stats d' !! "tracked_changes" = Some (VDict m)
          ∧ m !! "insertions" = Some 0
          ∧ m !! "deletions" = Some 1
          ∧ m !! "total" = Some 1
          ∧ m !! "total" ≠ Some (Z.of_nat (1 + 1)))
  ∧ map (λ i, (severity i, category i, message i)) (issues d')
    = [ (WARNING, "Tracked Changes", "Document contains 1 tracked change(s)") ].
Proof.
  cbv zeta. split; [reflexivity|]. split.
  - eexists. split; [vm_compute; reflexivity|].
    split; [vm_compute; reflexivity|]. split; [vm_compute; reflexivity|].
    split; [vm_compute; reflexivity|]. vm_compute. discriminate.
  - vm_compute. reflexivity.
Qed.

(** ** Decoding failures *)

Ltac rewrite_conditions :=
  repeat match goal with
         | H : ?x = _ |- context [?x] => rewrite H
         end.

Lemma utf8_decode_at_unfold (pos : nat) (bs : list byte) :
  bs ≠ [] →
  utf8_decode_at pos bs =
    match decode_head bs with
    | Some (c, n) => decoded_cons c (utf8_decode_at (pos + n) (drop n bs))
    | None => UnicodeDecodeError pos
    end.
Proof.
  intros Hne. destruct bs as [|b1 r1]; [done|]. clear Hne.
  cbn [utf8_decode_at decode_head]. cbv zeta.
  destruct (byte_val b1 <? 128); [reflexivity|].
  destruct (byte_val b1 <? 194); [reflexivity|].
  destruct (byte_val b1 <? 224).
  { destruct r1 as [|b2 r2]; [reflexivity|].
    destruct (is_continuation b2); reflexivity. }
  destruct (byte_val b1 <? 240).
  { destruct r1 as [|b2 [|b3 r3]]; try reflexivity.
    - repeat case_match; reflexivity.
    - destruct (is_continuation b2 && _ && _); cbn [andb]; [|reflexivity].
      destruct (is_continuation b3); reflexivity. }
  destruct (byte_val b1 <? 245); [|reflexivity].
  destruct r1 as [|b2 [|b3 [|b4 r4]]]; try reflexivity;
    try (repeat case_match; reflexivity).
  destruct (is_continuation b2 && _ && _); cbn [andb]; [|reflexivity].
  destruct (is_continuation b3); cbn [andb]; [|reflexivity].
  destruct (is_continuation b4); reflexivity.
Qed.

Lemma decode_head_length (bs : list byte) (c : Z) (n : nat) :
  decode_head bs = Some (c, n) → (0 < n ≤ length bs)%nat.
Proof.
  unfold decode_head. intros H.
  repeat case_match; try discriminate; simplify_eq; cbn [length]; lia.
Qed.

Lemma decode_head_take (bs : list byte) (c : Z) (n j : nat) :
  decode_head bs = Some (c, n) → (n ≤ j)%nat →
  decode_head (take j bs) = Some (c, n).
Proof.
  intros H Hj. unfold decode_head in H.
  repeat case_match; try discriminate; simplify_eq.
  all: repeat (destruct j as [|j]; [lia|]); cbn [take decode_head]; cbv zeta;
    rewrite_conditions; try reflexivity.
Qed.

(** A decode failure at offset [k]: the bytes before [k] are well-formed
    sequences and no well-formed sequence starts at [k]. *)
Lemma utf8_decode_at_error (bs : list byte) (pos k : nat) :
  utf8_decode_at pos bs = UnicodeDecodeError k →
  (pos ≤ k)%nat ∧ (k - pos < length bs)%nat
  ∧ well_formed_utf8 (take (k - pos) bs)
  ∧ decode_head (drop (k - pos) bs) = None.
Proof.
  remember (length bs) as n eqn:Hn. revert bs Hn pos k.
  induction n as [n IH] using lt_wf_ind. intros bs Hn pos k H.
  destruct (decide (bs = [])) as [->|Hne]; [discriminate|].
  rewrite utf8_decode_at_unfold in H by done.
  assert (Hlen : (0 < length bs)%nat) by (destruct bs; [done | cbn; lia]).
  destruct (decode_head bs) as [[c m]|] eqn:Hh.
  - destruct (utf8_decode_at (pos + m) (drop m bs)) as [t|k'] eqn:Hrec;
      [discriminate|]. cbn in H. injection H as ->.
    pose proof (decode_head_length _ _ _ Hh) as Hm.
    destruct (IH (length (drop m bs))
                 ltac:(rewrite length_drop; lia) (drop m bs) eq_refl _ _ Hrec)
      as (Hle & Hlt & Hwf & Hnone).
    rewrite length_drop in Hlt.
    split; [lia|]. split; [lia|]. split.
    + apply (wf_seq _ c m).
      * apply decode_head_take; [done | lia].
      * rewrite skipn_firstn_comm.
        replace (k - pos - m)%nat with (k - (pos + m))%nat by lia. done.
    + rewrite drop_drop in Hnone.
      replace (k - pos)%nat with (m + (k - (pos + m)))%nat by lia. done.
  - injection H as <-. rewrite Nat.sub_diag. cbn [take drop].
    repeat split; [lia | lia | constructor | done].
Qed.

Lemma run_check_invalid_characters_error
    (content : list byte) (filename : string) (start : nat) (d : DocxDiagnostic) :
  utf8_decode content = UnicodeDecodeError start →
  _check_invalid_characters content filename d
  = (with_issue (encoding_issue filename start) d, Return tt).
Proof. intros H. unfold _check_invalid_characters. rewrite H. reflexivity. Qed.

(** C3, as the code has it.  When the bytes of the main part do not
    decode as UTF-8, an Encoding/ERROR issue carrying the byte offset of
    the first ill-formed sequence is recorded and the character scan is
    skipped; the XML parse of the bytes is still attempted.  When the
    parser raises, the analysis of the part ends with one more issue
    after the Encoding issue: XML Parsing/ERROR for a [ParseError], and
    for any other exception the issue of the outer handler, which is
    Analysis/ERROR (DOCX Structure/ERROR for a [KeyError]).  When the
    parser returns a tree, the element-specific checks run on it, from
    the object that holds the Encoding issue. *)
Theorem decode_failure_recorded_parse_still_attempted
    (rt : Runtime) (checks : list (Element -> Py unit))
    (zf : ZipFile) (content : list byte) (start : nat) (d : DocxDiagnostic) :
  zip_file d = Some zf →
  read_member (filelist zf) "word/document.xml" = inr content →
  utf8_decode content = UnicodeDecodeError start →
  let recorded := with_issue (encoding_issue "word/document.xml" start) d in
  _check_invalid_characters content "word/document.xml" d = (recorded, Return tt)
  ∧ (start < length content)%nat
  ∧ well_formed_utf8 (take start content)
  ∧ decode_head (drop start content) = None
  ∧ match ET_fromstring rt content with
    | XmlTree root =>
        analyze_document_xml_with rt checks d
        = try_except (run_checks checks root) on_analysis_error recorded
    | XmlRaises e =>
        analyze_document_xml_with rt checks d
        = (with_issue
             (if bool_decide (exn_class e = ParseError) then
                mkIssue ERROR "XML Parsing"
                  ("Failed to parse document.xml: " +:+ exn_str e) None None
                  (Some "Document XML is malformed. Check for invalid characters or corrupted content.")
              else if bool_decide (exn_class e = KeyError) then
                mkIssue ERROR "DOCX Structure"
                  "document.xml not found in archive" None None None
              else
                mkIssue ERROR "Analysis"
                  ("Error analyzing document.xml: " +:+ exn_str e)
                  None None None)
             recorded,
           Return tt)
    end.
Proof.
  intros Hz Hread Hdec recorded.
  pose proof (utf8_decode_at_error _ _ _ Hdec) as (_ & Hlt & Hwf & Hnone).
  rewrite Nat.sub_0_r in Hlt, Hwf, Hnone.
  split; [by apply run_check_invalid_characters_error|].
  do 3 (split; [done|]).
  unfold analyze_document_xml_with. run_py. rewrite Hz, Hread.
  rewrite (run_check_invalid_characters_error _ _ _ _ Hdec). fold recorded.
  destruct (ET_fromstring rt content) as [root|e]; cbn [xml_result].
  - reflexivity.
  - unfold on_parse_error, on_analysis_error. run_py.
    repeat case_bool_decide; try reflexivity; congruence.
Qed.

Lemma decode_failure_witness :
  let d := opened "latin1.docx" false latin1_archive in
  let recorded := with_issue (encoding_issue "word/document.xml" 149) d in
  _check_invalid_characters latin1_doc_bytes "word/document.xml" d
  = (recorded, Return tt)
  ∧ (149 < length latin1_doc_bytes)%nat
  ∧ well_formed_utf8 (take 149 latin1_doc_bytes)
  ∧ decode_head (drop 149 latin1_doc_bytes) = None
  ∧ analyze_document_xml_with latin1_runtime (SEMANTIC_CHECKS latin1_runtime) d
    = try_except (run_checks (SEMANTIC_CHECKS latin1_runtime) latin1_doc)
        on_analysis_error recorded.
Proof.
  apply (decode_failure_recorded_parse_still_attempted
           latin1_runtime (SEMANTIC_CHECKS latin1_runtime)
           (mkZipFile latin1_archive true) latin1_doc_bytes 149
           (opened "latin1.docx" false latin1_archive));
    reflexivity.
Defined.

(** C3 as stated fails: the main part below does not decode as UTF-8
    (byte 0xE9 at offset 149), yet its bytes are parsed and the smart-tag
    check runs on the tree, so the analysis of the part does not end with
    the Encoding issue. *)
Lemma decode_failure_does_not_stop_analysis :
  let d := opened "latin1.docx" false latin1_archive in
  let d' := fst (_analyze_document_xml latin1_runtime d) in
  utf8_decode latin1_doc_bytes = UnicodeDecodeError 149
  ∧ read_member latin1_archive "word/document.xml" = inr latin1_doc_bytes
  ∧ d' ≠ with_issue (encoding_issue "word/document.xml" 149) d
  ∧ map category (issues d') = ["Encoding"; "Smart Tags"]
  ∧ stats d' !! "smart_tags" = Some (VInt 1).
Proof.
  cbv zeta. split; [vm_compute; reflexivity|].
  split; [vm_compute; reflexivity|].
  split; [|split; vm_compute; reflexivity].
  intros H. apply (f_equal (λ x, length (issues x))) in H.
  vm_compute in H. discriminate.
Qed.

(** ** Relationships *)

Lemma scan_relationships_acc (rt : Runtime) (names : list string)
    (rels : list Element) (broken : list BrokenRef) (external : list string) :
  fold_left (rel_step rt names) rels (broken, external)
  = (broken ++ map broken_ref (filter (λ r, unresolved rt names r = true) rels),
     external ++ map (λ r, get_default r "Target" EmptyString)
                     (filter (λ r, is_external r = true) rels)).
Proof.
  revert broken external.
  induction rels as [|rel rels IH]; intros broken external.
  - cbn. by rewrite !app_nil_r.
  - cbn [fold_left].
    assert (Hstep : rel_step rt names (broken, external) rel
                    = (if unresolved rt names rel
                       then broken ++ [broken_ref rel] else broken,
                       if is_external rel
                       then external ++ [get_default rel "Target" EmptyString]
                       else external)).
    { unfold rel_step, unresolved, broken_ref.
      destruct (is_external rel); cbn [negb andb]; [done|].
      destruct (str_in (target_path rt _) names); cbn [negb andb]; [done|].
      destruct (str_in (alt_path _) names); done. }
    rewrite Hstep, IH, !filter_cons.
    destruct (unresolved rt names rel), (is_external rel);
      repeat case_decide; try done; cbn [map]; rewrite <- ?app_assoc; done.
Qed.

(** C8, as the code has it.  An entry is external exactly when its target
    mode is [External] or its target starts with [http]; the external
    entries are collected apart and none of them is recorded as broken;
    the entries recorded as broken are, in order, exactly the others
    whose resolved and normalised path is no part of the package and
    whose target, with every leading [.] and [/] removed, is no part
    either. *)
Theorem relationships_classified (rt : Runtime) (names : list string)
    (rels : list Element) :
  (∀ rel, is_external rel = true ↔
          get_default rel "TargetMode" EmptyString = "External"
          ∨ String.prefix "http" (get_default rel "Target" EmptyString) = true)
  ∧ snd (scan_relationships rt names rels)
    = map (λ r, get_default r "Target" EmptyString)
          (filter (λ r, is_external r = true) rels)
  ∧ fst (scan_relationships rt names rels)
    = map broken_ref
        (filter (λ r, is_external r = false
                      ∧ (target_path rt (get_default r "Target" EmptyString) ∉ names)
                      ∧ (Str.lstrip ["."%char; "/"%char]
                           (get_default r "Target" EmptyString) ∉ names)) rels).
Proof.
  split; [|split].
  - intros rel. unfold is_external, Str.startswith.
    rewrite orb_true_iff, String.eqb_eq. reflexivity.
  - unfold scan_relationships. rewrite scan_relationships_acc. reflexivity.
  - unfold scan_relationships. rewrite scan_relationships_acc. cbn [fst app].
    f_equal. apply list_filter_iff. intros rel.
    unfold unresolved, str_in, alt_path.
    rewrite !andb_true_iff, !negb_true_iff, !bool_decide_eq_false.
    tauto.
Qed.

(** C8 as stated fails: the entry below is not external, and neither its
    resolved, normalised path nor its target without a leading './' is a
    part of the package, yet it is not recorded as a broken reference:
    [lstrip] removes all the leading dots and slashes and finds
    [docProps/app.xml]. *)
Lemma rootward_target_not_recorded :
  spec_external rootward_rel = false
  ∧ target_path plain_runtime "../../docProps/app.xml" = "../docProps/app.xml"
  ∧ strip_dot_slash "../../docProps/app.xml" = "../../docProps/app.xml"
  ∧ spec_broken plain_runtime rootward_names rootward_rel = true
  ∧ fst (scan_relationships plain_runtime rootward_names [rootward_rel]) = [].
Proof. repeat split; vm_compute; reflexivity. Qed.

(** ** An exception inside an element-specific check *)



Lemma for_each_add_issue {A} (l : list A) (sev : Severity) (cat : string)
    (msg : A → string) (loc ctx sug : A → option string) (d : DocxDiagnostic) :
  for_each l (λ x, add_issue sev cat (msg x) (loc x) (ctx x) (sug x)) d
  = (mkDiag (filepath d) (verbose d)
       (issues d ++ map (λ x, mkIssue sev cat (msg x) (loc x) (ctx x) (sug x)) l)
       (stats d) (zip_file d),
     Return tt).
Proof.
  revert d. induction l as [|x l IH]; intros d; cbn [for_each map].
  - unfold pass, ret. rewrite app_nil_r. by destruct d.
  - unfold bind, add_issue at 1. rewrite IH. cbn. by rewrite <- app_assoc.
Qed.

Lemma with_issues_nil (d : DocxDiagnostic) : with_issues [] d = d.
Proof. unfold with_issues. rewrite app_nil_r. by destruct d. Qed.

Lemma with_issues_app (l1 l2 : list Issue) (d : DocxDiagnostic) :
  with_issues l2 (with_issues l1 d) = with_issues (l1 ++ l2) d.
Proof. unfold with_issues. cbn. by rewrite app_assoc. Qed.

(** The character check never raises: it appends its issues, and in
    verbose mode the detail issues after them. *)
Lemma run_check_invalid_characters
    (content : list byte) (filename : string) (d : DocxDiagnostic) :
  _check_invalid_characters content filename d
  = (with_issues (character_issues filename content
                    ++ (if verbose d then detail_issues content else [])) d,
     Return tt).
Proof.
  unfold _check_invalid_characters, character_issues, detail_issues.
  destruct (utf8_decode content) as [text|start].
  - destruct (scan_invalid text) as [|first rest] eqn:Hscan.
    + cbn. destruct (verbose d); cbn; by rewrite with_issues_nil.
    + unfold bind, get_verbose, when, pass, ret, add_issue at 1. cbn [verbose].
      unfold with_issues, invalid_characters_issue.
      destruct (verbose d); [|cbn; done].
      rewrite for_each_add_issue. cbn. by rewrite <- app_assoc.
  - destruct (verbose d); done.
Qed.


(** ** Failures of the package loader *)




(** ** The archive handle *)

(** C4 at a failing input: the integrity test names the corrupted main
    part, [_check_zip_structure] reports it and [run_all_checks] returns
    False; the archive was opened and its handle is still open at the
    return. *)
Lemma handle_left_open_after_corrupted_member :
  let os := os_with_archive "bad.docx" 2048 corrupted_archive in
  let d := fst (diagnose plain_runtime os "bad.docx" false) in
  testzip corrupted_archive = inr (Some "word/document.xml")
  ∧ snd (diagnose plain_runtime os "bad.docx" false) = Return false
  ∧ map (λ i, (severity i, category i)) (issues d) = [ (ERROR, "ZIP Structure") ]
  ∧ zip_file d = Some (mkZipFile corrupted_archive true)
  ∧ fp_open <$> zip_file d = Some true.
Proof. cbv zeta. repeat split; vm_compute; reflexivity. Qed.

(** On the path without an early return the handle is closed. *)
Example handle_closed_after_complete_run :
  let os := os_with_archive "a.docx" 2048 revised_archive in
  fp_open <$> zip_file (fst (diagnose revised_runtime os "a.docx" false))
  = Some false.
Proof. vm_compute. reflexivity. Qed.

(** ** A corrupted member without a name *)

(** C7 at a failing input: the integrity test fails on the first member,
    whose name is empty; [testzip] returns that name, which is false as a
    condition, so no ZIP Structure issue is recorded and the later stages
    run. *)
Lemma unnamed_corrupted_member_not_reported :
  let os := os_with_archive "a.docx" 2048 unnamed_member_archive in
  let d := fst (diagnose revised_runtime os "a.docx" false) in
  testzip unnamed_member_archive = inr (Some EmptyString)
  ∧ map (λ i, (severity i, category i)) (issues d)
    = [ (ERROR, "DOCX Structure"); (INFO, "DOCX Structure");
        (INFO, "DOCX Structure"); (INFO, "DOCX Structure");
        (WARNING, "Tracked Changes"); (WARNING, "Nested Revisions");
        (WARNING, "Smart Tags"); (WARNING, "Relationships") ]
  ∧ stats d !! "zip_files" = Some (VInt 3).
Proof. cbv zeta. repeat split; vm_compute; reflexivity. Qed.

Ltac zip_leaf :=
  split; [reflexivity|]; eexists;
  (split; [|split; [|split; [reflexivity|]]]);
  [ reflexivity | reflexivity
  | eexists; split; [reflexivity | repeat constructor] ].

(** X5.  Apart from a corrupted member without a name, a failure of the
    archive is reported once: the report ends with one ZIP Structure issue
    of severity ERROR, which is its only ERROR, and holds nothing else but
    a possible File Size warning. *)
Lemma zip_failure_reported_once (rt : Runtime) (os : OS)
    (checks : list (Element → Py unit)) (path : string) (verbose_mode : bool) :
  zip_fails os path →
  let d := fst (run_all_checks_with rt os checks (init path verbose_mode)) in
  snd (run_all_checks_with rt os checks (init path verbose_mode)) = Return false
  ∧ ∃ zip_issue,
      severity zip_issue = ERROR
      ∧ category zip_issue = "ZIP Structure"
      ∧ filter (λ i, severity i = ERROR) (issues d) = [zip_issue]
      ∧ ∃ earlier, issues d = earlier ++ [zip_issue]
                   ∧ Forall (λ i, severity i = WARNING ∧ category i = "File Size")
                            earlier.
Proof.
  intros (Hex & Hfile & Hsize & Hzip). cbv zeta.
  unfold run_all_checks_with, _check_file_exists, _check_zip_structure,
    zipfile_ZipFile.
  run_state. rewrite Hex, Hfile. run_state.
  destruct (Z.eqb_spec (path_getsize (os path)) 0) as [|_]; [done|].
  destruct Hzip as [[e Hopen]|(a & Hopen & [[e Htest]|(name & Htest & Hname)])];
    destruct (100 * 1024 * 1024 <? path_getsize (os path)); run_state;
    rewrite Hopen; run_state; rewrite ?Htest; run_state;
    try case_bool_decide; run_state;
    try (unfold truthy_opt, Str.truthy;
         destruct (String.eqb_spec name EmptyString); [done|]; run_state);
    zip_leaf.
Qed.

(** ** No exception escapes a run *)

Lemma returns_ret {A} (a : A) : returns (ret a).
Proof. intros d. by exists a. Qed.

Lemma returns_bind {A B} (m : Py A) (k : A → Py B) :
  returns m → (∀ a, returns (k a)) → returns (bind m k).
Proof.
  intros Hm Hk d. unfold bind. destruct (Hm d) as [a Ha].
  destruct (m d) as [d' r]. cbn in Ha. subst r. apply Hk.
Qed.

Lemma returns_try_except {A} (m : Py A) (h : PyExn → Py A) :
  (∀ e, returns (h e)) → returns (try_except m h).
Proof.
  intros Hh d. unfold try_except. destruct (m d) as [d' [a|e]].
  - by exists a.
  - apply Hh.
Qed.

Lemma returns_add_issue (sev : Severity) (cat msg : string)
    (loc ctx sug : option string) :
  returns (add_issue sev cat msg loc ctx sug).
Proof. intros d. by exists tt. Qed.

Lemma returns_set_stat (k : string) (v : StatValue) : returns (set_stat k v).
Proof. intros d. by exists tt. Qed.

Lemma returns_when (c : bool) (m : Py unit) : returns m → returns (when c m).
Proof. intros H. destruct c; [done | apply returns_ret]. Qed.

Lemma returns_for_each {A} (l : list A) (body : A → Py unit) :
  (∀ x, returns (body x)) → returns (for_each l body).
Proof.
  intros H. induction l as [|x l IH]; cbn [for_each].
  - apply returns_ret.
  - apply returns_bind; [apply H | intros _; apply IH].
Qed.

Ltac returns_step :=
  cbv beta zeta;
  first
    [ apply returns_ret | apply returns_add_issue | apply returns_set_stat
    | apply returns_when
    | (apply returns_for_each; intros ?)
    | (apply returns_try_except; intros ?)
    | (apply returns_bind; [|intros ?])
    | (intros ?; eexists; reflexivity)
    | match goal with
      | |- returns (if ?b then _ else _) => destruct b
      | |- returns (match ?x with _ => _ end) => destruct x
      end ].

(** Whatever the element-specific checks do, [run_all_checks] returns:
    every failure ends up as an issue of the report. *)
Lemma run_all_checks_with_returns (rt : Runtime) (os : OS)
    (checks : list (Element → Py unit)) :
  returns (run_all_checks_with rt os checks).
Proof.
  unfold run_all_checks_with, _check_file_exists, _check_zip_structure,
    _check_required_files, analyze_document_xml_with, on_analysis_error,
    _check_relationships, _check_embedded_objects.
  repeat returns_step.
Qed.

Lemma diagnose_returns (rt : Runtime) (os : OS) (path : string) (verbose_mode : bool) :
  ∃ passed, snd (diagnose rt os path verbose_mode) = Return passed.
Proof. apply run_all_checks_with_returns. Qed.

(** ** Two runs side by side *)

Lemma related_weaken (Pre Pre' Post Post' : DocxDiagnostic → DocxDiagnostic → Prop)
    {A} (m1 m2 : Py A) :
  (∀ d1 d2, Pre' d1 d2 → Pre d1 d2) →
  (∀ d1 d2, Post d1 d2 → Post' d1 d2) →
  related Pre Post m1 m2 → related Pre' Post' m1 m2.
Proof. intros Hpre Hpost H d1 d2 Hd. destruct (H d1 d2) as [? ?]; auto. Qed.

Lemma related_bind (P Q R : DocxDiagnostic → DocxDiagnostic → Prop)
    {A B} (m1 m2 : Py A) (k1 k2 : A → Py B) :
  (∀ d1 d2, Q d1 d2 → R d1 d2) →
  related P Q m1 m2 →
  (∀ a, related Q R (k1 a) (k2 a)) →
  related P R (bind m1 k1) (bind m2 k2).
Proof.
  intros HQR Hm Hk d1 d2 Hd. unfold bind.
  destruct (Hm d1 d2 Hd) as [Hpost Hres].
  destruct (m1 d1) as [d1' r1], (m2 d2) as [d2' r2]. cbn [fst snd] in *.
  subst r2. destruct r1 as [a|e]; [by apply Hk | auto].
Qed.

Lemma related_try_except (P Q R : DocxDiagnostic → DocxDiagnostic → Prop)
    {A} (m1 m2 : Py A) (h1 h2 : PyExn → Py A) :
  (∀ d1 d2, Q d1 d2 → R d1 d2) →
  related P Q m1 m2 →
  (∀ e, related Q R (h1 e) (h2 e)) →
  related P R (try_except m1 h1) (try_except m2 h2).
Proof.
  intros HQR Hm Hh d1 d2 Hd. unfold try_except.
  destruct (Hm d1 d2 Hd) as [Hpost Hres].
  destruct (m1 d1) as [d1' r1], (m2 d2) as [d2' r2]. cbn [fst snd] in *.
  subst r2. destruct r1 as [a|e]; [auto | by apply Hh].
Qed.

Section Relational.
Variable Inv : DocxDiagnostic → DocxDiagnostic → Prop.
Context {HInv : Stable Inv}.

Lemma related_ret {A} (a : A) : related Inv Inv (ret a) (ret a).
Proof. intros d1 d2 Hd. done. Qed.

Lemma related_raise {A} (e : PyExn) : related Inv Inv (@raise A e) (raise e).
Proof. intros d1 d2 Hd. done. Qed.

Lemma related_seq {A B} (m1 m2 : Py A) (k1 k2 : A → Py B) :
  related Inv Inv m1 m2 →
  (∀ a, related Inv Inv (k1 a) (k2 a)) →
  related Inv Inv (bind m1 k1) (bind m2 k2).
Proof. by apply related_bind. Qed.

Lemma related_try {A} (m1 m2 : Py A) (h1 h2 : PyExn → Py A) :
  related Inv Inv m1 m2 →
  (∀ e, related Inv Inv (h1 e) (h2 e)) →
  related Inv Inv (try_except m1 h1) (try_except m2 h2).
Proof. by apply related_try_except. Qed.

Lemma related_add_issue (sev : Severity) (cat msg : string)
    (loc ctx sug : option string) :
  related Inv Inv (add_issue sev cat msg loc ctx sug)
                  (add_issue sev cat msg loc ctx sug).
Proof.
  intros d1 d2 Hd. split; [|done].
  apply (stable_issue (mkIssue sev cat msg loc ctx sug) d1 d2 Hd).
Qed.

Lemma related_set_stat (k : string) (v : StatValue) :
  related Inv Inv (set_stat k v) (set_stat k v).
Proof.
  intros d1 d2 Hd. split; [|done]. apply (stable_stat k v d1 d2 Hd).
Qed.

Lemma related_set_zip_file (z : ZipFile) :
  related Inv Inv (set_zip_file z) (set_zip_file z).
Proof.
  intros d1 d2 Hd. split; [|done]. apply (stable_zip (Some z) d1 d2 Hd).
Qed.

Lemma related_close_zip_file : related Inv Inv close_zip_file close_zip_file.
Proof.
  intros d1 d2 Hd. split; [|done]. unfold close_zip_file. cbn [fst].
  rewrite (stable_zip_file d1 d2 Hd).
  apply (stable_zip (close <$> zip_file d2) d1 d2 Hd).
Qed.

Lemma related_get_filepath : related Inv Inv get_filepath get_filepath.
Proof.
  intros d1 d2 Hd. split; [done|]. unfold get_filepath. cbn.
  by rewrite (stable_filepath d1 d2 Hd).
Qed.

Lemma related_get_zip_file : related Inv Inv get_zip_file get_zip_file.
Proof.
  intros d1 d2 Hd. split; [done|]. unfold get_zip_file. cbn.
  by rewrite (stable_zip_file d1 d2 Hd).
Qed.

Lemma related_lift {A} (r : PyExn + A) : related Inv Inv (lift r) (lift r).
Proof. destruct r; intros d1 d2 Hd; done. Qed.

Lemma related_when (c : bool) (m1 m2 : Py unit) :
  related Inv Inv m1 m2 → related Inv Inv (when c m1) (when c m2).
Proof. intros H. destruct c; [done | apply related_ret]. Qed.

Lemma related_for_each {A} (l : list A) (b1 b2 : A → Py unit) :
  (∀ x, related Inv Inv (b1 x) (b2 x)) →
  related Inv Inv (for_each l b1) (for_each l b2).
Proof.
  intros H. induction l as [|x l IH]; cbn [for_each].
  - apply related_ret.
  - apply related_seq; [apply H | intros _; apply IH].
Qed.

End Relational.

Ltac related_step :=
  cbv beta zeta;
  lazymatch goal with
  | |- related ?I _ _ _ =>
      first
        [ apply (related_ret I) | apply (related_raise I)
        | apply (related_add_issue I) | apply (related_set_stat I)
        | apply (related_set_zip_file I) | apply (related_close_zip_file I)
        | apply (related_get_filepath I) | apply (related_get_zip_file I)
        | apply (related_lift I) | apply (related_when I)
        | (apply (related_for_each I); intros ?)
        | (apply (related_seq I); [|intros ?])
        | (apply (related_try I); [|intros ?])
        | match goal with
          | |- related _ _ (if ?b then _ else _) (if ?b then _ else _) =>
              destruct b
          | |- related _ _ (match ?x with _ => _ end)
                           (match ?x with _ => _ end) => destruct x
          end ]
  end.

Ltac related_auto := repeat related_step.

Section RelationalChecks.
Variable Inv : DocxDiagnostic → DocxDiagnostic → Prop.
Context {HInv : Stable Inv}.


Lemma related_check_file_exists (rt1 rt2 : Runtime) (os : OS) :
  float_repr_mb rt1 = float_repr_mb rt2 →
  related Inv Inv (_check_file_exists rt1 os) (_check_file_exists rt2 os).
Proof. intros Hmb. unfold _check_file_exists. rewrite Hmb. related_auto. Qed.

Lemma related_check_zip_structure (os : OS) :
  related Inv Inv (_check_zip_structure os) (_check_zip_structure os).
Proof. unfold _check_zip_structure. related_auto. Qed.

Lemma related_check_required_files :
  related Inv Inv _check_required_files _check_required_files.
Proof. unfold _check_required_files. related_auto. Qed.

Lemma related_check_tracked_changes (root : Element) :
  related Inv Inv (_check_tracked_changes root) (_check_tracked_changes root).
Proof. unfold _check_tracked_changes. related_auto. Qed.

Lemma related_check_smart_tags (root : Element) :
  related Inv Inv (_check_smart_tags root) (_check_smart_tags root).
Proof. unfold _check_smart_tags. related_auto. Qed.

Lemma related_check_content_controls (root : Element) :
  related Inv Inv (_check_content_controls root) (_check_content_controls root).
Proof. unfold _check_content_controls. related_auto. Qed.

Lemma related_check_field_codes (rt : Runtime) (root : Element) :
  related Inv Inv (_check_field_codes rt root) (_check_field_codes rt root).
Proof. unfold _check_field_codes. related_auto. Qed.

Lemma related_check_equations (root : Element) :
  related Inv Inv (_check_equations root) (_check_equations root).
Proof. unfold _check_equations. related_auto. Qed.

Lemma related_check_hyperlinks (root : Element) :
  related Inv Inv (_check_hyperlinks root) (_check_hyperlinks root).
Proof. unfold _check_hyperlinks. related_auto. Qed.

Lemma related_check_namespaces (root : Element) :
  related Inv Inv (_check_namespaces root) (_check_namespaces root).
Proof. unfold _check_namespaces. related_auto. Qed.

Lemma related_run_checks (checks1 checks2 : list (Element → Py unit))
    (root : Element) :
  Forall2 (λ c1 c2, ∀ root, related Inv Inv (c1 root) (c2 root)) checks1 checks2 →
  related Inv Inv (run_checks checks1 root) (run_checks checks2 root).
Proof.
  unfold run_checks. induction 1 as [|c1 c2 l1 l2 Hc _ IH]; cbn [for_each].
  - apply (related_ret Inv).
  - apply (related_seq Inv); [apply Hc | intros _; apply IH].
Qed.

Lemma related_on_parse_error (e : PyExn) :
  related Inv Inv (on_parse_error e) (on_parse_error e).
Proof. unfold on_parse_error. related_auto. Qed.

Lemma related_on_analysis_error (e : PyExn) :
  related Inv Inv (on_analysis_error e) (on_analysis_error e).
Proof. unfold on_analysis_error. related_auto. Qed.

Lemma related_after_character_check (rt1 rt2 : Runtime)
    (checks1 checks2 : list (Element → Py unit)) (content : list byte) :
  ET_fromstring rt1 = ET_fromstring rt2 →
  Forall2 (λ c1 c2, ∀ root, related Inv Inv (c1 root) (c2 root)) checks1 checks2 →
  related Inv Inv (after_character_check rt1 checks1 content)
                  (after_character_check rt2 checks2 content).
Proof.
  intros Hparse Hchecks. unfold after_character_check. rewrite Hparse.
  apply (related_seq Inv).
  - apply (related_try Inv); [related_auto | apply related_on_parse_error].
  - intros [root|]; [by apply related_run_checks | apply (related_ret Inv)].
Qed.

Lemma related_check_relationships (rt : Runtime) :
  related Inv Inv (_check_relationships rt) (_check_relationships rt).
Proof. unfold _check_relationships. related_auto. Qed.

Lemma related_check_embedded_objects :
  related Inv Inv _check_embedded_objects _check_embedded_objects.
Proof. unfold _check_embedded_objects. related_auto. Qed.

Lemma related_finish (rt1 rt2 : Runtime) :
  related Inv Inv (_check_relationships rt1) (_check_relationships rt2) →
  related Inv Inv (finish rt1) (finish rt2).
Proof.
  intros Hrel. unfold finish.
  apply (related_seq Inv); [done|intros _].
  apply (related_seq Inv); [apply related_check_embedded_objects|intros _].
  apply (related_seq Inv); [apply (related_close_zip_file Inv)|intros _].
  intros d1 d2 Hd. unfold bind, get_issues, ret. cbn [fst snd].
  split; [done|]. by rewrite (stable_errors d1 d2 Hd).
Qed.

Lemma related_after_loader (Post : DocxDiagnostic → DocxDiagnostic → Prop)
    (rt1 rt2 : Runtime) (os : OS) (k1 k2 : Py bool) :
  (∀ d1 d2, Inv d1 d2 → Post d1 d2) →
  float_repr_mb rt1 = float_repr_mb rt2 →
  related Inv Post k1 k2 →
  related Inv Post (after_loader rt1 os k1) (after_loader rt2 os k2).
Proof.
  intros Hsub Hmb Hk. unfold after_loader.
  apply (related_bind Inv Inv Post); [done | by apply related_check_file_exists |].
  intros ok. destruct (negb ok).
  { apply (related_weaken Inv Inv Inv Post); [done | done | apply (related_ret Inv)]. }
  apply (related_bind Inv Inv Post); [done | apply related_check_zip_structure |].
  intros ok'. destruct (negb ok').
  { apply (related_weaken Inv Inv Inv Post); [done | done | apply (related_ret Inv)]. }
  apply (related_bind Inv Inv Post);
    [done | apply related_check_required_files | intros _; done].
Qed.

End RelationalChecks.

(** ** Verbose mode *)

#[global] Instance same_but_verbose_stable : Stable same_but_verbose.
Proof.
  split.
  - by intros d1 d2 (? & _).
  - by intros d1 d2 (_ & _ & ? & _).
  - intros i d1 d2 (? & ? & ? & ? & ? & Hi). repeat split; try done.
    cbn. by rewrite Hi.
  - intros k v d1 d2 (? & Hs & ? & ? & ? & ?). repeat split; try done.
    cbn. by rewrite Hs.
  - intros z d1 d2 (? & ? & ? & ? & ? & ?). repeat split; done.
  - intros d1 d2 (_ & _ & _ & _ & _ & Hi). by rewrite Hi.
Qed.

Lemma count_severity_app (sev : Severity) (l1 l2 : list Issue) :
  count_severity sev (l1 ++ l2)
  = (count_severity sev l1 + count_severity sev l2)%nat.
Proof. unfold count_severity. by rewrite filter_app, length_app. Qed.

Lemma count_severity_details (sev : Severity) (details : list Issue) :
  sev ≠ INFO → Forall is_detail details → count_severity sev details = 0%nat.
Proof.
  intros Hsev Hall. unfold count_severity.
  induction Hall as [|i l [Hi _] _ IH]; [done|].
  rewrite filter_cons. rewrite decide_False by congruence. done.
Qed.

Lemma details_inserted_count (sev : Severity) (dv dq : DocxDiagnostic) :
  sev ≠ INFO → details_inserted dv dq →
  count_severity sev (issues dv) = count_severity sev (issues dq).
Proof.
  intros Hsev (_ & _ & _ & before & details & after & -> & -> & _ & Hall).
  rewrite !count_severity_app, (count_severity_details sev details) by done.
  lia.
Qed.

#[global] Instance details_inserted_stable : Stable details_inserted.
Proof.
  split.
  - by intros d1 d2 (? & _).
  - by intros d1 d2 (_ & _ & ? & _).
  - intros i d1 d2 (? & ? & ? & before & details & after & Hq & Hv & ? & ?).
    repeat split; try done.
    exists before, details, (after ++ [i]). cbn. rewrite Hq, Hv.
    by rewrite <- !app_assoc.
  - intros k v d1 d2 (? & Hs & ? & ?). repeat split; try done.
    cbn. by rewrite Hs.
  - intros z d1 d2 (? & ? & ? & ?). repeat split; done.
  - intros d1 d2 H. by apply details_inserted_count.
Qed.

Lemma same_but_verbose_details_inserted (dv dq : DocxDiagnostic) :
  same_but_verbose dv dq → details_inserted dv dq.
Proof.
  intros (? & ? & ? & _ & _ & Hi). repeat split; try done.
  exists (issues dq), [], []. rewrite Hi, !app_nil_r.
  repeat split; [cbn; lia | constructor].
Qed.

Lemma detail_issues_are_details (content : list byte) :
  (length (detail_issues content) ≤ 5)%nat ∧ Forall is_detail (detail_issues content).
Proof.
  unfold detail_issues. destruct (utf8_decode content) as [text|];
    [|split; [cbn; lia | constructor]].
  split.
  - rewrite length_map, length_take. lia.
  - apply Forall_map, Forall_forall. intros item _. by split.
Qed.

(** The character check is where the two runs part. *)
Lemma related_check_invalid_characters_verbose
    (content : list byte) (filename : string) :
  related same_but_verbose details_inserted
    (_check_invalid_characters content filename)
    (_check_invalid_characters content filename).
Proof.
  intros dv dq (Hf & Hs & Hz & Hv & Hq & Hi).
  rewrite !run_check_invalid_characters, Hv, Hq. cbn [fst snd].
  split; [|done]. repeat split; try done.
  exists (issues dq ++ character_issues filename content),
    (detail_issues content), [].
  destruct (detail_issues_are_details content) as [Hlen Hall].
  cbn. rewrite Hi, !app_nil_r, <- !app_assoc. done.
Qed.

Lemma analyze_document_xml_with_unfold (rt : Runtime)
    (checks : list (Element → Py unit)) (d : DocxDiagnostic) :
  analyze_document_xml_with rt checks d
  = match zip_file d with
    | None => (d, Return tt)
    | Some zf =>
        try_except
          (content <- lift (read_member (filelist zf) "word/document.xml") ;;
           _check_invalid_characters content "word/document.xml" ;;
           after_character_check rt checks content)
          on_analysis_error d
    end.
Proof.
  unfold analyze_document_xml_with, bind at 1, get_zip_file.
  destruct (zip_file d); reflexivity.
Qed.

Lemma related_analyze_document_xml_verbose (rt : Runtime)
    (checks : list (Element → Py unit)) :
  Forall (λ c, ∀ root, related details_inserted details_inserted (c root) (c root))
         checks →
  related same_but_verbose details_inserted
    (analyze_document_xml_with rt checks) (analyze_document_xml_with rt checks).
Proof.
  intros Hchecks dv dq Hd. rewrite !analyze_document_xml_with_unfold.
  rewrite (stable_zip_file dv dq Hd).
  destruct (zip_file dq) as [zf|];
    [|split; [by apply same_but_verbose_details_inserted | done]].
  revert dv dq Hd.
  apply (related_try_except same_but_verbose details_inserted details_inserted);
    [done | | intros e; apply (related_on_analysis_error details_inserted)].
  apply (related_bind same_but_verbose same_but_verbose details_inserted);
    [apply same_but_verbose_details_inserted
    | apply (related_lift same_but_verbose) |].
  intros content.
  apply (related_bind same_but_verbose details_inserted details_inserted);
    [done | apply related_check_invalid_characters_verbose |].
  intros _. apply (related_after_character_check details_inserted); [done|].
  apply Forall_Forall2_diag. done.
Qed.

Lemma semantic_checks_related (Inv : DocxDiagnostic → DocxDiagnostic → Prop)
    `{!Stable Inv} (rt : Runtime) :
  Forall (λ c, ∀ root, related Inv Inv (c root) (c root)) (SEMANTIC_CHECKS rt).
Proof.
  unfold SEMANTIC_CHECKS.
  constructor; [intros root; apply (related_check_tracked_changes Inv)|].
  constructor; [intros root; apply (related_check_smart_tags Inv)|].
  constructor; [intros root; apply (related_check_content_controls Inv)|].
  constructor; [intros root; apply (related_check_field_codes Inv)|].
  constructor; [intros root; apply (related_check_equations Inv)|].
  constructor; [intros root; apply (related_check_hyperlinks Inv)|].
  constructor; [intros root; apply (related_check_namespaces Inv)|].
  constructor.
Qed.

Lemma run_all_checks_with_split (rt : Runtime) (os : OS)
    (checks : list (Element → Py unit)) :
  run_all_checks_with rt os checks
  = after_loader rt os (analyze_document_xml_with rt checks ;; finish rt).
Proof. reflexivity. Qed.

Lemma related_run_all_checks_verbose (rt : Runtime) (os : OS) :
  related same_but_verbose details_inserted
    (run_all_checks rt os) (run_all_checks rt os).
Proof.
  unfold run_all_checks. rewrite run_all_checks_with_split.
  apply (related_after_loader same_but_verbose details_inserted);
    [apply same_but_verbose_details_inserted | done |].
  apply (related_bind same_but_verbose details_inserted details_inserted);
    [done | |].
  - apply related_analyze_document_xml_verbose.
    apply (semantic_checks_related details_inserted).
  - intros _. apply (related_finish details_inserted).
    apply (related_check_relationships details_inserted).
Qed.

(** C10.  For every input, the verbose and the quiet run both return, with
    the same result, and hold the same statistics and the same archive
    handle; the
    issues of the verbose run are those of the quiet run with, in one
    place, at most five Invalid Character Detail issues of severity INFO
    added; the status and the ERROR and WARNING counts of the two
    summaries are equal. *)
Theorem verbose_only_adds_details (rt : Runtime) (os : OS) (path : string) :
  let dv := fst (diagnose rt os path true) in
  let dq := fst (diagnose rt os path false) in
  (∃ passed, snd (diagnose rt os path true) = Return passed
             ∧ snd (diagnose rt os path false) = Return passed)
  ∧ stats dv = stats dq
  ∧ zip_file dv = zip_file dq
  ∧ (∃ before details after,
        issues dq = before ++ after
        ∧ issues dv = before ++ details ++ after
        ∧ (length details ≤ 5)%nat
        ∧ Forall (λ i, severity i = INFO
                       ∧ category i = "Invalid Character Detail") details)
  ∧ sm_status (get_summary dv) = sm_status (get_summary dq)
  ∧ sm_errors (get_summary dv) = sm_errors (get_summary dq)
  ∧ sm_warnings (get_summary dv) = sm_warnings (get_summary dq)
  ∧ sm_statistics (get_summary dv) = sm_statistics (get_summary dq).
Proof.
  cbv zeta. destruct (diagnose_returns rt os path true) as [passed Hret].
  revert Hret. unfold diagnose.
  destruct (related_run_all_checks_verbose rt os
              (init path true) (init path false)) as [Hinv Hres].
  { repeat split. }
  revert Hinv Hres.
  generalize (run_all_checks rt os (init path true)).
  generalize (run_all_checks rt os (init path false)).
  intros [dq rq] [dv rv]. cbn [fst snd]. intros Hinv Hres Hret.
  pose proof (details_inserted_count ERROR _ _ ltac:(done) Hinv) as Herr.
  pose proof (details_inserted_count WARNING _ _ ltac:(done) Hinv) as Hwarn.
  destruct Hinv as (_ & Hs & Hz & Hshape).
  unfold get_summary. cbn [sm_status sm_errors sm_warnings sm_statistics].
  rewrite Herr, Hwarn. split; [exists passed; by rewrite <- Hres|].
  repeat split; done.
Qed.

(** ** Iteration order of sets *)

Lemma issue_agrees_refl (i : Issue) : issue_agrees i i.
Proof. repeat split; by left. Qed.

Lemma Forall2_issue_agrees_refl (l : list Issue) : Forall2 issue_agrees l l.
Proof. induction l; constructor; [apply issue_agrees_refl | done]. Qed.

Lemma issue_agrees_count (sev : Severity) (l1 l2 : list Issue) :
  Forall2 issue_agrees l1 l2 → count_severity sev l1 = count_severity sev l2.
Proof.
  unfold count_severity. induction 1 as [|i1 i2 l1 l2 (Hs & _) _ IH]; [done|].
  rewrite !filter_cons, Hs. case_decide; cbn; by rewrite IH.
Qed.

Lemma agree_with_issues (i1 i2 : Issue) (d1 d2 : DocxDiagnostic) :
  agree_up_to_set_order d1 d2 → issue_agrees i1 i2 →
  agree_up_to_set_order (with_issue i1 d1) (with_issue i2 d2).
Proof.
  intros (? & ? & ? & ? & Hi) Hagree. repeat split; try done.
  cbn. apply Forall2_app; [done | by constructor].
Qed.

#[global] Instance agree_up_to_set_order_stable : Stable agree_up_to_set_order.
Proof.
  split.
  - by intros d1 d2 (? & _).
  - by intros d1 d2 (_ & _ & _ & ? & _).
  - intros i d1 d2 H. apply agree_with_issues; [done | apply issue_agrees_refl].
  - intros k v d1 d2 (? & ? & Hs & ? & ?). repeat split; try done.
    cbn. by rewrite Hs.
  - intros z d1 d2 (? & ? & ? & ? & ?). repeat split; done.
  - intros d1 d2 (_ & _ & _ & _ & Hi). by apply issue_agrees_count.
Qed.

Lemma stable_issues (Inv : DocxDiagnostic → DocxDiagnostic → Prop) `{!Stable Inv}
    (l : list Issue) (d1 d2 : DocxDiagnostic) :
  Inv d1 d2 → Inv (with_issues l d1) (with_issues l d2).
Proof.
  revert d1 d2. induction l as [|i l IH]; intros d1 d2 Hd.
  - by rewrite !with_issues_nil.
  - specialize (IH _ _ (stable_issue i d1 d2 Hd)).
    unfold with_issues, with_issue in *. cbn in IH.
    by rewrite <- !app_assoc in IH.
Qed.

Lemma related_check_invalid_characters_agree
    (content : list byte) (filename : string) :
  related agree_up_to_set_order agree_up_to_set_order
    (_check_invalid_characters content filename)
    (_check_invalid_characters content filename).
Proof.
  intros d1 d2 Hd. rewrite !run_check_invalid_characters. cbn [fst snd].
  destruct Hd as (Hf & Hv & Hs & Hz & Hi). rewrite Hv.
  split; [|done]. apply (stable_issues agree_up_to_set_order).
  by repeat split.
Qed.

Lemma nonempty_Permutation {A} (l1 l2 : list A) :
  l1 ≡ₚ l2 → nonempty l1 = nonempty l2.
Proof.
  intros H. apply Permutation_length in H.
  destruct l1, l2; cbn in *; congruence.
Qed.

Lemma related_check_field_codes_agree (rt : Runtime)
    (order1 order2 : list string → list string) (root : Element) :
  (∀ l, order1 l ≡ₚ order2 l) →
  related agree_up_to_set_order agree_up_to_set_order
    (_check_field_codes (with_set_list order1 rt) root)
    (_check_field_codes (with_set_list order2 rt) root).
Proof.
  intros Horder. unfold _check_field_codes. cbv zeta.
  apply (related_seq agree_up_to_set_order);
    [apply (related_set_stat agree_up_to_set_order)|intros _].
  destruct (nonempty _ || nonempty _); [|apply (related_ret agree_up_to_set_order)].
  unfold when. intros d1 d2 Hd. split; [|done].
  cbn [set_list with_set_list].
  change (field_type (with_set_list order1 rt)) with (field_type rt).
  change (field_type (with_set_list order2 rt)) with (field_type rt).
  set (types := omap (field_type rt) _).
  apply (agree_with_issues _ _ d1 d2 Hd).
  repeat split. cbn [location category].
  rewrite (nonempty_Permutation _ _ (Horder types)).
  destruct (nonempty (order2 types)); [|by left].
  right. split; [left|].
  exists "Types found: ", (order1 types), (order2 types). done.
Qed.

Lemma related_check_relationships_agree (rt : Runtime)
    (order1 order2 : list string → list string) :
  (∀ l, order1 l ≡ₚ order2 l) →
  related agree_up_to_set_order agree_up_to_set_order
    (_check_relationships (with_set_list order1 rt))
    (_check_relationships (with_set_list order2 rt)).
Proof.
  intros Horder. unfold _check_relationships.
  cbn [ET_fromstring set_list with_set_list].
  change (scan_relationships (with_set_list order1 rt))
    with (scan_relationships rt).
  change (scan_relationships (with_set_list order2 rt))
    with (scan_relationships rt).
  related_auto.
  intros d1 d2 Hd. split; [|done].
  apply (agree_with_issues _ _ d1 d2 Hd).
  repeat split. cbn [location category].
  right. split; [right; left|].
  eexists "Types: ", _, _. split; [apply Horder | done].
Qed.

Lemma related_analyze_document_xml (Inv : DocxDiagnostic → DocxDiagnostic → Prop)
    `{!Stable Inv} (rt1 rt2 : Runtime) (checks1 checks2 : list (Element → Py unit)) :
  ET_fromstring rt1 = ET_fromstring rt2 →
  (∀ content filename,
     related Inv Inv (_check_invalid_characters content filename)
                     (_check_invalid_characters content filename)) →
  Forall2 (λ c1 c2, ∀ root, related Inv Inv (c1 root) (c2 root)) checks1 checks2 →
  related Inv Inv (analyze_document_xml_with rt1 checks1)
                  (analyze_document_xml_with rt2 checks2).
Proof.
  intros Hparse Hchars Hchecks d1 d2 Hd.
  rewrite !analyze_document_xml_with_unfold, (stable_zip_file d1 d2 Hd).
  destruct (zip_file d2) as [zf|]; [|done].
  revert d1 d2 Hd.
  apply (related_try Inv); [|intros e; apply (related_on_analysis_error Inv)].
  apply (related_seq Inv); [apply (related_lift Inv)|intros content].
  apply (related_seq Inv); [apply Hchars|intros _].
  by apply (related_after_character_check Inv).
Qed.

Lemma related_run_all_checks_agree (rt : Runtime)
    (order1 order2 : list string → list string) (os : OS) :
  (∀ l, order1 l ≡ₚ order2 l) →
  related agree_up_to_set_order agree_up_to_set_order
    (run_all_checks (with_set_list order1 rt) os)
    (run_all_checks (with_set_list order2 rt) os).
Proof.
  intros Horder. unfold run_all_checks. rewrite !run_all_checks_with_split.
  apply (related_after_loader agree_up_to_set_order agree_up_to_set_order);
    [done | done |].
  apply (related_seq agree_up_to_set_order).
  - apply (related_analyze_document_xml agree_up_to_set_order); [done | |].
    + apply related_check_invalid_characters_agree.
    + unfold SEMANTIC_CHECKS.
      constructor; [intros root; apply (related_check_tracked_changes _)|].
      constructor; [intros root; apply (related_check_smart_tags _)|].
      constructor; [intros root; apply (related_check_content_controls _)|].
      constructor; [intros root; by apply related_check_field_codes_agree|].
      constructor; [intros root; apply (related_check_equations _)|].
      constructor; [intros root; apply (related_check_hyperlinks _)|].
      constructor; [intros root; apply (related_check_namespaces _)|].
      constructor.
  - intros _. apply (related_finish agree_up_to_set_order).
    by apply related_check_relationships_agree.
Qed.

(** C9, as the code has it.  Two runs on the same input whose
    interpreters enumerate every set of strings with the same elements,
    possibly in another order, both return, with the same result, hold the same
    statistics and give the same status and counts, and their issue lists
    agree issue by issue in severity, category, message, context and
    suggestion; the locations agree too, except that the types listed in
    the location of a Field Codes or Broken References issue may come in
    another order. *)
Theorem runs_agree_up_to_set_order (rt : Runtime)
    (order1 order2 : list string → list string)
    (os : OS) (path : string) (verbose_mode : bool) :
  (∀ l, order1 l ≡ₚ order2 l) →
  let r1 := diagnose (with_set_list order1 rt) os path verbose_mode in
  let r2 := diagnose (with_set_list order2 rt) os path verbose_mode in
  (∃ passed, snd r1 = Return passed ∧ snd r2 = Return passed)
  ∧ stats (fst r1) = stats (fst r2)
  ∧ sm_status (get_summary (fst r1)) = sm_status (get_summary (fst r2))
  ∧ sm_errors (get_summary (fst r1)) = sm_errors (get_summary (fst r2))
  ∧ sm_warnings (get_summary (fst r1)) = sm_warnings (get_summary (fst r2))
  ∧ sm_info (get_summary (fst r1)) = sm_info (get_summary (fst r2))
  ∧ Forall2 issue_agrees (issues (fst r1)) (issues (fst r2)).
Proof.
  intros Horder. cbv zeta.
  destruct (diagnose_returns (with_set_list order1 rt) os path verbose_mode)
    as [passed Hret].
  revert Hret. unfold diagnose.
  destruct (related_run_all_checks_agree rt order1 order2 os Horder
              (init path verbose_mode) (init path verbose_mode))
    as [(_ & _ & Hs & _ & Hi) Hres].
  { repeat split. constructor. }
  revert Hs Hi Hres.
  generalize (run_all_checks (with_set_list order1 rt) os (init path verbose_mode)).
  generalize (run_all_checks (with_set_list order2 rt) os (init path verbose_mode)).
  intros [d2 r2] [d1 r1]. cbn [fst snd]. intros Hs Hi Hres Hret.
  unfold get_summary. cbn [sm_status sm_errors sm_warnings sm_info].
  rewrite (issue_agrees_count ERROR _ _ Hi), (issue_agrees_count WARNING _ _ Hi),
    (issue_agrees_count INFO _ _ Hi).
  split; [exists passed; by rewrite <- Hres|]. repeat split; done.
Qed.

Lemma set_orders_enumerate_same_set (l : list string) :
  set_order_a l ≡ₚ set_order_b l.
Proof. unfold set_order_a, set_order_b. apply Permutation_rev. Qed.

Lemma runs_agree_witness :
  let os := os_with_archive "f.docx" 4096 fields_archive in
  let r1 := diagnose (with_set_list set_order_a (fields_runtime set_order_a))
              os "f.docx" false in
  let r2 := diagnose (with_set_list set_order_b (fields_runtime set_order_a))
              os "f.docx" false in
  (∃ passed, snd r1 = Return passed ∧ snd r2 = Return passed)
  ∧ stats (fst r1) = stats (fst r2)
  ∧ sm_status (get_summary (fst r1)) = sm_status (get_summary (fst r2))
  ∧ sm_errors (get_summary (fst r1)) = sm_errors (get_summary (fst r2))
  ∧ sm_warnings (get_summary (fst r1)) = sm_warnings (get_summary (fst r2))
  ∧ sm_info (get_summary (fst r1)) = sm_info (get_summary (fst r2))
  ∧ Forall2 issue_agrees (issues (fst r1)) (issues (fst r2)).
Proof.
  apply (runs_agree_up_to_set_order (fields_runtime set_order_a)
           set_order_a set_order_b
           (os_with_archive "f.docx" 4096 fields_archive) "f.docx" false).
  intros l. apply Permutation_rev.
Defined.

(** C9 as stated fails: on the same archive, two interpreters that
    enumerate the set of field types in opposite orders give Field Codes
    issues with different locations, so the ordered issue lists of the
    two runs differ. *)
Lemma set_order_changes_issue_list :
  let os := os_with_archive "f.docx" 4096 fields_archive in
  let d1 := fst (diagnose (fields_runtime set_order_a) os "f.docx" false) in
  let d2 := fst (diagnose (fields_runtime set_order_b) os "f.docx" false) in
  set_order_a ["Table of Contents"; "Page Number"]
    ≡ₚ set_order_b ["Table of Contents"; "Page Number"]
  ∧ locations_of "Field Codes" (issues d1)
    = [Some "Types found: Table of Contents, Page Number"]
  ∧ locations_of "Field Codes" (issues d2)
    = [Some "Types found: Page Number, Table of Contents"]
  ∧ issues d1 ≠ issues d2.
Proof.
  cbv zeta. split; [apply set_orders_enumerate_same_set|].
  split; [vm_compute; reflexivity|]. split; [vm_compute; reflexivity|].
  intros H. apply (f_equal (locations_of "Field Codes")) in H.
  vm_compute in H. discriminate.
Qed.

(** ** The archive handle on complete runs *)

Lemma keeps_ret {A} (a : A) : keeps_zip_file (ret a).
Proof. by intros d. Qed.

Lemma keeps_bind {A B} (m : Py A) (k : A → Py B) :
  keeps_zip_file m → (∀ a, keeps_zip_file (k a)) → keeps_zip_file (bind m k).
Proof.
  intros Hm Hk d. unfold bind. specialize (Hm d).
  destruct (m d) as [d' [a|e]]; cbn [fst] in *; [|done].
  by rewrite Hk.
Qed.

Lemma keeps_try_except {A} (m : Py A) (h : PyExn → Py A) :
  keeps_zip_file m → (∀ e, keeps_zip_file (h e)) → keeps_zip_file (try_except m h).
Proof.
  intros Hm Hh d. unfold try_except. specialize (Hm d).
  destruct (m d) as [d' [a|e]]; cbn [fst] in *; [done|].
  by rewrite Hh.
Qed.

Lemma keeps_when (c : bool) (m : Py unit) :
  keeps_zip_file m → keeps_zip_file (when c m).
Proof. intros H. by destruct c. Qed.

Lemma keeps_for_each {A} (l : list A) (body : A → Py unit) :
  (∀ x, keeps_zip_file (body x)) → keeps_zip_file (for_each l body).
Proof.
  intros H. induction l as [|x l IH]; cbn [for_each]; [done|].
  apply keeps_bind; [apply H | intros _; apply IH].
Qed.

Lemma keeps_lift {A} (r : PyExn + A) : keeps_zip_file (lift r).
Proof. by destruct r. Qed.

Ltac keeps_step :=
  cbv beta zeta;
  first
    [ apply keeps_ret | apply keeps_lift | apply keeps_when
    | (apply keeps_for_each; intros ?)
    | (apply keeps_try_except; [|intros ?])
    | (apply keeps_bind; [|intros ?])
    | (intros ?; reflexivity)
    | match goal with
      | |- keeps_zip_file (if ?b then _ else _) => destruct b
      | |- keeps_zip_file (match ?x with _ => _ end) => destruct x
      end ].

Lemma semantic_checks_keep_zip_file (rt : Runtime) :
  Forall (λ c, ∀ root, keeps_zip_file (c root)) (SEMANTIC_CHECKS rt).
Proof.
  unfold SEMANTIC_CHECKS, _check_tracked_changes, _check_smart_tags,
    _check_content_controls, _check_field_codes, _check_equations,
    _check_hyperlinks, _check_namespaces.
  repeat (constructor; [intros root; repeat keeps_step|]). constructor.
Qed.

Lemma check_invalid_characters_keeps_zip_file
    (content : list byte) (filename : string) :
  keeps_zip_file (_check_invalid_characters content filename).
Proof. intros d. by rewrite run_check_invalid_characters. Qed.

Lemma run_checks_keeps_zip_file (checks : list (Element → Py unit))
    (root : Element) :
  Forall (λ c, ∀ root, keeps_zip_file (c root)) checks →
  keeps_zip_file (run_checks checks root).
Proof.
  unfold run_checks. induction 1 as [|c l Hc _ IH]; cbn [for_each].
  - apply keeps_ret.
  - apply keeps_bind; [apply Hc | intros _; apply IH].
Qed.

Lemma analyze_document_xml_keeps_zip_file (rt : Runtime)
    (checks : list (Element → Py unit)) :
  Forall (λ c, ∀ root, keeps_zip_file (c root)) checks →
  keeps_zip_file (analyze_document_xml_with rt checks).
Proof.
  intros Hchecks. unfold analyze_document_xml_with, on_analysis_error,
    on_parse_error.
  repeat first
    [ apply check_invalid_characters_keeps_zip_file
    | by apply run_checks_keeps_zip_file
    | keeps_step ].
Qed.

Lemma check_required_files_keeps_zip_file : keeps_zip_file _check_required_files.
Proof. unfold _check_required_files. repeat keeps_step. Qed.

Lemma check_relationships_keeps_zip_file (rt : Runtime) :
  keeps_zip_file (_check_relationships rt).
Proof. unfold _check_relationships. repeat keeps_step. Qed.

Lemma check_embedded_objects_keeps_zip_file :
  keeps_zip_file _check_embedded_objects.
Proof. unfold _check_embedded_objects. repeat keeps_step. Qed.

(** Once the archive is open, the rest of [run_all_checks] ends with the
    handle closed, provided it returns. *)
Lemma rest_of_run_closes_handle (rt : Runtime)
    (checks : list (Element → Py unit)) (d : DocxDiagnostic) (passed : bool) :
  Forall (λ c, ∀ root, keeps_zip_file (c root)) checks →
  snd ((_check_required_files ;; analyze_document_xml_with rt checks ;; finish rt) d)
  = Return passed →
  zip_file (fst ((_check_required_files ;; analyze_document_xml_with rt checks ;;
                  finish rt) d))
  = close <$> zip_file d.
Proof.
  intros Hchecks. unfold finish, bind.
  pose proof (check_required_files_keeps_zip_file d) as H3.
  destruct (_check_required_files d) as [d3 [[]|e]]; [|discriminate].
  pose proof (analyze_document_xml_keeps_zip_file rt checks Hchecks d3) as H4.
  destruct (analyze_document_xml_with rt checks d3) as [d4 [[]|e]]; [|discriminate].
  pose proof (check_relationships_keeps_zip_file rt d4) as H5.
  destruct (_check_relationships rt d4) as [d5 [[]|e]]; [|discriminate].
  pose proof (check_embedded_objects_keeps_zip_file d5) as H6.
  destruct (_check_embedded_objects d5) as [d6 [[]|e]]; [|discriminate].
  cbn in *. intros _. congruence.
Qed.

(** X4.  On every input that passes the two loader checks, the run goes
    through all the stages and returns with the handle closed. *)
Lemma complete_run_closes_handle (rt : Runtime) (os : OS) (path : string)
    (verbose_mode : bool) (a : Archive) :
  loader_passes os path a →
  zip_file (fst (diagnose rt os path verbose_mode)) = Some (mkZipFile a false).
Proof.
  intros (Hex & Hfile & Hsize & Hzip & bad_file & Htest & Htruthy).
  destruct (diagnose_returns rt os path verbose_mode) as [passed Hret].
  revert Hret. unfold diagnose, run_all_checks.
  rewrite run_all_checks_with_split. unfold after_loader.
  pose proof (rest_of_run_closes_handle rt (SEMANTIC_CHECKS rt)) as Hrest.
  set (rest := bind _check_required_files _) in *.
  unfold _check_file_exists, _check_zip_structure, zipfile_ZipFile.
  run_state. rewrite Hex, Hfile. run_state.
  destruct (Z.eqb_spec (path_getsize (os path)) 0) as [|_]; [done|].
  destruct (100 * 1024 * 1024 <? path_getsize (os path)); run_state;
    rewrite Hzip; run_state; rewrite Htest; run_state; rewrite Htruthy;
    run_state;
    intros Hret;
    exact (Hrest _ passed (semantic_checks_keep_zip_file rt) Hret).
Qed.

(** * Further properties of the engine *)

(** ** Exceptions and the returned value *)

(** X1.  An exception leaves [run_all_checks] only from the [print] that
    opens it.  From its first check on, the method returns a boolean from
    any object and whatever the element-specific checks do: every failure
    inside a stage is caught by the handlers of that stage.  So the
    method as a whole raises exactly when the console refuses its opening
    line, before any check has run and with the object untouched;
    otherwise the line is written and the method returns a boolean. *)
Theorem run_raises_only_at_its_print (rt : Runtime) (os : OS) (ps : Process)
    (c : Colors.t) (d : DocxDiagnostic) (written : list Write) :
  let line := ToStdout (Print (analyzing_line c (filepath d))) in
  (∀ checks, ∃ passed,
     snd (run_all_checks_with rt os checks d) = Return passed)
  ∧ match write_fault ps written line with
    | Some e =>
        run_all_checks_printing rt os ps c d written = (written, (d, Raise e))
    | None =>
        ∃ passed,
          run_all_checks_printing rt os ps c d written
          = (written ++ [line], (fst (run_all_checks rt os d), Return passed))
    end.
Proof.
  cbv zeta. split; [intros checks; apply run_all_checks_with_returns|].
  unfold run_all_checks_printing, print.
  destruct (write_fault ps written _) as [e|]; [reflexivity|].
  destruct (run_all_checks_with_returns rt os (SEMANTIC_CHECKS rt) d)
    as [passed Hret].
  exists passed. unfold run_all_checks. rewrite <- Hret.
  by destruct (run_all_checks_with rt os (SEMANTIC_CHECKS rt) d).
Qed.

Lemma error_appended (l : list Issue) (cat msg : string)
    (loc ctx sug : option string) :
  (0 < count_severity ERROR (l ++ [mkIssue ERROR cat msg loc ctx sug]))%nat.
Proof.
  apply count_severity_pos. exists (mkIssue ERROR cat msg loc ctx sug).
  split; [|reflexivity].
  apply elem_of_app. right. apply list_elem_of_here.
Qed.

Lemma check_file_exists_false (rt : Runtime) (os : OS) (d d' : DocxDiagnostic) :
  _check_file_exists rt os d = (d', Return false) →
  (0 < count_severity ERROR (issues d'))%nat.
Proof.
  unfold _check_file_exists. run_py.
  destruct (path_exists (os (filepath d))); cbn [negb];
    [destruct (path_isfile (os (filepath d))); cbn [negb];
     [destruct (path_getsize (os (filepath d)) =? 0);
      [|destruct (100 * 1024 * 1024 <? path_getsize (os (filepath d)))]|]|];
    intros [= <-]; cbn [issues]; apply error_appended.
Qed.

Lemma check_zip_structure_false (os : OS) (d d' : DocxDiagnostic) :
  _check_zip_structure os d = (d', Return false) →
  (0 < count_severity ERROR (issues d'))%nat.
Proof.
  unfold _check_zip_structure, zipfile_ZipFile. run_py.
  destruct (path_zip (os (filepath d))) as [e|a]; cbn;
    [ case_bool_decide
    | destruct (testzip a) as [e|bad_file]; cbn;
      [ case_bool_decide | destruct (truthy_opt bad_file) ] ];
    intros [= <-]; cbn [issues]; apply error_appended.
Qed.

Lemma run_result_is_error_count (rt : Runtime) (os : OS)
    (checks : list (Element → Py unit)) (d : DocxDiagnostic) (passed : bool) :
  snd (run_all_checks_with rt os checks d) = Return passed →
  passed = (count_severity ERROR
              (issues (fst (run_all_checks_with rt os checks d))) =? 0)%nat.
Proof.
  unfold run_all_checks_with, bind.
  destruct (_check_file_exists rt os d) as [d1 [[]|e]] eqn:H1; cbn [negb];
    [|unfold ret; intros [= <-]; cbn [fst]; apply check_file_exists_false in H1;
      symmetry; apply Nat.eqb_neq; lia | discriminate].
  destruct (_check_zip_structure os d1) as [d2 [[]|e]] eqn:H2; cbn [negb];
    [|unfold ret; intros [= <-]; cbn [fst]; apply check_zip_structure_false in H2;
      symmetry; apply Nat.eqb_neq; lia | discriminate].
  destruct (_check_required_files d2) as [d3 [[]|e]]; [|discriminate].
  destruct (analyze_document_xml_with rt checks d3) as [d4 [[]|e]]; [|discriminate].
  destruct (_check_relationships rt d4) as [d5 [[]|e]]; [|discriminate].
  destruct (_check_embedded_objects d5) as [d6 [[]|e]]; [|discriminate].
  cbn. intros [= <-]. reflexivity.
Qed.

(** X2.  The value [run_all_checks] returns agrees with the report taken
    from the object afterwards: it is True exactly when the summary counts
    no error, and False exactly when the status of the summary is FAIL.
    This holds on every path, the early returns included. *)
Theorem run_result_matches_report (rt : Runtime) (os : OS)
    (checks : list (Element → Py unit)) (d : DocxDiagnostic) :
  ∃ passed,
    snd (run_all_checks_with rt os checks d) = Return passed
    ∧ (passed = true
       ↔ sm_errors (get_summary (fst (run_all_checks_with rt os checks d))) = 0%nat)
    ∧ (passed = false
       ↔ sm_status (get_summary (fst (run_all_checks_with rt os checks d))) = "FAIL").
Proof.
  destruct (run_all_checks_with_returns rt os checks d) as [passed Hret].
  exists passed. split; [exact Hret|].
  apply run_result_is_error_count in Hret.
  unfold get_summary. cbn [sm_errors sm_status].
  destruct (count_severity ERROR
              (issues (fst (run_all_checks_with rt os checks d)))) as [|n];
    cbn in Hret |- *; subst passed.
  - split; [done|]. split; [done|].
    intros H. repeat case_match; discriminate.
  - split; [split; intros; discriminate | done].
Qed.

(** ** What a run accumulates *)

Lemma accumulates_ret {A} (a : A) : accumulates (ret a).
Proof. intros d. cbn. done. Qed.

Lemma accumulates_bind {A B} (m : Py A) (k : A → Py B) :
  accumulates m → (∀ a, accumulates (k a)) → accumulates (bind m k).
Proof.
  intros Hm Hk d. unfold bind. destruct (Hm d) as (Hf & Hv & Hi & Hs).
  destruct (m d) as [d' [a|e]]; cbn [fst] in *; [|done].
  destruct (Hk a d') as (Hf' & Hv' & Hi' & Hs').
  split; [congruence|]. split; [congruence|]. split; [by etrans|]. auto.
Qed.

Lemma accumulates_try_except {A} (m : Py A) (h : PyExn → Py A) :
  accumulates m → (∀ e, accumulates (h e)) → accumulates (try_except m h).
Proof.
  intros Hm Hh d. unfold try_except. destruct (Hm d) as (Hf & Hv & Hi & Hs).
  destruct (m d) as [d' [a|e]]; cbn [fst] in *; [done|].
  destruct (Hh e d') as (Hf' & Hv' & Hi' & Hs').
  split; [congruence|]. split; [congruence|]. split; [by etrans|]. auto.
Qed.

Lemma accumulates_when (c : bool) (m : Py unit) :
  accumulates m → accumulates (when c m).
Proof. intros H. destruct c; [done | apply accumulates_ret]. Qed.

Lemma accumulates_for_each {A} (l : list A) (body : A → Py unit) :
  (∀ x, accumulates (body x)) → accumulates (for_each l body).
Proof.
  intros H. induction l as [|x l IH]; cbn [for_each].
  - apply accumulates_ret.
  - apply accumulates_bind; [apply H | intros _; apply IH].
Qed.

Lemma accumulates_lift {A} (r : PyExn + A) : accumulates (lift r).
Proof. destruct r; intros d; cbn; done. Qed.

Lemma accumulates_add_issue (sev : Severity) (cat msg : string)
    (loc ctx sug : option string) :
  accumulates (add_issue sev cat msg loc ctx sug).
Proof. intros d. cbn. split_and!; [done | done | by apply prefix_app_r | done]. Qed.

Lemma accumulates_set_stat (k : string) (v : StatValue) :
  accumulates (set_stat k v).
Proof.
  intros d. cbn. split_and!; [done | done | done |].
  intros k' Hk. apply lookup_insert_is_Some'. by right.
Qed.

Ltac accumulates_step :=
  cbv beta zeta;
  first
    [ apply accumulates_ret | apply accumulates_lift
    | apply accumulates_add_issue | apply accumulates_set_stat
    | apply accumulates_when
    | (apply accumulates_for_each; intros ?)
    | (apply accumulates_try_except; [|intros ?])
    | (apply accumulates_bind; [|intros ?])
    | (intros ?; cbn; split_and!; done)
    | match goal with
      | |- accumulates (if ?b then _ else _) => destruct b
      | |- accumulates (match ?x with _ => _ end) => destruct x
      end ].

Lemma semantic_checks_accumulate (rt : Runtime) :
  Forall (λ c, ∀ root, accumulates (c root)) (SEMANTIC_CHECKS rt).
Proof.
  unfold SEMANTIC_CHECKS, _check_tracked_changes, _check_smart_tags,
    _check_content_controls, _check_field_codes, _check_equations,
    _check_hyperlinks, _check_namespaces.
  repeat (constructor; [intros root; repeat accumulates_step|]). constructor.
Qed.

Lemma run_checks_accumulates (checks : list (Element → Py unit)) (root : Element) :
  Forall (λ c, ∀ root, accumulates (c root)) checks →
  accumulates (run_checks checks root).
Proof.
  unfold run_checks. induction 1 as [|c l Hc _ IH]; cbn [for_each].
  - apply accumulates_ret.
  - apply accumulates_bind; [apply Hc | intros _; apply IH].
Qed.

Lemma check_invalid_characters_accumulates (content : list byte) (filename : string) :
  accumulates (_check_invalid_characters content filename).
Proof. unfold _check_invalid_characters. repeat accumulates_step. Qed.

Lemma analyze_document_xml_accumulates (rt : Runtime)
    (checks : list (Element → Py unit)) :
  Forall (λ c, ∀ root, accumulates (c root)) checks →
  accumulates (analyze_document_xml_with rt checks).
Proof.
  intros Hchecks. unfold analyze_document_xml_with, on_analysis_error,
    on_parse_error.
  repeat first
    [ apply check_invalid_characters_accumulates
    | by apply run_checks_accumulates
    | accumulates_step ].
Qed.

Lemma run_all_checks_with_accumulates (rt : Runtime) (os : OS)
    (checks : list (Element → Py unit)) :
  Forall (λ c, ∀ root, accumulates (c root)) checks →
  accumulates (run_all_checks_with rt os checks).
Proof.
  intros Hchecks.
  unfold run_all_checks_with, _check_file_exists, _check_zip_structure,
    _check_required_files, _check_relationships, _check_embedded_objects.
  repeat first
    [ by apply analyze_document_xml_accumulates
    | accumulates_step ].
Qed.

(** X3.  A run only accumulates: the path and the verbose flag of the
    object are left as they were, the issues recorded before the run are
    still there, in place, at the head of the list, and no statistic is
    removed. *)
Theorem run_only_accumulates (rt : Runtime) (os : OS) (d : DocxDiagnostic) :
  let d' := fst (run_all_checks rt os d) in
  filepath d' = filepath d
  ∧ verbose d' = verbose d
  ∧ (∃ new, issues d' = issues d ++ new)
  ∧ (∀ k, is_Some (stats d !! k) → is_Some (stats d' !! k)).
Proof.
  cbv zeta. unfold run_all_checks.
  destruct (run_all_checks_with_accumulates rt os (SEMANTIC_CHECKS rt)
              (semantic_checks_accumulate rt) d) as (Hf & Hv & [new Hi] & Hs).
  split; [exact Hf|]. split; [exact Hv|]. split; [by exists new | exact Hs].
Qed.

(** ** The loader checks *)

(** X6.  [_check_file_exists] returns True exactly for an existing,
    regular, non-empty file.  Otherwise it records one File Access error
    and nothing else.  The size statistics are recorded as soon as the
    path is a regular file, and the File Size warning is recorded for a
    usable file of more than 100 MiB (104857600 bytes); at exactly that
    size there is none. *)
Theorem file_exists_outcome (rt : Runtime) (os : OS) (d : DocxDiagnostic) :
  let info := os (filepath d) in
  let size := path_getsize info in
  let usable := path_exists info && path_isfile info && negb (size =? 0) in
  let d' := fst (_check_file_exists rt os d) in
  snd (_check_file_exists rt os d) = Return usable
  ∧ (∃ new, issues d' = issues d ++ new
            ∧ Forall (λ i, category i = (if usable then "File Size" else "File Access")
                           ∧ severity i = (if usable then WARNING else ERROR)) new
            ∧ length new = (if usable then (if (104857600 <? size)%Z then 1 else 0)
                            else 1)%nat)
  ∧ stats d' !! "file_size"
    = (if path_exists info && path_isfile info then Some (VInt size)
       else stats d !! "file_size").
Proof.
  cbv zeta. unfold _check_file_exists. run_py.
  destruct (path_exists (os (filepath d))); cbn [negb andb];
    [destruct (path_isfile (os (filepath d))); cbn [negb andb];
     [destruct (path_getsize (os (filepath d)) =? 0) eqn:Hsize; cbn [negb];
      [|change (100 * 1024 * 1024) with 104857600;
        destruct (104857600 <? path_getsize (os (filepath d)))]|]|];
    cbn [fst snd issues stats];
    (split; [reflexivity|]); (split; [|by simplify_map_eq]);
    first [ exists []; split; [by rewrite app_nil_r|]; split; [constructor | reflexivity]
          | eexists; split; [reflexivity|]; split;
            [repeat constructor | reflexivity] ].
Qed.

(** ** Parts of the package *)

Lemma for_each_ext {A} (l : list A) (b1 b2 : A → Py unit) (d : DocxDiagnostic) :
  (∀ x d, b1 x d = b2 x d) → for_each l b1 d = for_each l b2 d.
Proof.
  intros H. revert d. induction l as [|x l IH]; intros d; cbn [for_each]; [done|].
  unfold bind. rewrite H. destruct (b2 x d) as [d' [[]|e]]; [apply IH | done].
Qed.

Lemma for_each_when_add_issue {A} (l : list A) (c : A → bool) (sev : Severity)
    (cat : string) (msg : A → string) (loc ctx sug : A → option string)
    (d : DocxDiagnostic) :
  for_each l (λ x, when (c x) (add_issue sev cat (msg x) (loc x) (ctx x) (sug x))) d
  = (with_issues
       (map (λ x, mkIssue sev cat (msg x) (loc x) (ctx x) (sug x))
            (filter (λ x, c x = true) l)) d,
     Return tt).
Proof.
  revert d. induction l as [|x l IH]; intros d; cbn [for_each].
  - cbn. by rewrite with_issues_nil.
  - unfold bind, when. rewrite filter_cons. destruct (c x) eqn:Hc.
    + rewrite decide_True by done. unfold add_issue at 1. rewrite IH.
      unfold with_issues. cbn. by rewrite <- app_assoc.
    + rewrite decide_False by done. unfold pass, ret. apply IH.
Qed.

Lemma run_check_required_files (zf : ZipFile) (d : DocxDiagnostic) :
  zip_file d = Some zf →
  _check_required_files d
  = (with_issues
       (map missing_required_issue
            (filter (λ name, name ∉ namelist zf) REQUIRED_FILES)
        ++ map missing_optional_issue
             (filter (λ entry, fst entry ∉ namelist zf) optional_files)) d,
     Return tt).
Proof.
  intros Hzip. unfold _check_required_files, bind at 1, get_zip_file.
  rewrite Hzip. unfold bind.
  rewrite (for_each_when_add_issue REQUIRED_FILES
             (λ required, negb (str_in required (namelist zf))) ERROR "DOCX Structure"
             (λ required, "Missing required file: " +:+ required)
             (λ _, None) (λ _, None)
             (λ _, Some "Document structure is incomplete. May be corrupted.")).
  rewrite (for_each_ext optional_files _
             (λ entry, when (negb (str_in (fst entry) (namelist zf)))
                         (add_issue INFO "DOCX Structure" (snd entry)
                            (Some (fst entry)) None None)))
    by (by intros [name text] d').
  rewrite (for_each_when_add_issue optional_files
             (λ entry, negb (str_in (fst entry) (namelist zf))) INFO "DOCX Structure"
             snd (λ entry, Some (fst entry)) (λ _, None) (λ _, None)).
  rewrite with_issues_app. f_equal. f_equal. f_equal.
  - f_equal. apply list_filter_iff. intros name. unfold str_in.
    rewrite negb_true_iff, bool_decide_eq_false. done.
  - f_equal. apply list_filter_iff. intros entry. unfold str_in.
    rewrite negb_true_iff, bool_decide_eq_false. done.
Qed.

Lemma filter_nil_Forall {A} (P Q : A → Prop) `{!∀ x, Decision (P x)} (l : list A) :
  Forall Q l → (∀ x, Q x → ¬ P x) → filter P l = [].
Proof.
  intros Hall Hno. induction Hall as [|x l Hx _ IH]; [done|].
  rewrite filter_cons, decide_False by (by apply Hno). exact IH.
Qed.

(** X7.  With the archive open, [_check_required_files] records one
    DOCX Structure error for each of the three required files that the
    archive does not list, in the order of [REQUIRED_FILES], then one
    DOCX Structure information for each of the three optional files it
    does not list; it changes nothing else and does not raise.  When the
    archive lists all six names the object is left as it was. *)
Theorem required_files_reported (zf : ZipFile) (d : DocxDiagnostic) :
  zip_file d = Some zf →
  _check_required_files d
  = (with_issues
       (map missing_required_issue
            (filter (λ name, name ∉ namelist zf) REQUIRED_FILES)
        ++ map missing_optional_issue
             (filter (λ entry, fst entry ∉ namelist zf) optional_files)) d,
     Return tt)
  ∧ (Forall (λ name, name ∈ namelist zf) (REQUIRED_FILES ++ map fst optional_files) →
     _check_required_files d = (d, Return tt)).
Proof.
  intros Hzip. split; [by apply run_check_required_files|].
  intros Hall. rewrite (run_check_required_files zf d Hzip).
  apply Forall_app in Hall as [Hreq Hopt].
  rewrite (filter_nil_Forall _ (λ name, name ∈ namelist zf) REQUIRED_FILES Hreq)
    by (intros name Hin Hno; by apply Hno).
  rewrite (filter_nil_Forall _ (λ entry, fst entry ∈ namelist zf) optional_files)
    by (first [ by apply Forall_fmap in Hopt
              | intros entry Hin Hno; by apply Hno ]).
  cbn [map app]. by rewrite with_issues_nil.
Qed.

Lemma required_files_witness :
  map (λ i, (severity i, message i))
      (issues (fst (_check_required_files (opened "a.docx" false revised_archive))))
  = [ (ERROR, "Missing required file: _rels/.rels");
      (INFO, "Style definitions missing - default styles will be used");
      (INFO, "Numbering definitions missing - lists may not render correctly");
      (INFO, "Settings missing - document settings may be lost") ].
Proof.
  destruct (required_files_reported (mkZipFile revised_archive true)
              (opened "a.docx" false revised_archive)) as [Heq _].
  - reflexivity.
  - rewrite Heq. vm_compute. reflexivity.
Defined.

(** ** Element-specific checks *)

Lemma truthy_opt_false (o : option string) :
  truthy_opt o = false ↔ o = None ∨ o = Some EmptyString.
Proof.
  destruct o as [[|c s]|]; cbn; split; intros H; try done; auto;
    destruct H as [H|H]; discriminate.
Qed.

(** X8.  [_check_hyperlinks] records the number of hyperlink elements
    below the root.  A hyperlink counts as lacking a target when it has
    neither a non-empty relationship id nor a non-empty anchor; an
    attribute that is present but empty counts as absent.  If some
    hyperlink lacks a target there is one warning that counts those;
    otherwise, if there is any hyperlink, one information that counts
    them all; without hyperlinks, no issue. *)
Theorem hyperlinks_reported (root : Element) (d : DocxDiagnostic) :
  let hyperlinks := findall root (qname (NS "w") "hyperlink") in
  let untargeted := filter (λ hl, hyperlink_broken hl = true) hyperlinks in
  ∃ new,
    _check_hyperlinks root d
    = (with_issues new
         (with_stat "hyperlinks" (VInt (Z.of_nat (length hyperlinks))) d),
       Return tt)
    ∧ (hyperlinks = [] → new = [])
    ∧ (hyperlinks ≠ [] → untargeted = [] →
       new = [mkIssue INFO "Hyperlinks"
                ("Document contains " +:+ pretty (length hyperlinks)
                   +:+ " hyperlink(s)") None None None])
    ∧ (untargeted ≠ [] →
       ∃ sug, new = [mkIssue WARNING "Hyperlinks"
                       ("Found " +:+ pretty (length untargeted)
                          +:+ " hyperlink(s) without target reference")
                       None None sug])
    ∧ (∀ hl, hl ∈ untargeted ↔
         hl ∈ hyperlinks
         ∧ (get hl (qname (NS "r") "id") = None
            ∨ get hl (qname (NS "r") "id") = Some EmptyString)
         ∧ (get hl (qname (NS "w") "anchor") = None
            ∨ get hl (qname (NS "w") "anchor") = Some EmptyString)).
Proof.
  cbv zeta. unfold _check_hyperlinks. run_py.
  set (hyperlinks := findall root (qname (NS "w") "hyperlink")).
  assert (Hun : ∀ hl, hl ∈ filter (λ hl, hyperlink_broken hl = true) hyperlinks ↔
            hl ∈ hyperlinks
            ∧ (get hl (qname (NS "r") "id") = None
               ∨ get hl (qname (NS "r") "id") = Some EmptyString)
            ∧ (get hl (qname (NS "w") "anchor") = None
               ∨ get hl (qname (NS "w") "anchor") = Some EmptyString)).
  { intros hl. rewrite list_elem_of_filter. unfold hyperlink_broken.
    rewrite andb_true_iff, !negb_true_iff, !truthy_opt_false. tauto. }
  destruct hyperlinks as [|hl rest] eqn:Hhl; cbn [nonempty].
  - exists []. split; [by rewrite with_issues_nil|].
    split_and!; try done; exact Hun.
  - destruct (filter (λ hl, hyperlink_broken hl = true) (hl :: rest))
      as [|b bs] eqn:Hb.
    + eexists. split; [reflexivity|]. split_and!; try done; exact Hun.
    + eexists. split; [reflexivity|]. split_and!; try done; try exact Hun.
      intros _. eexists. reflexivity.
Qed.

(** X9.  [_check_content_controls] records the number of structured
    document tags below the root.  If some of them are locked there is
    one warning that counts the locked ones; otherwise, if there is any,
    one information that counts them all; without any, no issue. *)
Theorem content_controls_reported (root : Element) (d : DocxDiagnostic) :
  let sdt_elements := findall root (qname (NS "w") "sdt") in
  let locked := filter (λ sdt, sdt_locked sdt = true) sdt_elements in
  ∃ new,
    _check_content_controls root d
    = (with_issues new
         (with_stat "content_controls" (VInt (Z.of_nat (length sdt_elements))) d),
       Return tt)
    ∧ (sdt_elements = [] → new = [])
    ∧ (sdt_elements ≠ [] → locked = [] →
       new = [mkIssue INFO "Content Controls"
                ("Document contains " +:+ pretty (length sdt_elements)
                   +:+ " content control(s)") None None None])
    ∧ (locked ≠ [] →
       ∃ sug, new = [mkIssue WARNING "Content Controls"
                       ("Document contains " +:+ pretty (length locked)
                          +:+ " locked content control(s)")
                       None None sug]).
Proof.
  cbv zeta. unfold _check_content_controls. run_py.
  destruct (findall root (qname (NS "w") "sdt")) as [|sdt rest] eqn:Hsdt;
    cbn [nonempty].
  - exists []. split; [by rewrite with_issues_nil|]. split_and!; done.
  - destruct (filter (λ sdt, sdt_locked sdt = true) (sdt :: rest))
      as [|b bs] eqn:Hb.
    + eexists. split; [reflexivity|]. split_and!; done.
    + eexists. split; [reflexivity|]. split_and!; try done.
      intros _. eexists. reflexivity.
Qed.

(** X10.  [_check_field_codes] reports when the document has a field
    character or a field instruction, but the statistic and the message
    count the field characters only: a document with instructions and no
    field character is reported as containing 0 field codes.  The types
    listed are those of the instructions, or Unknown when no instruction
    has a known type. *)
Theorem field_codes_counted (rt : Runtime) (root : Element) (d : DocxDiagnostic) :
  let field_chars := findall root (qname (NS "w") "fldChar") in
  let instr_texts := findall root (qname (NS "w") "instrText") in
  let types := set_list rt (omap (field_type rt) instr_texts) in
  ∃ new,
    _check_field_codes rt root d
    = (with_issues new
         (with_stat "field_codes" (VInt (Z.of_nat (length field_chars))) d),
       Return tt)
    ∧ (new = [] ↔ field_chars = [] ∧ instr_texts = [])
    ∧ (length new ≤ 1)%nat
    ∧ (∀ i, i ∈ new →
         severity i = INFO ∧ category i = "Field Codes"
         ∧ message i = "Document contains " +:+ pretty (length field_chars)
                         +:+ " field code(s)"
         ∧ location i
           = Some ("Types found: " +:+
                     match types with
                     | [] => "Unknown"
                     | _ :: _ => Str.join ", " types
                     end)).
Proof.
  cbv zeta. unfold _check_field_codes. run_py.
  destruct (findall root (qname (NS "w") "fldChar")) as [|fc fcs] eqn:Hfc;
    destruct (findall root (qname (NS "w") "instrText")) as [|it its] eqn:Hit;
    cbn [nonempty orb];
    [ exists []; split; [by rewrite with_issues_nil|];
      split; [done|]; split; [cbn; lia|]; intros i Hi; inversion Hi
    | .. ];
    (eexists; split; [reflexivity|]; split; [split; [done | intros [? ?]; done]|];
     split; [cbn; lia|]; intros i Hi; apply list_elem_of_singleton in Hi; subst i;
     cbn [severity category message location];
     split; [done|]; split; [done|]; split; [done|];
     by destruct (set_list rt _)).
Qed.

(** ** Namespaces *)

Lemma collect_namespaces_spec (elems : list Element) (acc : list string) :
  match collect_namespaces elems acc with
  | inr result =>
      (NoDup acc → NoDup result)
      ∧ (∀ ns, ns ∈ result ↔
           ns ∈ acc ∨ ∃ e, e ∈ elems ∧ tag_namespace (tag e) = Some ns)
      ∧ Forall (λ e, ¬ unclosed_tag (tag e)) elems
  | inl e =>
      e = mkExn OtherException "substring not found"
      ∧ Exists (λ e, unclosed_tag (tag e)) elems
  end.
Proof.
  revert acc. induction elems as [|elem elems IH]; intros acc;
    cbn [collect_namespaces].
  - split; [done|]. split; [|constructor].
    intros ns. split; [by left|]. intros [H|(e & He & _)]; [done | inversion He].
  - destruct (Str.startswith (tag elem) "{") eqn:Hopen.
    + destruct (Str.index "}" (tag elem)) as [idx|] eqn:Hidx.
      * set (ns0 := slice (tag elem) 1 idx).
        set (acc' := if str_in ns0 acc then acc else acc ++ [ns0]).
        assert (Hacc : ∀ ns, ns ∈ acc' ↔ ns ∈ acc ∨ ns = ns0).
        { intros ns. unfold acc', str_in. case_bool_decide.
          - split; [by left|]. intros [H' | ->]; done.
          - rewrite elem_of_app, list_elem_of_singleton. done. }
        assert (Hnd : NoDup acc → NoDup acc').
        { intros Hnd. unfold acc', str_in. case_bool_decide; [done|].
          apply NoDup_app. split; [done|]. split; [|apply NoDup_singleton].
          intros x Hx Hx'. apply list_elem_of_singleton in Hx'. by subst x. }
        assert (Hns : tag_namespace (tag elem) = Some ns0).
        { unfold tag_namespace. by rewrite Hopen, Hidx. }
        specialize (IH acc').
        destruct (collect_namespaces elems acc') as [e|result].
        -- destruct IH as [-> Hex]. split; [done|]. by apply Exists_cons_tl.
        -- destruct IH as (Hnd' & Hmem & Hall). split; [auto|]. split.
           ++ intros ns. rewrite Hmem, Hacc. split.
              ** intros [[H | ->]|(e & He & Hn)]; [by left | |].
                 --- right. exists elem. split; [apply list_elem_of_here | done].
                 --- right. exists e. split; [by apply list_elem_of_further | done].
              ** intros [H|(e & He & Hn)]; [by left; left|].
                 apply elem_of_cons in He as [-> | He].
                 --- left. right. congruence.
                 --- right. by exists e.
           ++ constructor; [|done]. intros [_ Hno]. congruence.
      * split; [done|]. apply Exists_cons_hd. by split.
    + specialize (IH acc).
      assert (Hns : tag_namespace (tag elem) = None).
      { unfold tag_namespace. by rewrite Hopen. }
      destruct (collect_namespaces elems acc) as [e|result].
      * destruct IH as [-> Hex]. split; [done|]. by apply Exists_cons_tl.
      * destruct IH as (Hnd' & Hmem & Hall). split; [done|]. split.
        -- intros ns. rewrite Hmem. split.
           ++ intros [H|(e & He & Hn)]; [by left|].
              right. exists e. split; [by apply list_elem_of_further | done].
           ++ intros [H|(e & He & Hn)]; [by left|].
              apply elem_of_cons in He as [-> | He]; [congruence|].
              right. by exists e.
        -- constructor; [|done]. intros [Ho _]. congruence.
Qed.

(** X11.  [_check_namespaces] raises, and changes nothing, exactly when
    some element of the tree has a tag that opens a brace and never closes
    it.  Otherwise it collects the namespaces of the tags of the root and
    of every element below it, each once, keeps those that are neither
    empty nor among [NAMESPACES], and records one information issue that
    counts them when there is at least one; the location lists the first
    three, followed by an ellipsis when there are more. *)
Theorem namespaces_reported (root : Element) (d : DocxDiagnostic) :
  (Exists (λ e, unclosed_tag (tag e)) (iter root) →
   _check_namespaces root d
   = (d, Raise (mkExn OtherException "substring not found")))
  ∧ (Forall (λ e, ¬ unclosed_tag (tag e)) (iter root) →
     ∃ custom,
       NoDup custom
       ∧ (∀ ns, ns ∈ custom ↔
            is_custom_namespace ns
            ∧ ∃ e, e ∈ iter root ∧ tag_namespace (tag e) = Some ns)
       ∧ _check_namespaces root d
         = (with_issues
              match custom with
              | [] => []
              | _ :: _ =>
                  [mkIssue INFO "Custom Namespaces"
                     ("Document contains " +:+ pretty (length custom)
                        +:+ " custom namespace(s)")
                     (Some (Str.join ", " (take 3 custom)
                              +:+ (if (3 <? length custom)%nat then "..."
                                   else EmptyString)))
                     None
                     (Some "Custom namespaces may indicate third-party extensions that could cause issues.")]
              end d,
            Return tt)).
Proof.
  pose proof (collect_namespaces_spec (iter root) []) as Hspec.
  unfold _check_namespaces. run_py.
  destruct (collect_namespaces (iter root) []) as [e|namespaces].
  - destruct Hspec as [-> Hex]. split; [done|].
    intros Hall. exfalso. apply Exists_exists in Hex as (x & Hx & Hbad).
    rewrite Forall_forall in Hall. by apply (Hall x).
  - destruct Hspec as (Hnd & Hmem & Hall). split.
    { intros Hex. exfalso. apply Exists_exists in Hex as (x & Hx & Hbad).
      rewrite Forall_forall in Hall. by apply (Hall x). }
    intros _.
    set (custom := filter _ namespaces).
    exists custom. split; [apply NoDup_filter, Hnd, NoDup_nil_2|]. split.
    + intros ns. unfold custom. rewrite list_elem_of_filter, Hmem.
      unfold is_custom_namespace, Str.truthy, str_in.
      rewrite andb_true_iff, !negb_true_iff, bool_decide_eq_false.
      rewrite String.eqb_neq. split.
      * intros [Hc [H|H]]; [inversion H | done].
      * intros [Hc H]. split; [done | by right].
    + destruct custom; cbn [nonempty]; [by rewrite with_issues_nil | done].
Qed.

(** ** The character scan *)

Lemma scan_from_positions (text : list Z) (i : nat) (rest : list Z) :
  drop i text = rest →
  scan_from text i rest
  = map (invalid_char_at text)
        (filter (λ j, in_invalid_range <$> text !! j = Some true)
                (seq i (length rest))).
Proof.
  revert i. induction rest as [|code rest IH]; intros i Hdrop; [done|].
  assert (Hi : text !! i = Some code).
  { pose proof (lookup_drop text i 0) as H. rewrite Hdrop in H.
    rewrite Nat.add_0_r in H. by rewrite <- H. }
  assert (Hrest : drop (S i) text = rest).
  { pose proof (drop_drop text 1 i) as H. rewrite Hdrop in H.
    rewrite Nat.add_1_r in H. by rewrite <- H. }
  cbn [scan_from length seq]. rewrite filter_cons, (IH (S i) Hrest).
  rewrite Hi. cbn [fmap option_fmap option_map].
  destruct (in_invalid_range code) eqn:Hcode.
  - rewrite decide_True by done. cbn [app map].
    unfold invalid_char_at at 2. by rewrite Hi.
  - rewrite decide_False by (intros [=]). done.
Qed.

Lemma scan_from_length (text : list Z) (i : nat) (rest : list Z) :
  length (scan_from text i rest)
  = length (filter (λ c, in_invalid_range c = true) rest).
Proof.
  revert i. induction rest as [|code rest IH]; intros i; [done|].
  cbn [scan_from]. rewrite filter_cons, length_app, IH.
  destruct (in_invalid_range code).
  - by rewrite decide_True by done.
  - by rewrite decide_False by done.
Qed.

(** X12.  The scan of the decoded text finds exactly the code points that
    lie in one of the invalid ranges: its entries are those offsets, in
    increasing order, each once, so there are as many entries as invalid
    code points; an entry carries the offset, the code point in
    hexadecimal, the number of line feeds before the offset plus one as
    its line, and the window of text around the offset. *)
Theorem scan_finds_exactly_the_invalid (text : list Z) :
  map ic_position (scan_invalid text)
  = filter (λ j, in_invalid_range <$> text !! j = Some true)
           (seq 0 (length text))
  ∧ length (scan_invalid text)
    = length (filter (λ c, in_invalid_range c = true) text)
  ∧ Forall (λ item,
              ∃ code, text !! ic_position item = Some code
                      ∧ in_invalid_range code = true
                      ∧ ic_char item = Str.hex code
                      ∧ ic_line item
                        = S (length (filter (λ c : Z, c = 10)
                                            (take (ic_position item) text)))
                      ∧ ic_context item = context_at text (ic_position item))
           (scan_invalid text).
Proof.
  unfold scan_invalid. split; [|split; [apply scan_from_length|]].
  - rewrite (scan_from_positions text 0 text) by done.
    rewrite map_map. cbn [invalid_char_at ic_position]. apply map_id.
  - rewrite (scan_from_positions text 0 text) by done.
    apply Forall_forall. intros item Hin.
    apply list_elem_of_fmap in Hin as (j & -> & Hj).
    apply list_elem_of_filter in Hj as [Hj _].
    destruct (text !! j) as [code|] eqn:Hcode; [|discriminate].
    exists code. cbn [invalid_char_at ic_position ic_char ic_line ic_context].
    rewrite Hcode. cbn in Hj |- *. unfold line_at. rewrite Nat.add_1_r.
    split_and!; try done. congruence.
Qed.

(** X13.  [_check_invalid_characters] leaves the issue list as it was
    exactly when the content decodes as UTF-8 and none of its code points
    lies in an invalid range. *)
Theorem clean_content_adds_no_issue
    (content : list byte) (filename : string) (d : DocxDiagnostic) :
  issues (fst (_check_invalid_characters content filename d)) = issues d
  ↔ ∃ text, utf8_decode content = Decoded text
            ∧ Forall (λ c, in_invalid_range c = false) text.
Proof.
  rewrite run_check_invalid_characters. cbn [fst with_issues issues].
  unfold character_issues, detail_issues. split.
  - intros H. rewrite <- (app_nil_r (issues d)) in H at 2.
    apply app_inv_head in H.
    destruct (utf8_decode content) as [text|start]; [|discriminate].
    exists text. split; [done|].
    destruct (scan_invalid text) as [|first rest] eqn:Hscan; [|discriminate].
    pose proof (scan_from_length text 0 text) as Hlen.
    fold (scan_invalid text) in Hlen. rewrite Hscan in Hlen.
    apply Forall_forall. intros c Hc.
    destruct (in_invalid_range c) eqn:Hinv; [|done].
    assert (Hin : c ∈ filter (λ c, in_invalid_range c = true) text)
      by (by apply list_elem_of_filter).
    destruct (filter (λ c, in_invalid_range c = true) text);
      [inversion Hin | discriminate].
  - intros (text & -> & Hclean).
    pose proof (scan_from_length text 0 text) as Hlen.
    fold (scan_invalid text) in Hlen.
    assert (Hnone : filter (λ c, in_invalid_range c = true) text = []).
    { clear Hlen. induction Hclean as [|c l Hc _ IH]; [done|].
      rewrite filter_cons, decide_False by congruence. done. }
    rewrite Hnone in Hlen. destruct (scan_invalid text); [|discriminate].
    cbn. destruct (verbose d); cbn; by rewrite app_nil_r.
Qed.

(** ** The per-character counts *)

Lemma count_of_incr (k k' : string) (counts : list (string * nat)) :
  count_of k (count_incr k' counts)
  = (if decide (k = k') then S (count_of k counts) else count_of k counts).
Proof.
  unfold count_of. induction counts as [|[k0 n] counts IH]; cbn.
  - destruct (String.eqb_spec k' k); case_decide; cbn [snd]; congruence.
  - destruct (String.eqb_spec k0 k') as [->|Hk0]; cbn.
    + destruct (String.eqb_spec k' k); case_decide; cbn [snd]; congruence.
    + destruct (String.eqb_spec k0 k) as [->|Hk]; [|exact IH].
      by rewrite decide_False by congruence.
Qed.

Lemma count_incr_keys (k : string) (counts : list (string * nat)) :
  map fst (count_incr k counts)
  = (if decide (k ∈ map fst counts) then map fst counts
     else map fst counts ++ [k]).
Proof.
  induction counts as [|[k0 n] counts IH]; cbn.
  - by rewrite decide_False by (intros H; inversion H).
  - destruct (String.eqb_spec k0 k) as [->|Hk0]; cbn.
    + by rewrite decide_True by apply list_elem_of_here.
    + rewrite IH. case_decide as Hin.
      * by rewrite decide_True by (by apply list_elem_of_further).
      * rewrite decide_False; [done|].
        intros H. apply elem_of_cons in H as [-> | H]; done.
Qed.

Lemma count_incr_sum (k : string) (counts : list (string * nat)) :
  sum_list (map snd (count_incr k counts)) = S (sum_list (map snd counts)).
Proof.
  induction counts as [|[k0 n] counts IH]; cbn; [done|].
  destruct (String.eqb_spec k0 k); cbn; [done|]. rewrite IH. lia.
Qed.

Lemma count_of_elem (k : string) (n : nat) (counts : list (string * nat)) :
  NoDup (map fst counts) → (k, n) ∈ counts → count_of k counts = n.
Proof.
  unfold count_of. induction counts as [|[k0 n0] counts IH]; cbn.
  - intros _ H. inversion H.
  - intros Hnd Hin. apply NoDup_cons in Hnd as [Hk0 Hnd].
    apply elem_of_cons in Hin as [[= -> ->] | Hin].
    + by rewrite String.eqb_refl.
    + destruct (String.eqb_spec k0 k) as [->|Hk]; [|by apply IH].
      exfalso. apply Hk0. apply list_elem_of_fmap. by exists (k, n).
Qed.

Lemma char_counts_fold (found : list InvalidChar) (acc : list (string * nat)) :
  let counts := fold_left (λ acc item, count_incr (ic_char item) acc) found acc in
  (NoDup (map fst acc) → NoDup (map fst counts))
  ∧ (∀ k, count_of k counts
          = (count_of k acc + length (filter (λ item, ic_char item = k) found))%nat)
  ∧ (∀ k, k ∈ map fst counts ↔
          k ∈ map fst acc ∨ ∃ item, item ∈ found ∧ ic_char item = k)
  ∧ sum_list (map snd counts) = (sum_list (map snd acc) + length found)%nat.
Proof.
  cbv zeta. revert acc. induction found as [|item found IH]; intros acc;
    cbn [fold_left].
  - split; [done|]. split; [intros k; cbn; lia|]. split; [|cbn; lia].
    intros k. split; [by left|]. intros [H|(item & H & _)]; [done | inversion H].
  - destruct (IH (count_incr (ic_char item) acc)) as (Hnd & Hcount & Hkeys & Hsum).
    split; [|split; [|split]].
    + intros Hacc. apply Hnd. rewrite count_incr_keys. case_decide; [done|].
      apply NoDup_app. split; [done|]. split; [|apply NoDup_singleton].
      intros x Hx Hx'. apply list_elem_of_singleton in Hx'. by subst x.
    + intros k. rewrite Hcount, count_of_incr, filter_cons.
      destruct (decide (k = ic_char item)) as [->|Hk].
      * rewrite decide_True by done. cbn. lia.
      * rewrite decide_False by congruence. done.
    + intros k. rewrite Hkeys, count_incr_keys. split.
      * intros [H|(item' & Hin & Hc)].
        -- case_decide; [by left|].
           apply elem_of_app in H as [H|H]; [by left|].
           apply list_elem_of_singleton in H. subst k.
           right. exists item. split; [apply list_elem_of_here | done].
        -- right. exists item'. split; [by apply list_elem_of_further | done].
      * intros [H|(item' & Hin & Hc)].
        -- left. case_decide; [done|]. apply elem_of_app. by left.
        -- apply elem_of_cons in Hin as [-> | Hin].
           ++ left. subst k. case_decide; [done|].
              apply elem_of_app. right. apply list_elem_of_here.
           ++ right. by exists item'.
    + rewrite Hsum, count_incr_sum. cbn. lia.
Qed.

(** X14.  The per-character counts that the Invalid Characters issue
    lists are consistent with the scan: every character found has one
    entry, no character has two, the count of an entry is the number of
    occurrences found of that character, which is at least one, and the
    counts add up to the total of the message. *)
Theorem char_counts_consistent (found : list InvalidChar) :
  NoDup (map fst (char_counts found))
  ∧ (∀ k, k ∈ map fst (char_counts found) ↔
          ∃ item, item ∈ found ∧ ic_char item = k)
  ∧ (∀ k n, (k, n) ∈ char_counts found →
            n = length (filter (λ item, ic_char item = k) found)
            ∧ (0 < n)%nat)
  ∧ sum_list (map snd (char_counts found)) = length found.
Proof.
  destruct (char_counts_fold found []) as (Hnd & Hcount & Hkeys & Hsum).
  fold (char_counts found) in *.
  specialize (Hnd (NoDup_nil_2 (A:=string))).
  split; [done|]. split; [|split; [|by rewrite Hsum]].
  - intros k. rewrite Hkeys. split; [|by right].
    intros [H|H]; [inversion H | done].
  - intros k n Hin.
    assert (Hn : n = length (filter (λ item, ic_char item = k) found)).
    { rewrite <- (count_of_elem k n _ Hnd Hin), Hcount. done. }
    split; [done|].
    assert (Hk : k ∈ map fst (char_counts found))
      by (apply list_elem_of_fmap; by exists (k, n)).
    apply Hkeys in Hk as [Hk|(item & Hitem & Hc)]; [inversion Hk|].
    assert (Hf : item ∈ filter (λ item, ic_char item = k) found)
      by (by apply list_elem_of_filter).
    rewrite Hn. destruct (filter _ found); [inversion Hf | cbn; lia].
Qed.

(** ** The relationships part *)

(** X15.  With the archive open, a relationships part that cannot be
    used is reported once and is never fatal to the check: when the
    archive does not list the part there is one warning; when reading the
    part or parsing it raises, there is one issue made from the exception,
    an error for a parse error and a warning for anything else.  In each
    case the check returns and records no statistic. *)
Theorem relationships_failures_reported (rt : Runtime) (zf : ZipFile)
    (d : DocxDiagnostic) :
  zip_file d = Some zf →
  (rels_path ∉ namelist zf →
   _check_relationships rt d
   = (with_issue (mkIssue WARNING "Relationships"
                    "Document relationships file not found"
                    (Some rels_path) None None) d,
      Return tt))
  ∧ (∀ e, rels_path ∈ namelist zf →
          read_member (filelist zf) rels_path = inl e →
          _check_relationships rt d = (with_issue (relationships_issue e) d, Return tt))
  ∧ (∀ content e, rels_path ∈ namelist zf →
          read_member (filelist zf) rels_path = inr content →
          ET_fromstring rt content = XmlRaises e →
          _check_relationships rt d = (with_issue (relationships_issue e) d, Return tt)).
Proof.
  intros Hzip. unfold _check_relationships, relationships_issue, str_in.
  run_py. rewrite Hzip. split; [|split].
  - intros Hno. by rewrite bool_decide_eq_false_2.
  - intros e Hin Hread. rewrite bool_decide_eq_true_2 by done. cbn [negb].
    rewrite Hread. by case_bool_decide.
  - intros content e Hin Hread Hparse. rewrite bool_decide_eq_true_2 by done.
    cbn [negb]. rewrite Hread, Hparse. cbn [xml_result]. by case_bool_decide.
Qed.

Lemma relationships_failures_witness :
  _check_relationships revised_runtime (opened "a.docx" false revised_archive)
  = (with_issue (mkIssue WARNING "Relationships"
                   "Document relationships file not found"
                   (Some rels_path) None None)
       (opened "a.docx" false revised_archive),
     Return tt).
Proof.
  refine (proj1 (relationships_failures_reported revised_runtime
                   (mkZipFile revised_archive true)
                   (opened "a.docx" false revised_archive) _) _).
  - reflexivity.
  - intros H. repeat (apply elem_of_cons in H as [H|H]; [discriminate|]).
    inversion H.
Defined.

Lemma filter_disjoint_length {A} (P Q : A → Prop)
    `{!∀ x, Decision (P x)} `{!∀ x, Decision (Q x)} (l : list A) :
  (∀ x, P x → Q x → False) →
  (length (filter P l) + length (filter Q l) ≤ length l)%nat.
Proof.
  intros Hdis. induction l as [|x l IH]; [done|].
  rewrite !filter_cons. repeat case_decide; cbn; try lia.
  exfalso. by apply (Hdis x).
Qed.

(** X16.  When the relationships part is read and parsed, the check
    records the number of relationship entries, one Broken References
    warning when some entry is broken and one External References
    information when some entry is external, in that order, and nothing
    else.  An entry is counted at most once, as broken or as external,
    and the external-references statistic is written only when there is
    an external entry. *)
Theorem relationships_counted (rt : Runtime) (zf : ZipFile) (d : DocxDiagnostic)
    (content : list byte) (root : Element) :
  zip_file d = Some zf →
  rels_path ∈ namelist zf →
  read_member (filelist zf) rels_path = inr content →
  ET_fromstring rt content = XmlTree root →
  let rels := findall root rel_tag in
  let broken := fst (scan_relationships rt (namelist zf) rels) in
  let external := snd (scan_relationships rt (namelist zf) rels) in
  let d' := fst (_check_relationships rt d) in
  snd (_check_relationships rt d) = Return tt
  ∧ stats d' !! "relationships" = Some (VInt (Z.of_nat (length rels)))
  ∧ stats d' !! "external_refs"
    = (if nonempty external then Some (VInt (Z.of_nat (length external)))
       else stats d !! "external_refs")
  ∧ (length broken + length external ≤ length rels)%nat
  ∧ map (λ i, (severity i, category i, message i)) (drop (length (issues d)) (issues d'))
    = (if nonempty broken
       then [(WARNING, "Broken References",
              "Found " +:+ pretty (length broken) +:+ " broken internal reference(s)")]
       else [])
      ++ (if nonempty external
          then [(INFO, "External References",
                 "Document contains " +:+ pretty (length external)
                   +:+ " external reference(s) (URLs)")]
          else []).
Proof.
  intros Hzip Hin Hread Hparse. cbv zeta.
  assert (Hlen : (length (fst (scan_relationships rt (namelist zf) (findall root rel_tag)))
                  + length (snd (scan_relationships rt (namelist zf) (findall root rel_tag)))
                  ≤ length (findall root rel_tag))%nat).
  { unfold scan_relationships. rewrite scan_relationships_acc.
    cbn [fst snd app]. rewrite !length_map.
    apply filter_disjoint_length. intros rel Hu He. unfold unresolved in Hu.
    rewrite He in Hu. discriminate. }
  revert Hlen.
  unfold _check_relationships, str_in. run_py. rewrite Hzip.
  rewrite bool_decide_eq_true_2 by done. cbn [negb].
  rewrite Hread, Hparse. cbn [xml_result].
  change (qname "http://schemas.openxmlformats.org/package/2006/relationships"
                "Relationship") with rel_tag.
  destruct (scan_relationships rt (namelist zf) (findall root rel_tag))
    as [broken external].
  intros Hlen.
  destruct broken as [|b bs], external as [|x xs];
    cbn [nonempty fst snd issues stats];
    rewrite <- ?app_assoc, ?drop_app_length, ?drop_all;
    split_and!; try done; by simplify_map_eq.
Qed.

Lemma relationships_counted_witness :
  let d := opened "a.docx" false linked_archive in
  stats (fst (_check_relationships linked_runtime d)) !! "relationships"
  = Some (VInt 2)
  ∧ map (λ i, (severity i, category i, message i))
        (issues (fst (_check_relationships linked_runtime d)))
    = [ (WARNING, "Broken References", "Found 1 broken internal reference(s)");
        (INFO, "External References",
         "Document contains 1 external reference(s) (URLs)") ].
Proof.
  cbv zeta.
  destruct (relationships_counted linked_runtime (mkZipFile linked_archive true)
              (opened "a.docx" false linked_archive)
              linked_rels_bytes linked_rels) as (_ & Hstat & _ & _ & Hissues).
  - reflexivity.
  - unfold namelist, rels_path. cbn.
    repeat first [apply list_elem_of_here | apply list_elem_of_further].
  - reflexivity.
  - vm_compute. reflexivity.
  - split; [exact Hstat | exact Hissues].
Defined.

(** ** Embedded objects and media *)

Lemma prefix_cons_inv (c : ascii) (p s : string) :
  String.prefix (String c p) s = true →
  ∃ s', s = String c s' ∧ String.prefix p s' = true.
Proof.
  destruct s as [|c' s']; cbn; [discriminate|].
  destruct (ascii_dec c c') as [->|]; [|discriminate].
  intros H. by exists s'.
Qed.

Lemma embedding_is_no_media (f : string) :
  Str.startswith f "word/embeddings/" = true →
  Str.startswith f "word/media/" = true → False.
Proof.
  unfold Str.startswith. intros He Hm.
  repeat (apply prefix_cons_inv in He as (? & -> & He);
          apply prefix_cons_inv in Hm as (? & [= <-] & Hm)).
Qed.

Lemma filter_complement_length {A} (f : A → bool) (l : list A) :
  (length (filter (λ x, f x = true) l) + length (filter (λ x, f x = false) l)
   = length l)%nat.
Proof.
  induction l as [|x l IH]; [done|]. rewrite !filter_cons.
  destruct (f x); repeat case_decide; try done; cbn; lia.
Qed.

(** X17.  With the archive open, [_check_embedded_objects] records the
    number of names under [word/embeddings/] and the number of names
    under [word/media/], whether or not there are any.  No name is counted
    in both.  The warning for embedded objects splits their number into
    those that end in [.bin] and the others, and the two numbers add up
    to it; the information for media files follows it. *)
Theorem embedded_objects_counted (zf : ZipFile) (d : DocxDiagnostic) :
  zip_file d = Some zf →
  let names := namelist zf in
  let embeddings := filter (λ f, Str.startswith f "word/embeddings/" = true) names in
  let media := filter (λ f, Str.startswith f "word/media/" = true) names in
  let ole := filter (λ f, Str.endswith f ".bin" = true) embeddings in
  let other := filter (λ f, Str.endswith f ".bin" = false) embeddings in
  let d' := fst (_check_embedded_objects d) in
  snd (_check_embedded_objects d) = Return tt
  ∧ stats d' !! "embedded_objects" = Some (VInt (Z.of_nat (length embeddings)))
  ∧ stats d' !! "media_files" = Some (VInt (Z.of_nat (length media)))
  ∧ (length ole + length other = length embeddings)%nat
  ∧ (length embeddings + length media ≤ length names)%nat
  ∧ map (λ i, (severity i, category i, message i, location i))
        (drop (length (issues d)) (issues d'))
    = (if nonempty embeddings
       then [(WARNING, "Embedded Objects",
              "Document contains " +:+ pretty (length embeddings)
                +:+ " embedded object(s)",
              Some ("OLE objects: " +:+ pretty (length ole)
                      +:+ ", Other: " +:+ pretty (length other)))]
       else [])
      ++ (if nonempty media
          then [(INFO, "Media Files",
                 "Document contains " +:+ pretty (length media)
                   +:+ " media file(s) (images, etc.)",
                 None)]
          else []).
Proof.
  intros Hzip. cbv zeta. unfold _check_embedded_objects. run_py. rewrite Hzip.
  pose proof (filter_complement_length (λ f, Str.endswith f ".bin")
                (filter (λ f, Str.startswith f "word/embeddings/" = true)
                        (namelist zf))) as Hsplit.
  pose proof (filter_disjoint_length
                (λ f, Str.startswith f "word/embeddings/" = true)
                (λ f, Str.startswith f "word/media/" = true)
                (namelist zf) embedding_is_no_media) as Hdis.
  destruct (filter (λ f, Str.startswith f "word/embeddings/" = true) (namelist zf))
    as [|e es];
    destruct (filter (λ f, Str.startswith f "word/media/" = true) (namelist zf))
      as [|m ms];
    cbn [nonempty fst snd issues stats];
    rewrite <- ?app_assoc, ?drop_app_length, ?drop_all;
    split_and!; try done; by simplify_map_eq.
Qed.

Lemma embedded_objects_witness :
  let d := opened "a.docx" false linked_archive in
  map (λ i, (severity i, category i, message i, location i))
      (issues (fst (_check_embedded_objects d)))
  = [ (WARNING, "Embedded Objects", "Document contains 2 embedded object(s)",
       Some "OLE objects: 1, Other: 1");
      (INFO, "Media Files", "Document contains 1 media file(s) (images, etc.)",
       None) ].
Proof.
  cbv zeta.
  destruct (embedded_objects_counted (mkZipFile linked_archive true)
              (opened "a.docx" false linked_archive))
    as (_ & _ & _ & _ & _ & Hissues).
  - reflexivity.
  - exact Hissues.
Defined.

(** ** The summary *)

Lemma count_severity_partition (l : list Issue) :
  (count_severity ERROR l + count_severity WARNING l + count_severity INFO l
   = length l)%nat.
Proof.
  unfold count_severity. induction l as [|i l IH]; [done|].
  rewrite !filter_cons. destruct (severity i); repeat case_decide; try done;
    cbn; lia.
Qed.

Lemma count_severity_Permutation (sev : Severity) (l1 l2 : list Issue) :
  l1 ≡ₚ l2 → count_severity sev l1 = count_severity sev l2.
Proof. intros H. unfold count_severity. by rewrite H. Qed.

(** X18.  The three counts of the summary add up to the number of
    issues, which is also the number of entries of its issue list; and
    the counts and the status do not depend on the order in which the
    issues were recorded. *)
Theorem summary_counts_add_up (d : DocxDiagnostic) :
  (sm_errors (get_summary d) + sm_warnings (get_summary d) + sm_info (get_summary d)
   = length (issues d))%nat
  ∧ length (sm_issues (get_summary d)) = length (issues d)
  ∧ (∀ d', issues d' ≡ₚ issues d →
           sm_errors (get_summary d') = sm_errors (get_summary d)
           ∧ sm_warnings (get_summary d') = sm_warnings (get_summary d)
           ∧ sm_info (get_summary d') = sm_info (get_summary d)
           ∧ sm_status (get_summary d') = sm_status (get_summary d)).
Proof.
  unfold get_summary.
  cbn [sm_errors sm_warnings sm_info sm_issues sm_status].
  split; [apply count_severity_partition|]. split; [apply length_map|].
  intros d' Hperm.
  rewrite (count_severity_Permutation ERROR _ _ Hperm).
  rewrite (count_severity_Permutation WARNING _ _ Hperm).
  rewrite (count_severity_Permutation INFO _ _ Hperm).
  done.
Qed.

(** ** The dictionary of an issue *)

Lemma severity_name_inj (s1 s2 : Severity) :
  severity_name s1 = severity_name s2 → s1 = s2.
Proof. destruct s1, s2; cbn; intros H; try done; discriminate. Qed.

Lemma truthy_opt_cases (o : option string) :
  truthy_opt o = false ∨ ∃ c s, o = Some (String c s).
Proof. destruct o as [[|c s]|]; cbn; eauto. Qed.

(** X19.  The dictionary of an issue always has the keys severity,
    category and message, in that order, followed by those of location,
    context and suggestion whose value is neither None nor empty; no key
    occurs twice.  Two issues have the same dictionary exactly when they
    agree on the first three fields and on each optional field up to the
    difference between None and the empty string. *)
Theorem to_dict_keeps_nonempty_fields (i : Issue) :
  let shown (o : option string) := if truthy_opt o then o else None in
  map fst (to_dict i)
  = ["severity"; "category"; "message"]
    ++ (if truthy_opt (location i) then ["location"] else [])
    ++ (if truthy_opt (context i) then ["context"] else [])
    ++ (if truthy_opt (suggestion i) then ["suggestion"] else [])
  ∧ NoDup (map fst (to_dict i))
  ∧ (∀ i', to_dict i = to_dict i' ↔
           severity i = severity i' ∧ category i = category i'
           ∧ message i = message i'
           ∧ shown (location i) = shown (location i')
           ∧ shown (context i) = shown (context i')
           ∧ shown (suggestion i) = shown (suggestion i')).
Proof.
  cbv zeta. unfold to_dict. split; [|split].
  - rewrite !map_app. by repeat case_match.
  - rewrite !map_app. repeat case_match; cbn; apply (bool_decide_unpack _); by vm_compute.
  - intros i'.
    destruct i as [s c m lo cx su], i' as [s' c' m' lo' cx' su'].
    cbn [severity category message location context suggestion].
    destruct (truthy_opt_cases lo) as [Hlo|(? & ? & ->)],
             (truthy_opt_cases cx) as [Hcx|(? & ? & ->)],
             (truthy_opt_cases su) as [Hsu|(? & ? & ->)],
             (truthy_opt_cases lo') as [Hlo'|(? & ? & ->)],
             (truthy_opt_cases cx') as [Hcx'|(? & ? & ->)],
             (truthy_opt_cases su') as [Hsu'|(? & ? & ->)];
      rewrite ?Hlo, ?Hcx, ?Hsu, ?Hlo', ?Hcx', ?Hsu'; cbn;
      (split; [intros [= Hs <- <-]; apply severity_name_inj in Hs; by subst
              | intros (-> & -> & -> & H1 & H2 & H3); by simplify_eq]).
Qed.

(** ** Categories and statistics of a report *)

Section Confined.

Context (cats keys : list string).

Lemma confined_ret {A} (a : A) : confined cats keys (ret a).
Proof.
  intros d. split; [|done]. exists []. cbn. by rewrite app_nil_r.
Qed.

Lemma confined_bind {A B} (m : Py A) (k : A → Py B) :
  confined cats keys m → (∀ a, confined cats keys (k a)) →
  confined cats keys (bind m k).
Proof.
  intros Hm Hk d. unfold bind. destruct (Hm d) as ((new & Hi & Hc) & Hs).
  destruct (m d) as [d' [a|e]]; cbn [fst] in *; [|split; [by exists new | done]].
  destruct (Hk a d') as ((new' & Hi' & Hc') & Hs'). split.
  - exists (new ++ new'). rewrite Hi', Hi, app_assoc. split; [done|].
    by apply Forall_app.
  - intros k0 Hk0. by rewrite Hs', Hs.
Qed.

Lemma confined_try_except {A} (m : Py A) (h : PyExn → Py A) :
  confined cats keys m → (∀ e, confined cats keys (h e)) →
  confined cats keys (try_except m h).
Proof.
  intros Hm Hh d. unfold try_except. destruct (Hm d) as ((new & Hi & Hc) & Hs).
  destruct (m d) as [d' [a|e]]; cbn [fst] in *; [split; [by exists new | done]|].
  destruct (Hh e d') as ((new' & Hi' & Hc') & Hs'). split.
  - exists (new ++ new'). rewrite Hi', Hi, app_assoc. split; [done|].
    by apply Forall_app.
  - intros k0 Hk0. by rewrite Hs', Hs.
Qed.

Lemma confined_when (c : bool) (m : Py unit) :
  confined cats keys m → confined cats keys (when c m).
Proof. intros H. destruct c; [done | apply confined_ret]. Qed.

Lemma confined_for_each {A} (l : list A) (body : A → Py unit) :
  (∀ x, confined cats keys (body x)) → confined cats keys (for_each l body).
Proof.
  intros H. induction l as [|x l IH]; cbn [for_each].
  - apply confined_ret.
  - apply confined_bind; [apply H | intros _; apply IH].
Qed.

Lemma confined_lift {A} (r : PyExn + A) : confined cats keys (lift r).
Proof.
  destruct r; intros d; (split; [|done]); exists []; cbn; by rewrite app_nil_r.
Qed.

Lemma confined_add_issue (sev : Severity) (cat msg : string)
    (loc ctx sug : option string) :
  cat ∈ cats → confined cats keys (add_issue sev cat msg loc ctx sug).
Proof.
  intros Hcat d. split; [|done]. eexists. split; [reflexivity|].
  by repeat constructor.
Qed.

Lemma confined_set_stat (k : string) (v : StatValue) :
  k ∈ keys → confined cats keys (set_stat k v).
Proof.
  intros Hk d. split; [exists []; cbn; by rewrite app_nil_r|].
  intros k0 Hk0. cbn. apply lookup_insert_ne. intros ->. done.
Qed.

Lemma confined_state (f : DocxDiagnostic → option ZipFile) :
  confined cats keys
    (λ d, (mkDiag (filepath d) (verbose d) (issues d) (stats d) (f d), Return tt)).
Proof.
  intros d. split; [|done]. exists []. cbn. by rewrite app_nil_r.
Qed.

Lemma confined_read {A} (f : DocxDiagnostic → A) :
  confined cats keys (λ d, (d, Return (f d))).
Proof.
  intros d. split; [|done]. exists []. cbn. by rewrite app_nil_r.
Qed.

End Confined.

Lemma confined_mono (cats cats' keys keys' : list string) {A} (m : Py A) :
  cats ⊆ cats' → keys ⊆ keys' →
  confined cats keys m → confined cats' keys' m.
Proof.
  intros Hcats Hkeys Hm d. destruct (Hm d) as ((new & Hi & Hc) & Hs). split.
  - exists new. split; [done|]. eapply Forall_impl; [exact Hc|].
    intros i Hin. by apply Hcats.
  - intros k Hk. apply Hs. intros Hin. apply Hk. by apply Hkeys.
Qed.

Ltac solve_elem_of :=
  repeat first [apply list_elem_of_here | apply list_elem_of_further].

Ltac solve_subseteq :=
  let x := fresh "x" in
  let Hx := fresh "Hx" in
  intros x Hx;
  repeat (apply elem_of_cons in Hx as [-> | Hx]; [solve_elem_of|]);
  inversion Hx.

Ltac confined_step :=
  cbv beta zeta;
  first
    [ apply confined_ret | apply confined_lift
    | (apply confined_add_issue; solve_elem_of)
    | (apply confined_set_stat; solve_elem_of)
    | apply confined_when
    | (apply confined_for_each; intros ?)
    | (apply confined_try_except; [|intros ?])
    | (apply confined_bind; [|intros ?])
    | apply (confined_state _ _ (λ d, close <$> zip_file d))
    | apply confined_state
    | apply confined_read
    | match goal with
      | |- confined _ _ (if ?b then _ else _) => destruct b
      | |- confined _ _ (match ?x with _ => _ end) => destruct x
      | |- confined _ _ (let '(_, _) := ?x in _) => destruct x
      end ].

Lemma check_file_exists_confined (rt : Runtime) (os : OS) :
  confined ["File Access"; "File Size"] ["file_size"; "file_size_mb"]
    (_check_file_exists rt os).
Proof.
  unfold _check_file_exists, get_filepath. repeat confined_step.
Qed.

Lemma check_zip_structure_confined (os : OS) :
  confined ["ZIP Structure"] ["zip_files"] (_check_zip_structure os).
Proof.
  unfold _check_zip_structure, get_filepath, set_zip_file.
  repeat confined_step.
Qed.

Lemma check_required_files_confined :
  confined ["DOCX Structure"] [] _check_required_files.
Proof.
  unfold _check_required_files, get_zip_file. repeat confined_step.
Qed.

Lemma check_invalid_characters_confined (content : list byte) (filename : string) :
  confined ["Encoding"; "Invalid Characters"; "Invalid Character Detail"] []
    (_check_invalid_characters content filename).
Proof.
  unfold _check_invalid_characters, get_verbose. repeat confined_step.
Qed.

Lemma semantic_checks_confined (rt : Runtime) :
  Forall (λ c, ∀ root,
            confined ["Tracked Changes"; "Nested Revisions"; "Smart Tags";
                      "Content Controls"; "Field Codes"; "Equations";
                      "Hyperlinks"; "Custom Namespaces"]
                     semantic_keys (c root))
         (SEMANTIC_CHECKS rt).
Proof.
  unfold SEMANTIC_CHECKS, _check_tracked_changes, _check_smart_tags,
    _check_content_controls, _check_field_codes, _check_equations,
    _check_hyperlinks, _check_namespaces, semantic_keys.
  repeat (constructor; [intros root; repeat confined_step|]). constructor.
Qed.

Lemma run_checks_confined (cats keys : list string)
    (checks : list (Element → Py unit)) (root : Element) :
  Forall (λ c, ∀ root, confined cats keys (c root)) checks →
  confined cats keys (run_checks checks root).
Proof.
  unfold run_checks. induction 1 as [|c l Hc _ IH]; cbn [for_each].
  - apply confined_ret.
  - apply confined_bind; [apply Hc | intros _; apply IH].
Qed.

Lemma analyze_document_xml_confined (rt : Runtime) :
  confined
    ["DOCX Structure"; "Encoding"; "Invalid Characters";
     "Invalid Character Detail"; "XML Parsing"; "Analysis";
     "Tracked Changes"; "Nested Revisions"; "Smart Tags"; "Content Controls";
     "Field Codes"; "Equations"; "Hyperlinks"; "Custom Namespaces"]
    semantic_keys (_analyze_document_xml rt).
Proof.
  unfold _analyze_document_xml, analyze_document_xml_with, on_analysis_error,
    on_parse_error, get_zip_file.
  repeat first
    [ (eapply confined_mono;
       [| |apply check_invalid_characters_confined]; solve_subseteq)
    | (eapply confined_mono;
       [| |apply run_checks_confined, semantic_checks_confined]; solve_subseteq)
    | confined_step ].
Qed.

Lemma check_relationships_confined (rt : Runtime) :
  confined ["Relationships"; "Broken References"; "External References"]
    ["relationships"; "external_refs"] (_check_relationships rt).
Proof.
  unfold _check_relationships, get_zip_file. repeat confined_step.
Qed.

Lemma check_embedded_objects_confined :
  confined ["Embedded Objects"; "Media Files"]
    ["embedded_objects"; "media_files"] _check_embedded_objects.
Proof.
  unfold _check_embedded_objects, get_zip_file. repeat confined_step.
Qed.

Lemma run_all_checks_confined (rt : Runtime) (os : OS) :
  confined report_categories statistic_keys (run_all_checks rt os).
Proof.
  unfold run_all_checks, run_all_checks_with, close_zip_file, get_issues.
  repeat first
    [ (eapply confined_mono; [| |apply check_file_exists_confined];
       unfold report_categories, statistic_keys; solve_subseteq)
    | (eapply confined_mono; [| |apply check_zip_structure_confined];
       unfold report_categories, statistic_keys; solve_subseteq)
    | (eapply confined_mono; [| |apply check_required_files_confined];
       unfold report_categories, statistic_keys; solve_subseteq)
    | (eapply confined_mono; [| |apply analyze_document_xml_confined];
       unfold report_categories, statistic_keys, semantic_keys; solve_subseteq)
    | (eapply confined_mono; [| |apply check_relationships_confined];
       unfold report_categories, statistic_keys; solve_subseteq)
    | (eapply confined_mono; [| |apply check_embedded_objects_confined];
       unfold report_categories, statistic_keys; solve_subseteq)
    | confined_step ].
Qed.

(** X20.  Whatever the file is, the report of a run holds issues of the
    twenty-two categories of [report_categories] only, and statistics
    under the thirteen keys of [statistic_keys] only. *)
Theorem report_uses_known_names (rt : Runtime) (os : OS) (path : string)
    (verbose_mode : bool) :
  let d := fst (diagnose rt os path verbose_mode) in
  Forall (λ i, category i ∈ report_categories) (issues d)
  ∧ (∀ k, is_Some (stats d !! k) → k ∈ statistic_keys)
  ∧ (∀ k, k ∈ map fst (map_to_list (sm_statistics (get_summary d))) →
          k ∈ statistic_keys).
Proof.
  cbv zeta. unfold diagnose.
  destruct (run_all_checks_confined rt os (init path verbose_mode))
    as ((new & Hi & Hc) & Hs).
  assert (Hkeys : ∀ k, is_Some (stats (fst (run_all_checks rt os
                                              (init path verbose_mode))) !! k) →
                       k ∈ statistic_keys).
  { intros k Hk. destruct (decide (k ∈ statistic_keys)) as [|Hno]; [done|].
    rewrite (Hs k Hno) in Hk. cbn in Hk. rewrite lookup_empty in Hk.
    by destruct Hk. }
  split; [by rewrite Hi|]. split; [exact Hkeys|].
  intros k Hk. apply list_elem_of_fmap in Hk as ([k' v] & -> & Hkv).
  apply elem_of_map_to_list in Hkv. apply Hkeys. cbn in Hkv |- *. by exists v.
Qed.

(** ** Statistics of the element-specific checks *)

Ltac stat_check :=
  intros; run_py; repeat case_match; simplify_eq; done.

Lemma check_tracked_changes_stat (root : Element) (d : DocxDiagnostic) :
  ∃ m, stats (fst (_check_tracked_changes root d))
       = <["tracked_changes" := VDict m]> (stats d)
       ∧ m !! "total"
         = Some (Z.of_nat (length (findall root (qname (NS "w") "ins"))
                           + length (findall root (qname (NS "w") "del"))
                           + length (findall root (qname (NS "w") "pPrChange"))
                           + length (findall root (qname (NS "w") "rPrChange"))))
       ∧ snd (_check_tracked_changes root d) = Return tt.
Proof.
  unfold _check_tracked_changes. eexists. split_and!.
  - run_py. repeat case_match; simplify_eq; reflexivity.
  - by simplify_map_eq.
  - stat_check.
Qed.

Lemma check_smart_tags_stat (root : Element) (d : DocxDiagnostic) :
  stats (fst (_check_smart_tags root d))
  = <["smart_tags" := VInt (Z.of_nat (length (findall root (qname (NS "w") "smartTag"))))]>
      (stats d)
  ∧ snd (_check_smart_tags root d) = Return tt.
Proof. unfold _check_smart_tags. split; stat_check. Qed.

Lemma check_content_controls_stat (root : Element) (d : DocxDiagnostic) :
  stats (fst (_check_content_controls root d))
  = <["content_controls" := VInt (Z.of_nat (length (findall root (qname (NS "w") "sdt"))))]>
      (stats d)
  ∧ snd (_check_content_controls root d) = Return tt.
Proof. unfold _check_content_controls. split; stat_check. Qed.

Lemma check_field_codes_stat (rt : Runtime) (root : Element) (d : DocxDiagnostic) :
  stats (fst (_check_field_codes rt root d))
  = <["field_codes" := VInt (Z.of_nat (length (findall root (qname (NS "w") "fldChar"))))]>
      (stats d)
  ∧ snd (_check_field_codes rt root d) = Return tt.
Proof. unfold _check_field_codes. split; stat_check. Qed.

Lemma check_equations_stat (root : Element) (d : DocxDiagnostic) :
  stats (fst (_check_equations root d))
  = <["equations" := VInt (Z.of_nat (length (findall root (qname (NS "m") "oMath"))
                                    + length (findall root (qname (NS "m") "oMathPara"))))]>
      (stats d)
  ∧ snd (_check_equations root d) = Return tt.
Proof. unfold _check_equations. split; stat_check. Qed.

Lemma check_hyperlinks_stat (root : Element) (d : DocxDiagnostic) :
  stats (fst (_check_hyperlinks root d))
  = <["hyperlinks" := VInt (Z.of_nat (length (findall root (qname (NS "w") "hyperlink"))))]>
      (stats d)
  ∧ snd (_check_hyperlinks root d) = Return tt.
Proof. unfold _check_hyperlinks. split; stat_check. Qed.

Lemma check_namespaces_stat (root : Element) (d : DocxDiagnostic) :
  stats (fst (_check_namespaces root d)) = stats d
  ∧ (snd (_check_namespaces root d) = Return tt
     ∨ snd (_check_namespaces root d)
       = Raise (mkExn OtherException "substring not found")).
Proof.
  pose proof (collect_namespaces_spec (iter root) []) as Hspec.
  unfold _check_namespaces. run_py.
  destruct (collect_namespaces (iter root) []) as [e|namespaces].
  - destruct Hspec as [-> _]. split; [done | by right].
  - split; [|left]; by repeat case_match.
Qed.

(** X21.  Once the main part is parsed, the six statistics of the
    element-specific checks are always recorded, each with the number of
    elements of its kind below the root, and no other statistic is
    touched.  The only check that can raise is the namespace check, which
    runs last: the sequence either returns or ends with its exception,
    and the statistics are there in both cases. *)
Theorem semantic_statistics_recorded (rt : Runtime) (root : Element)
    (d : DocxDiagnostic) :
  let d' := fst (run_checks (SEMANTIC_CHECKS rt) root d) in
  let count uri name := VInt (Z.of_nat (length (findall root (qname (NS uri) name)))) in
  (snd (run_checks (SEMANTIC_CHECKS rt) root d) = Return tt
   ∨ snd (run_checks (SEMANTIC_CHECKS rt) root d)
     = Raise (mkExn OtherException "substring not found"))
  ∧ (∃ m, stats d' !! "tracked_changes" = Some (VDict m)
          ∧ m !! "total"
            = Some (Z.of_nat (length (findall root (qname (NS "w") "ins"))
                              + length (findall root (qname (NS "w") "del"))
                              + length (findall root (qname (NS "w") "pPrChange"))
                              + length (findall root (qname (NS "w") "rPrChange")))))
  ∧ stats d' !! "smart_tags" = Some (count "w" "smartTag")
  ∧ stats d' !! "content_controls" = Some (count "w" "sdt")
  ∧ stats d' !! "field_codes" = Some (count "w" "fldChar")
  ∧ stats d' !! "equations"
    = Some (VInt (Z.of_nat (length (findall root (qname (NS "m") "oMath"))
                            + length (findall root (qname (NS "m") "oMathPara")))))
  ∧ stats d' !! "hyperlinks" = Some (count "w" "hyperlink")
  ∧ (∀ k, k ∉ semantic_keys → stats d' !! k = stats d !! k).
Proof.
  cbv zeta. unfold run_checks, SEMANTIC_CHECKS. cbn [for_each]. unfold bind.
  destruct (check_tracked_changes_stat root d) as (m & S1 & Hm & R1).
  destruct (_check_tracked_changes root d) as [d1 r1]. cbn [fst snd] in S1, R1.
  subst r1.
  destruct (check_smart_tags_stat root d1) as (S2 & R2).
  destruct (_check_smart_tags root d1) as [d2 r2]. cbn [fst snd] in S2, R2.
  subst r2.
  destruct (check_content_controls_stat root d2) as (S3 & R3).
  destruct (_check_content_controls root d2) as [d3 r3]. cbn [fst snd] in S3, R3.
  subst r3.
  destruct (check_field_codes_stat rt root d3) as (S4 & R4).
  destruct (_check_field_codes rt root d3) as [d4 r4]. cbn [fst snd] in S4, R4.
  subst r4.
  destruct (check_equations_stat root d4) as (S5 & R5).
  destruct (_check_equations root d4) as [d5 r5]. cbn [fst snd] in S5, R5.
  subst r5.
  destruct (check_hyperlinks_stat root d5) as (S6 & R6).
  destruct (_check_hyperlinks root d5) as [d6 r6]. cbn [fst snd] in S6, R6.
  subst r6.
  destruct (check_namespaces_stat root d6) as (S7 & R7).
  destruct (_check_namespaces root d6) as [d7 r7]. cbn [fst snd] in S7, R7.
  assert (Hstats : stats (fst (match r7 with
                               | Return _ => pass d7
                               | Raise e => (d7, Raise e)
                               end)) = stats d7)
    by (by destruct r7).
  rewrite Hstats, S7, S6, S5, S4, S3, S2, S1.
  split; [destruct R7 as [-> | ->]; [left | right]; done|].
  split; [exists m; split; [by simplify_map_eq | done]|].
  split_and!; try (by simplify_map_eq).
  intros k Hk. unfold semantic_keys in Hk.
  rewrite !lookup_insert_ne; [done|..]; intros <-; apply Hk; solve_elem_of.
Qed.

(** ** Failures of the main part *)

Lemma getinfo_absent (a : Archive) (name : string) :
  name ∉ map member_name a → getinfo a name = None.
Proof.
  intros Hno. unfold getinfo.
  destruct (List.find _ (rev a)) as [m|] eqn:Hfind; [|done].
  apply List.find_some in Hfind as [Hin Heq]. apply String.eqb_eq in Heq.
  exfalso. apply Hno. apply list_elem_of_fmap. exists m. split; [done|].
  apply list_elem_of_In. by apply in_rev.
Qed.

Lemma analyze_document_unreadable (rt : Runtime)
    (checks : list (Element → Py unit)) (zf : ZipFile) (d : DocxDiagnostic)
    (e : PyExn) :
  zip_file d = Some zf →
  read_member (filelist zf) "word/document.xml" = inl e →
  analyze_document_xml_with rt checks d = (with_issue (analysis_issue e) d, Return tt).
Proof.
  intros Hzip Hread. unfold analyze_document_xml_with. run_py.
  rewrite Hzip, Hread. unfold on_analysis_error, analysis_issue, with_issue.
  by case_bool_decide.
Qed.

Lemma analyze_document_absent (rt : Runtime)
    (checks : list (Element → Py unit)) (zf : ZipFile) (d : DocxDiagnostic) :
  zip_file d = Some zf →
  "word/document.xml" ∉ namelist zf →
  analyze_document_xml_with rt checks d
  = (with_issue (mkIssue ERROR "DOCX Structure" "document.xml not found in archive"
                   None None None) d,
     Return tt).
Proof.
  intros Hzip Hno.
  rewrite (analyze_document_unreadable rt checks zf d
             (mkExn KeyError
                (dquote +:+ "There is no item named '" +:+ "word/document.xml"
                        +:+ "' in the archive" +:+ dquote)) Hzip); [done|].
  unfold read_member. by rewrite getinfo_absent.
Qed.

(** X22.  With the archive open, a main part that cannot be analysed is
    reported by one error and the analysis returns without running any
    element-specific check, whatever those checks are.  A part that the
    archive does not list gives a DOCX Structure error; a part that
    cannot be read gives the issue of the exception; a part that the
    parser rejects gives, after the issues of the character check, an XML
    Parsing error for a parse error and an Analysis error for any other
    exception.  No statistic is recorded. *)
Theorem document_failures_reported (rt : Runtime)
    (checks : list (Element → Py unit)) (zf : ZipFile) (d : DocxDiagnostic) :
  zip_file d = Some zf →
  ("word/document.xml" ∉ namelist zf →
   analyze_document_xml_with rt checks d
   = (with_issue (mkIssue ERROR "DOCX Structure" "document.xml not found in archive"
                    None None None) d,
      Return tt))
  ∧ (∀ e, read_member (filelist zf) "word/document.xml" = inl e →
          analyze_document_xml_with rt checks d
          = (with_issue (analysis_issue e) d, Return tt))
  ∧ (∀ content e,
       read_member (filelist zf) "word/document.xml" = inr content →
       ET_fromstring rt content = XmlRaises e →
       analyze_document_xml_with rt checks d
       = (with_issue (parse_issue e)
            (with_issues (character_issues "word/document.xml" content
                          ++ (if verbose d then detail_issues content else [])) d),
          Return tt)).
Proof.
  intros Hzip. split; [by apply analyze_document_absent|].
  split; [intros e; by apply analyze_document_unreadable|].
  intros content e Hread Hparse. unfold analyze_document_xml_with. run_py.
  rewrite Hzip, Hread, run_check_invalid_characters, Hparse.
  cbn [xml_result]. unfold on_parse_error, parse_issue, on_analysis_error,
    analysis_issue.
  run_py. repeat case_bool_decide; try done; reflexivity.
Qed.

Lemma document_failures_witness :
  analyze_document_xml_with plain_runtime (SEMANTIC_CHECKS plain_runtime)
    (opened "a.docx" false revised_archive)
  = (with_issue
       (parse_issue (mkExn ParseError "syntax error: line 1, column 0"))
       (with_issues
          (character_issues "word/document.xml" revised_doc_bytes ++ [])
          (opened "a.docx" false revised_archive)),
     Return tt).
Proof.
  destruct (document_failures_reported plain_runtime
              (SEMANTIC_CHECKS plain_runtime) (mkZipFile revised_archive true)
              (opened "a.docx" false revised_archive)) as (_ & _ & Hparse).
  - reflexivity.
  - apply (Hparse revised_doc_bytes
             (mkExn ParseError "syntax error: line 1, column 0"));
      reflexivity.
Defined.

(** ** A package without its main part *)

Lemma loader_passes_state (rt : Runtime) (os : OS) (path : string)
    (verbose_mode : bool) (a : Archive) :
  loader_passes os path a →
  ∃ d2,
    (∀ checks,
       run_all_checks_with rt os checks (init path verbose_mode)
       = (_check_required_files ;; analyze_document_xml_with rt checks ;;
          finish rt) d2)
    ∧ zip_file d2 = Some (mkZipFile a true)
    ∧ verbose d2 = verbose_mode
    ∧ Forall (λ i, severity i = WARNING ∧ category i = "File Size") (issues d2)
    ∧ (∀ k, k ∉ ["file_size"; "file_size_mb"; "zip_files"] → stats d2 !! k = None).
Proof.
  intros (Hex & Hfile & Hsize & Hzip & bad_file & Htest & Htruthy).
  assert (Hstats : ∀ (m : gmap string StatValue) k v1 v2 v3,
            m = ∅ → k ∉ ["file_size"; "file_size_mb"; "zip_files"] →
            <["zip_files" := v3]> (<["file_size_mb" := v2]>
              (<["file_size" := v1]> m)) !! k = None).
  { intros m k v1 v2 v3 -> Hk.
    rewrite !lookup_insert_ne, lookup_empty; [done|..];
      intros <-; apply Hk; solve_elem_of. }
  destruct (100 * 1024 * 1024 <? path_getsize (os path)) eqn:Hbig;
    eexists; (split; [intros checks; rewrite run_all_checks_with_split;
                      unfold after_loader, _check_file_exists,
                        _check_zip_structure, zipfile_ZipFile;
                      run_state; rewrite Hex, Hfile; run_state;
                      destruct (Z.eqb_spec (path_getsize (os path)) 0) as [|_];
                        [done|];
                      rewrite Hbig; run_state; rewrite Hzip; run_state;
                      rewrite Htest; run_state; rewrite Htruthy; run_state;
                      reflexivity|]);
    cbn [zip_file verbose issues stats];
    (split; [reflexivity|]); (split; [reflexivity|]);
    (split; [repeat constructor | intros k Hk; by apply Hstats]).
Qed.

Lemma returns_unit (m : Py unit) (d : DocxDiagnostic) :
  returns m → m d = (fst (m d), Return tt).
Proof.
  intros H. destruct (H d) as [[] Hr]. destruct (m d) as [d' r].
  cbn in Hr |- *. by subst r.
Qed.

Lemma check_relationships_returns (rt : Runtime) : returns (_check_relationships rt).
Proof. unfold _check_relationships. repeat returns_step. Qed.

Lemma check_embedded_objects_returns : returns _check_embedded_objects.
Proof. unfold _check_embedded_objects. repeat returns_step. Qed.

Lemma filter_confined_nil (cats : list string) (P : Issue → Prop)
    `{!∀ i, Decision (P i)} (new : list Issue) :
  Forall (λ i, category i ∈ cats) new →
  (∀ i, category i ∈ cats → ¬ P i) →
  filter P new = [].
Proof. intros Hall Hno. by apply (filter_nil_Forall P _ new Hall). Qed.

(** X23.  A package that passes the two loader checks but does not list
    [word/document.xml] has the absence reported twice: once by
    [_check_required_files] and once more by the document analysis, whose
    read fails.  The errors of category DOCX Structure in the report are
    those of the missing required files followed by that second one, the
    run returns False, and no statistic of the element-specific checks is
    recorded. *)
Theorem missing_document_reported_twice (rt : Runtime) (os : OS) (path : string)
    (verbose_mode : bool) (a : Archive) :
  loader_passes os path a →
  "word/document.xml" ∉ map member_name a →
  let d := fst (diagnose rt os path verbose_mode) in
  snd (diagnose rt os path verbose_mode) = Return false
  ∧ filter (λ i, category i = "DOCX Structure" ∧ severity i = ERROR) (issues d)
    = map missing_required_issue
          (filter (λ name, name ∉ map member_name a) REQUIRED_FILES)
      ++ [mkIssue ERROR "DOCX Structure" "document.xml not found in archive"
            None None None]
  ∧ missing_required_issue "word/document.xml" ∈ issues d
  ∧ (∀ k, k ∈ semantic_keys → stats d !! k = None).
Proof.
  intros Hpass Habsent. cbv zeta. unfold diagnose, run_all_checks.
  destruct (loader_passes_state rt os path verbose_mode a Hpass)
    as (d2 & Hrun & Hzip & _ & Hissues & Hstats).
  rewrite Hrun. unfold finish, bind.
  rewrite (run_check_required_files (mkZipFile a true) d2 Hzip).
  change (namelist (mkZipFile a true)) with (map member_name a).
  set (required := map missing_required_issue _).
  set (optional := map missing_optional_issue _).
  rewrite (analyze_document_absent rt _ (mkZipFile a true)) by done.
  set (d4 := with_issue _ _).
  rewrite (returns_unit _ d4 (check_relationships_returns rt)).
  destruct (check_relationships_confined rt d4) as ((new5 & Hi5 & Hc5) & Hs5).
  set (d5 := fst (_check_relationships rt d4)) in *.
  rewrite (returns_unit _ d5 check_embedded_objects_returns).
  destruct (check_embedded_objects_confined d5) as ((new6 & Hi6 & Hc6) & Hs6).
  set (d6 := fst (_check_embedded_objects d5)) in *.
  cbn [close_zip_file get_issues ret fst snd issues stats].
  assert (Hall : issues d6
                 = issues d2 ++ required ++ optional
                   ++ [mkIssue ERROR "DOCX Structure"
                         "document.xml not found in archive" None None None]
                   ++ new5 ++ new6).
  { rewrite Hi6, Hi5. unfold d4. cbn [with_issue with_issues issues].
    by rewrite <- !app_assoc. }
  assert (Hreq : missing_required_issue "word/document.xml" ∈ required).
  { unfold required. apply list_elem_of_fmap. eexists. split; [reflexivity|].
    apply list_elem_of_filter. split; [done|]. unfold REQUIRED_FILES.
    solve_elem_of. }
  split; [|split; [|split]].
  - f_equal. apply Nat.eqb_neq. intros Hzero.
    apply count_severity_zero in Hzero. apply Hzero.
    exists (missing_required_issue "word/document.xml"). split; [|done].
    rewrite Hall. rewrite !elem_of_app. by right; left.
  - rewrite Hall, !filter_app.
    rewrite (filter_nil_Forall _ _ (issues d2) Hissues)
      by (intros i [Hs Hc] [Hcat _]; congruence).
    rewrite (filter_confined_nil _ _ new5 Hc5)
      by (intros i Hin [Hcat _]; rewrite Hcat in Hin;
          repeat (apply elem_of_cons in Hin as [Hin|Hin]; [discriminate|]);
          inversion Hin).
    rewrite (filter_confined_nil _ _ new6 Hc6)
      by (intros i Hin [Hcat _]; rewrite Hcat in Hin;
          repeat (apply elem_of_cons in Hin as [Hin|Hin]; [discriminate|]);
          inversion Hin).
    assert (Hopt : filter (λ i, category i = "DOCX Structure" ∧ severity i = ERROR)
                     optional = []).
    { unfold optional.
      apply (filter_nil_Forall _ (λ i, severity i = INFO)).
      - apply Forall_fmap, Forall_true. by intros [? ?].
      - intros i Hs [_ He]. congruence. }
    assert (Hkeep : filter (λ i, category i = "DOCX Structure" ∧ severity i = ERROR)
                      required = required).
    { unfold required. generalize (filter (λ name, name ∉ map member_name a)
                                          REQUIRED_FILES).
      induction l as [|x l IH]; [done|]. cbn [map].
      rewrite filter_cons, decide_True by done. by rewrite IH. }
    rewrite Hopt, Hkeep. cbn. by rewrite app_nil_r.
  - rewrite Hall, !elem_of_app. by right; left.
  - intros k Hk. unfold semantic_keys in Hk.
    rewrite Hs6, Hs5; [unfold d4; cbn [with_issue with_issues stats];
                       apply Hstats|..];
      intros Hin;
      repeat (apply elem_of_cons in Hk as [-> | Hk];
              [repeat (apply elem_of_cons in Hin as [Hin|Hin]; [discriminate|]);
               inversion Hin|]);
      inversion Hk.
Qed.

Lemma missing_document_witness :
  let os := os_with_archive "a.docx" 2048 headless_archive in
  let d := fst (diagnose plain_runtime os "a.docx" false) in
  snd (diagnose plain_runtime os "a.docx" false) = Return false
  ∧ filter (λ i, category i = "DOCX Structure" ∧ severity i = ERROR) (issues d)
    = [ missing_required_issue "word/document.xml";
        mkIssue ERROR "DOCX Structure" "document.xml not found in archive"
          None None None ].
Proof.
  cbv zeta.
  destruct (missing_document_reported_twice plain_runtime
              (os_with_archive "a.docx" 2048 headless_archive) "a.docx" false
              headless_archive) as (Hret & Hissues & _).
  - split; [reflexivity|]. split; [reflexivity|]. split; [discriminate|].
    split; [reflexivity|]. exists None. split; reflexivity.
  - intros H. repeat (apply elem_of_cons in H as [H|H]; [discriminate|]).
    inversion H.
  - split; [exact Hret | exact Hissues].
Defined.

(** ** Elements below an element *)

Lemma Element_nested_ind (P : Element → Prop) :
  (∀ t a x cs, Forall P cs → P (mkElement t a x cs)) → ∀ e, P e.
Proof.
  intros H. fix IH 1. intros [t a x cs]. apply H.
  induction cs as [|c cs IHcs]; constructor; [apply IH | apply IHcs].
Qed.

Lemma iter_unfold (e : Element) : iter e = e :: descendants e.
Proof.
  destruct e as [t a x cs]. cbn [iter]. unfold descendants. cbn [children].
  reflexivity.
Qed.

Lemma elem_of_descendants (e y : Element) :
  y ∈ descendants e ↔ ∃ c, c ∈ children e ∧ (y = c ∨ y ∈ descendants c).
Proof.
  unfold descendants at 1. rewrite list_elem_of_In, in_flat_map. split.
  - intros (c & Hc & Hy). exists c. rewrite list_elem_of_In. split; [done|].
    rewrite iter_unfold in Hy. destruct Hy as [->|Hy]; [by left|].
    right. by apply list_elem_of_In.
  - intros (c & Hc & Hy). exists c. rewrite <- list_elem_of_In. split; [done|].
    rewrite iter_unfold. destruct Hy as [->|Hy]; [by left|].
    right. by apply list_elem_of_In.
Qed.

Lemma descendants_trans (e x y : Element) :
  x ∈ descendants e → y ∈ descendants x → y ∈ descendants e.
Proof.
  revert x y. induction e as [t a tx cs IH] using Element_nested_ind.
  intros x y Hx Hy. apply elem_of_descendants in Hx as (c & Hc & Hx).
  apply elem_of_descendants. exists c. split; [done|]. right.
  destruct Hx as [->|Hx]; [done|].
  cbn [children] in Hc. rewrite Forall_forall in IH. by apply (IH c Hc x y).
Qed.

Lemma findall_below (root e y : Element) (t : string) :
  e ∈ descendants root → y ∈ findall e t → y ∈ findall root t.
Proof.
  unfold findall. rewrite !list_elem_of_filter. intros He [Ht Hy].
  split; [done|]. by apply (descendants_trans root e y).
Qed.

(** ** Revisions inside revisions *)

(** X24.  [_check_tracked_changes] records the Nested Revisions warning
    exactly when some insertion below the root has a deletion below it,
    and then once, right after the Tracked Changes issue, never alone.
    Such a deletion is also one of the deletions counted below the root,
    so a report with the warning counts at least one insertion and one
    deletion. *)
Theorem nested_revisions_reported (root : Element) (d : DocxDiagnostic) :
  let insertions := findall root (qname (NS "w") "ins") in
  let deletions := findall root (qname (NS "w") "del") in
  let nested :=
    filter (λ ins, nonempty (findall ins (qname (NS "w") "del")) = true)
           insertions in
  let new := drop (length (issues d)) (issues (fst (_check_tracked_changes root d))) in
  (nested = [] →
   new = [] ∨ ∃ tc, new = [tc] ∧ category tc = "Tracked Changes")
  ∧ (nested ≠ [] →
     (∃ tc, new = [tc; nested_revisions_issue] ∧ category tc = "Tracked Changes")
     ∧ insertions ≠ [] ∧ deletions ≠ [])
  ∧ (nested_revisions_issue ∈ new ↔ nested ≠ []).
Proof.
  cbv zeta.
  set (insertions := findall root (qname (NS "w") "ins")).
  set (deletions := findall root (qname (NS "w") "del")).
  set (nested := filter _ insertions).
  assert (Hexists : existsb (λ ins, nonempty (findall ins (qname (NS "w") "del")))
                      insertions = true ↔ nested ≠ []).
  { unfold nested. induction insertions as [|i l IH]; cbn [existsb].
    - split; [discriminate | done].
    - rewrite filter_cons, orb_true_iff, IH.
      destruct (nonempty (findall i (qname (NS "w") "del"))).
      + rewrite decide_True by done. split; [done | by left].
      + rewrite decide_False by done. split; [by intros [?|?] | by right]. }
  assert (Hcounted : nested ≠ [] → insertions ≠ [] ∧ deletions ≠ []).
  { intros Hne. destruct nested as [|i rest] eqn:Hn; [done|].
    assert (Hi : i ∈ nested) by (rewrite Hn; apply list_elem_of_here).
    unfold nested in Hi. apply list_elem_of_filter in Hi as [Hdel Hi].
    split; [intros Hnil; rewrite Hnil in Hi; inversion Hi|].
    destruct (findall i (qname (NS "w") "del")) as [|y ys] eqn:Hy; [done|].
    assert (Hin : y ∈ deletions).
    { apply (findall_below root i y).
      - unfold insertions, findall in Hi. by apply list_elem_of_filter in Hi as [_ ?].
      - rewrite Hy. apply list_elem_of_here. }
    intros Hnil. rewrite Hnil in Hin. inversion Hin. }
  unfold _check_tracked_changes. run_py. fold insertions. fold deletions.
  destruct (0 <? length insertions + length deletions
                 + length (findall root (qname (NS "w") "pPrChange"))
                 + length (findall root (qname (NS "w") "rPrChange")))%nat eqn:Hpos.
  - destruct (existsb _ insertions) eqn:Hex.
    + assert (Hne : nested ≠ []) by (by apply Hexists).
      cbn [fst issues]. rewrite <- !app_assoc, drop_app_length. cbn [app].
      split; [done|]. split.
      * intros _. split; [|by apply Hcounted]. eexists. split; [reflexivity|done].
      * split; [done|]. intros _. apply list_elem_of_further, list_elem_of_here.
    + assert (Hnil : nested = []).
      { destruct nested; [done|]. exfalso.
        assert (H : false = true) by (by apply Hexists). discriminate. }
      cbn [fst issues]. rewrite drop_app_length.
      split; [intros _; right; eexists; split; [reflexivity|done]|].
      split; [done|]. split; [|done].
      intros Hin. apply list_elem_of_singleton in Hin. discriminate.
  - cbn [fst issues]. rewrite drop_all.
    assert (Hnil : nested = []).
    { destruct nested as [|i rest] eqn:Hn; [done|]. exfalso.
      destruct Hcounted as [Hins _]; [done|].
      destruct insertions; [done|]. cbn in Hpos. discriminate. }
    split; [by left|]. split; [done|]. split; [|done]. intros Hin. inversion Hin.
Qed.

(** ** Concrete runs of the archive lemmas *)

Lemma complete_run_witness :
  zip_file (fst (diagnose revised_runtime
                   (os_with_archive "a.docx" 2048 revised_archive) "a.docx" false))
  = Some (mkZipFile revised_archive false).
Proof.
  apply (complete_run_closes_handle revised_runtime
           (os_with_archive "a.docx" 2048 revised_archive) "a.docx" false
           revised_archive).
  split; [reflexivity|]. split; [reflexivity|]. split; [discriminate|].
  split; [reflexivity|]. exists None. split; reflexivity.
Defined.

Lemma zip_failure_witness :
  let os := os_with_archive "bad.docx" 2048 corrupted_archive in
  let d := fst (run_all_checks_with plain_runtime os
                  (SEMANTIC_CHECKS plain_runtime) (init "bad.docx" false)) in
  snd (run_all_checks_with plain_runtime os
         (SEMANTIC_CHECKS plain_runtime) (init "bad.docx" false)) = Return false
  ∧ ∃ zip_issue,
      severity zip_issue = ERROR
      ∧ category zip_issue = "ZIP Structure"
      ∧ filter (λ i, severity i = ERROR) (issues d) = [zip_issue]
      ∧ ∃ earlier, issues d = earlier ++ [zip_issue]
                   ∧ Forall (λ i, severity i = WARNING ∧ category i = "File Size")
                            earlier.
Proof.
  apply (zip_failure_reported_once plain_runtime
           (os_with_archive "bad.docx" 2048 corrupted_archive)
           (SEMANTIC_CHECKS plain_runtime) "bad.docx" false).
  split; [reflexivity|]. split; [reflexivity|]. split; [discriminate|].
  right. exists corrupted_archive. split; [reflexivity|].
  right. exists "word/document.xml". split; [reflexivity | discriminate].
Defined.

(** ** UTF-8: encoding and decoding *)

Lemma all_from_spec (n : nat) (z : Z) (f : Z → bool) :
  all_from n z f = true → ∀ k, z ≤ k < z + Z.of_nat n → f k = true.
Proof.
  revert z. induction n as [|n IH]; intros z H k Hk; [lia|].
  cbn [all_from] in H. destruct (f z) eqn:Hz; [|discriminate].
  destruct (decide (k = z)) as [->|Hne]; [done|].
  apply (IH (z + 1) H). lia.
Qed.

Lemma all_from_none (n : nat) (z : Z) (f : Z → bool) :
  all_from n z (λ c, negb (f c)) = true → ∀ k, z ≤ k < z + Z.of_nat n → f k = false.
Proof.
  intros H k Hk. apply negb_true_iff. by apply (all_from_spec n z _ H).
Qed.

Lemma encodes_back_scalar (c : Z) : is_scalar_value c → encodes_back c = true.
Proof.
  intros [H|H].
  - apply (all_from_spec (Z.to_nat 55296) 0 encodes_back); [|lia].
    vm_compute. reflexivity.
  - apply (all_from_spec (Z.to_nat 1056768) 57344 encodes_back); [|lia].
    vm_compute. reflexivity.
Qed.

Lemma encodes_back_surrogate (c : Z) : 55296 ≤ c < 57344 → encodes_back c = false.
Proof.
  intros H. apply (all_from_none (Z.to_nat 2048) 55296 encodes_back); [|lia].
  vm_compute. reflexivity.
Qed.

Lemma decode_head_app (bs rest : list byte) (c : Z) (n : nat) :
  decode_head bs = Some (c, n) → decode_head (bs ++ rest) = Some (c, n).
Proof.
  intros H. unfold decode_head in H.
  repeat case_match; try discriminate; simplify_eq;
    cbn [app decode_head]; cbv zeta; rewrite_conditions; reflexivity.
Qed.

Lemma utf8_encode_char_nonempty (c : Z) : utf8_encode_char c ≠ [].
Proof. unfold utf8_encode_char. by repeat case_match. Qed.

Lemma utf8_decode_at_encode (t : list Z) (pos : nat) :
  Forall is_scalar_value t →
  utf8_decode_at pos (flat_map utf8_encode_char t) = Decoded t.
Proof.
  intros Ht. revert pos. induction Ht as [|c t Hc _ IH]; intros pos; [done|].
  cbn [flat_map]. pose proof (encodes_back_scalar c Hc) as Hback.
  unfold encodes_back in Hback. cbv zeta in Hback.
  destruct (decode_head (utf8_encode_char c)) as [[c' n]|] eqn:Hhead;
    [|discriminate].
  apply andb_true_iff in Hback as [Hc' Hn].
  apply Z.eqb_eq in Hc'. apply Nat.eqb_eq in Hn. subst c' n.
  rewrite utf8_decode_at_unfold.
  - rewrite (decode_head_app _ _ _ _ Hhead), drop_app_length, IH. done.
  - pose proof (utf8_encode_char_nonempty c).
    destruct (utf8_encode_char c); [done | discriminate].
Qed.

Lemma text_of_str_of_text (t : list Z) :
  Forall is_scalar_value t → text_of_str (str_of_text t) = t.
Proof.
  intros Ht. unfold text_of_str, str_of_text, utf8_decode.
  by rewrite list_byte_of_string_of_list_byte, utf8_decode_at_encode.
Qed.

(** X25.  The convention for strings is sound: a text whose code points
    are Unicode scalar values, encoded as the [str] of the model and
    decoded again by the strict decoder, gives the text back; and of the
    code points up to U+10FFFF, the encoding of one decodes at all
    exactly when it is a scalar value, so a surrogate never passes the
    decoder. *)
Theorem utf8_round_trip (t : list Z) :
  Forall is_scalar_value t →
  utf8_decode (flat_map utf8_encode_char t) = Decoded t
  ∧ text_of_str (str_of_text t) = t
  ∧ (∀ c, 0 ≤ c ≤ 1114111 →
          utf8_decode (utf8_encode_char c) = Decoded [c] ↔ is_scalar_value c).
Proof.
  intros Ht. split; [by apply utf8_decode_at_encode|].
  split; [by apply text_of_str_of_text|].
  intros c Hrange. split.
  - intros Hdec. unfold is_scalar_value.
    destruct (decide (55296 ≤ c < 57344)) as [Hsur|]; [|lia]. exfalso.
    pose proof (encodes_back_surrogate c Hsur) as Hback.
    unfold encodes_back in Hback. cbv zeta in Hback. unfold utf8_decode in Hdec.
    rewrite utf8_decode_at_unfold in Hdec by apply utf8_encode_char_nonempty.
    destruct (decode_head (utf8_encode_char c)) as [[c' n]|] eqn:Hhead;
      [|discriminate].
    pose proof (decode_head_length _ _ _ Hhead) as Hlen.
    destruct (utf8_decode_at (0 + n) (drop n (utf8_encode_char c))) as [rest|]
      eqn:Hrest; [|discriminate].
    cbn in Hdec. injection Hdec as -> ->.
    assert (Hn : n = length (utf8_encode_char c)).
    { destruct (decide (n = length (utf8_encode_char c))) as [|Hne]; [done|].
      exfalso. assert (Hdrop : drop n (utf8_encode_char c) ≠ []).
      { intros Hnil. apply (f_equal length) in Hnil.
        rewrite length_drop in Hnil. cbn in Hnil. lia. }
      rewrite utf8_decode_at_unfold in Hrest by done.
      destruct (decode_head (drop n (utf8_encode_char c))) as [[? ?]|];
        [|discriminate].
      destruct (utf8_decode_at _ _); discriminate. }
    rewrite Z.eqb_refl, Hn, Nat.eqb_refl in Hback. discriminate.
  - intros Hc. pose proof (utf8_decode_at_encode [c] 0) as H.
    cbn [flat_map] in H. rewrite app_nil_r in H. apply H. by constructor.
Qed.

Lemma utf8_round_trip_witness :
  text_of_str (str_of_text [99; 97; 102; 233; 8364; 128512])
  = [99; 97; 102; 233; 8364; 128512].
Proof.
  refine (proj1 (proj2 (utf8_round_trip [99; 97; 102; 233; 8364; 128512] _))).
  repeat constructor; unfold is_scalar_value; lia.
Defined.

(** ** Console rendering of an issue *)

(** X26.  [Issue.format] gives between one and four lines.  Without
    verbose mode the context of the issue plays no part in them.  Verbose
    mode adds one line, the context line, in its place after the location
    line and before the suggestion line, exactly when the issue has a
    non-empty context, and changes nothing else. *)
Theorem context_line_only_in_verbose_mode (c : Colors.t) (i : Issue) :
  (1 ≤ length (format_lines c i true) ≤ 4)%nat
  ∧ (∀ ctx, format c (mkIssue (severity i) (category i) (message i)
                        (location i) ctx (suggestion i)) false
            = format c i false)
  ∧ ∃ before context_lines after,
      format_lines c i false = before ++ after
      ∧ format_lines c i true = before ++ context_lines ++ after
      ∧ context_lines
        = (if truthy_opt (context i)
           then ["  Context: " +:+ shown_context (default EmptyString (context i))]
           else [])
      ∧ (length before ≤ 2)%nat ∧ (length after ≤ 1)%nat.
Proof.
  split; [|split].
  - unfold format_lines. rewrite !length_app.
    destruct (truthy_opt (location i)), (truthy_opt (context i)),
      (truthy_opt (suggestion i)); cbn; lia.
  - intros ctx. reflexivity.
  - unfold format_lines. cbn [andb].
    eexists (_ :: (if truthy_opt (location i) then _ else [])), _,
      (if truthy_opt (suggestion i) then _ else []).
    split; [reflexivity|]. split; [reflexivity|]. split; [reflexivity|].
    destruct (truthy_opt (location i)), (truthy_opt (suggestion i)); cbn; lia.
Qed.

Lemma string_of_list_byte_app (x y : list byte) :
  string_of_list_byte (x ++ y) = string_of_list_byte x +:+ string_of_list_byte y.
Proof.
  unfold string_of_list_byte. induction x as [|b x IH]; [done|].
  cbn [app map string_of_list_ascii]. rewrite IH. reflexivity.
Qed.

Lemma str_of_text_app (a b : list Z) :
  str_of_text (a ++ b) = str_of_text a +:+ str_of_text b.
Proof. unfold str_of_text. by rewrite flat_map_app, string_of_list_byte_app. Qed.

(** X27.  The context line never shows more than 203 characters of a
    long context: a context of at most 200 characters is shown as it is,
    and a longer one is cut to its first 200 characters followed by three
    full stops, so that a context of 201 or 202 characters is shown
    longer than it is. *)
Theorem shown_context_bounded (t : list Z) :
  Forall is_scalar_value t →
  text_of_str (shown_context (str_of_text t))
  = (if (length t <=? 200)%nat then t else take 200 t ++ [46; 46; 46])
  ∧ py_len (shown_context (str_of_text t))
    = (if (length t <=? 200)%nat then length t else 203%nat).
Proof.
  intros Ht.
  assert (Hshown : text_of_str (shown_context (str_of_text t))
                   = (if (length t <=? 200)%nat then t
                      else take 200 t ++ [46; 46; 46])).
  { unfold shown_context, py_len, py_prefix.
    rewrite (text_of_str_of_text t Ht).
    destruct (length t <=? 200)%nat; [by apply text_of_str_of_text|].
    change "..." with (str_of_text [46; 46; 46]).
    rewrite <- str_of_text_app. apply text_of_str_of_text.
    apply Forall_app. split; [by apply Forall_take|].
    repeat constructor; unfold is_scalar_value; lia. }
  split; [exact Hshown|]. unfold py_len. rewrite Hshown.
  destruct (Nat.leb_spec (length t) 200); [done|].
  rewrite length_app, length_take. cbn [length]. lia.
Qed.

Lemma shown_context_witness :
  py_len (shown_context (str_of_text (replicate 201 233))) = 203%nat.
Proof.
  refine (proj2 (shown_context_bounded (replicate 201 233) _)).
  apply Forall_replicate. unfold is_scalar_value. lia.
Defined.

(** ** The issues of the console report *)

Lemma group_of_append (cat : string) (i : Issue) (groups : list (string * list Issue)) :
  group_of cat (group_append i groups)
  = (if decide (cat = category i) then group_of cat groups ++ [i]
     else group_of cat groups).
Proof.
  unfold group_of. induction groups as [|[k l] groups IH]; cbn.
  - destruct (String.eqb_spec (category i) cat); case_decide; cbn [snd];
      congruence.
  - destruct (String.eqb_spec k (category i)) as [->|Hk]; cbn.
    + destruct (String.eqb_spec (category i) cat); case_decide; cbn [snd];
        congruence.
    + destruct (String.eqb_spec k cat) as [->|Hc]; [|exact IH].
      by rewrite decide_False by congruence.
Qed.

Lemma group_append_keys (i : Issue) (groups : list (string * list Issue)) :
  map fst (group_append i groups)
  = (if decide (category i ∈ map fst groups) then map fst groups
     else map fst groups ++ [category i]).
Proof.
  induction groups as [|[k l] groups IH]; cbn.
  - by rewrite decide_False by (intros H; inversion H).
  - destruct (String.eqb_spec k (category i)) as [->|Hk]; cbn.
    + by rewrite decide_True by apply list_elem_of_here.
    + rewrite IH. case_decide as Hin.
      * by rewrite decide_True by (by apply list_elem_of_further).
      * rewrite decide_False; [done|].
        intros H. apply elem_of_cons in H as [<- | H]; done.
Qed.

Lemma by_category_fold (l : list Issue) (acc : list (string * list Issue)) :
  let groups := fold_left (λ groups issue, group_append issue groups) l acc in
  (NoDup (map fst acc) → NoDup (map fst groups))
  ∧ (∀ cat, group_of cat groups
            = group_of cat acc ++ filter (λ i, category i = cat) l)
  ∧ (∀ cat, cat ∈ map fst groups ↔
            cat ∈ map fst acc ∨ ∃ i, i ∈ l ∧ category i = cat).
Proof.
  cbv zeta. revert acc. induction l as [|i l IH]; intros acc; cbn [fold_left].
  - split; [done|]. split; [intros cat; cbn; by rewrite app_nil_r|].
    intros cat. split; [by left|]. intros [H|(i & H & _)]; [done | inversion H].
  - destruct (IH (group_append i acc)) as (Hnd & Hgroup & Hkeys).
    split; [|split].
    + intros Hacc. apply Hnd. rewrite group_append_keys. case_decide; [done|].
      apply NoDup_app. split; [done|]. split; [|apply NoDup_singleton].
      intros x Hx Hx'. apply list_elem_of_singleton in Hx'. by subst x.
    + intros cat. rewrite Hgroup, group_of_append, filter_cons.
      destruct (decide (cat = category i)) as [->|Hc].
      * rewrite decide_True by done. by rewrite <- app_assoc.
      * rewrite decide_False by congruence. done.
    + intros cat. rewrite Hkeys, group_append_keys. split.
      * intros [H|(i' & Hin & Hc)].
        -- case_decide; [by left|].
           apply elem_of_app in H as [H|H]; [by left|].
           apply list_elem_of_singleton in H. subst cat.
           right. exists i. split; [apply list_elem_of_here | done].
        -- right. exists i'. split; [by apply list_elem_of_further | done].
      * intros [H|(i' & Hin & Hc)].
        -- left. case_decide; [done|]. apply elem_of_app. by left.
        -- apply elem_of_cons in Hin as [-> | Hin].
           ++ left. subst cat. case_decide; [done|].
              apply elem_of_app. right. apply list_elem_of_here.
           ++ right. by exists i'.
Qed.

#[global] Instance str_le_total : Total str_le.
Proof. intros a b. apply String.leb_total. Qed.

Lemma partition_skip (i : Issue) (l : list Issue) (cats : list string) :
  category i ∉ cats →
  flat_map (λ cat, filter (λ j, category j = cat) (i :: l)) cats
  = flat_map (λ cat, filter (λ j, category j = cat) l) cats.
Proof.
  induction cats as [|c cats IH]; [done|]. intros Hno.
  apply not_elem_of_cons in Hno as [Hc Hno]. cbn [flat_map].
  rewrite filter_cons, decide_False by done. by rewrite IH.
Qed.

Lemma partition_take (i : Issue) (l : list Issue) (cats : list string) :
  NoDup cats → category i ∈ cats →
  flat_map (λ cat, filter (λ j, category j = cat) (i :: l)) cats
  ≡ₚ i :: flat_map (λ cat, filter (λ j, category j = cat) l) cats.
Proof.
  induction cats as [|c cats IH]; intros Hnd Hin; [inversion Hin|].
  apply NoDup_cons in Hnd as [Hc Hnd]. cbn [flat_map]. rewrite filter_cons.
  destruct (decide (category i = c)) as [Heq|Hne].
  - rewrite partition_skip by congruence. done.
  - apply elem_of_cons in Hin as [Hin|Hin]; [done|].
    rewrite (IH Hnd Hin). by rewrite Permutation_middle.
Qed.

Lemma partition_by_category (l : list Issue) (cats : list string) :
  NoDup cats → (∀ i, i ∈ l → category i ∈ cats) →
  flat_map (λ cat, filter (λ j, category j = cat) l) cats ≡ₚ l.
Proof.
  intros Hnd. induction l as [|i l IH]; intros Hall.
  - clear. induction cats as [|c cats IH]; [done|]. cbn. exact IH.
  - rewrite partition_take; [|done|apply Hall, list_elem_of_here].
    constructor. apply IH. intros j Hj. by apply Hall, list_elem_of_further.
Qed.

(** X28.  The console report prints every issue exactly once.  The
    issues come grouped by category: the categories are those of the
    issues, each once, in the order of their characters, and under a
    category come all the issues of that category, in the order in which
    they were recorded. *)
Theorem report_lists_every_issue_once (d : DocxDiagnostic) :
  let groups := report_groups d in
  Sorted str_le (map fst groups)
  ∧ NoDup (map fst groups)
  ∧ (∀ cat, cat ∈ map fst groups ↔ ∃ i, i ∈ issues d ∧ category i = cat)
  ∧ Forall (λ g, snd g = filter (λ i, category i = fst g) (issues d)
                 ∧ snd g ≠ []) groups
  ∧ concat (map snd groups) ≡ₚ issues d.
Proof.
  cbv zeta. unfold report_groups.
  destruct (by_category_fold (issues d) []) as (Hnd & Hgroup & Hkeys).
  fold (by_category (issues d)) in Hnd, Hgroup, Hkeys.
  specialize (Hnd (NoDup_nil_2 (A:=string))).
  set (groups := by_category (issues d)) in *.
  assert (Hperm : sorted (map fst groups) ≡ₚ map fst groups)
    by apply merge_sort_Permutation.
  assert (Hmem : ∀ cat, cat ∈ sorted (map fst groups) ↔
                        ∃ i, i ∈ issues d ∧ category i = cat).
  { intros cat. rewrite Hperm, Hkeys. split; [|by right].
    intros [H|H]; [inversion H | done]. }
  assert (Hfst : map fst (map (λ category, (category, group_of category groups))
                              (sorted (map fst groups)))
                 = sorted (map fst groups)).
  { rewrite map_map. cbn [fst]. apply map_id. }
  rewrite Hfst. split; [apply Sorted_merge_sort, _|].
  split; [by rewrite Hperm|]. split; [exact Hmem|]. split.
  - apply Forall_forall. intros g Hg.
    apply list_elem_of_fmap in Hg as (cat & -> & Hcat). cbn [fst snd].
    rewrite Hgroup. cbn [group_of List.find app]. split; [done|].
    apply Hmem in Hcat as (i & Hi & Hc).
    assert (Hin : i ∈ filter (λ j, category j = cat) (issues d))
      by (by apply list_elem_of_filter).
    intros Hnil. rewrite Hnil in Hin. inversion Hin.
  - rewrite map_map. cbn [snd]. rewrite <- flat_map_concat_map.
    rewrite (flat_map_ext _ (λ cat, filter (λ j, category j = cat) (issues d)))
      by (intros cat; by rewrite Hgroup).
    apply partition_by_category.
    + by rewrite Hperm.
    + intros i Hi. apply Hmem. by exists i.
Qed.

(** ** The statistics of the console report *)

Section KeepsTotals.

Lemma keeps_totals_ret {A} (a : A) : keeps_totals (ret a).
Proof. by intros d. Qed.

Lemma keeps_totals_bind {A B} (m : Py A) (k : A → Py B) :
  keeps_totals m → (∀ a, keeps_totals (k a)) → keeps_totals (bind m k).
Proof.
  intros Hm Hk d Hd. unfold bind. specialize (Hm d Hd).
  destruct (m d) as [d' [a|e]]; cbn [fst] in *; [|done]. by apply Hk.
Qed.

Lemma keeps_totals_try_except {A} (m : Py A) (h : PyExn → Py A) :
  keeps_totals m → (∀ e, keeps_totals (h e)) → keeps_totals (try_except m h).
Proof.
  intros Hm Hh d Hd. unfold try_except. specialize (Hm d Hd).
  destruct (m d) as [d' [a|e]]; cbn [fst] in *; [done|]. by apply Hh.
Qed.

Lemma keeps_totals_when (c : bool) (m : Py unit) :
  keeps_totals m → keeps_totals (when c m).
Proof. intros H. destruct c; [done | apply keeps_totals_ret]. Qed.

Lemma keeps_totals_for_each {A} (l : list A) (body : A → Py unit) :
  (∀ x, keeps_totals (body x)) → keeps_totals (for_each l body).
Proof.
  intros H. induction l as [|x l IH]; cbn [for_each]; [apply keeps_totals_ret|].
  apply keeps_totals_bind; [apply H | intros _; apply IH].
Qed.

Lemma keeps_totals_lift {A} (r : PyExn + A) : keeps_totals (lift r).
Proof. destruct r; intros d Hd; exact Hd. Qed.

Lemma keeps_totals_set_stat (k : string) (v : StatValue) :
  (∀ m, v = VDict m → is_Some (m !! "total")) → keeps_totals (set_stat k v).
Proof.
  intros Hv d Hd k' m. cbn. destruct (decide (k = k')) as [->|Hne].
  - rewrite lookup_insert_eq. intros [= ->]. by apply Hv.
  - rewrite lookup_insert_ne by done. apply Hd.
Qed.

End KeepsTotals.

Ltac keeps_totals_step :=
  cbv beta zeta;
  first
    [ apply keeps_totals_ret | apply keeps_totals_lift
    | (apply keeps_totals_set_stat; intros ? [=]; subst; by simplify_map_eq)
    | apply keeps_totals_when
    | (apply keeps_totals_for_each; intros ?)
    | (apply keeps_totals_try_except; [|intros ?])
    | (apply keeps_totals_bind; [|intros ?])
    | (intros ? ?; assumption)
    | match goal with
      | |- keeps_totals (if ?b then _ else _) => destruct b
      | |- keeps_totals (match ?x with _ => _ end) => destruct x
      | |- keeps_totals (let '(_, _) := ?x in _) => destruct x
      end ].

Lemma semantic_checks_keep_totals (rt : Runtime) :
  Forall (λ c, ∀ root, keeps_totals (c root)) (SEMANTIC_CHECKS rt).
Proof.
  unfold SEMANTIC_CHECKS, _check_tracked_changes, _check_smart_tags,
    _check_content_controls, _check_field_codes, _check_equations,
    _check_hyperlinks, _check_namespaces.
  repeat (constructor; [intros root; repeat keeps_totals_step|]). constructor.
Qed.

Lemma run_checks_keeps_totals (checks : list (Element → Py unit)) (root : Element) :
  Forall (λ c, ∀ root, keeps_totals (c root)) checks →
  keeps_totals (run_checks checks root).
Proof.
  unfold run_checks. induction 1 as [|c l Hc _ IH]; cbn [for_each].
  - apply keeps_totals_ret.
  - apply keeps_totals_bind; [apply Hc | intros _; apply IH].
Qed.

Lemma run_all_checks_keeps_totals (rt : Runtime) (os : OS) :
  keeps_totals (run_all_checks rt os).
Proof.
  unfold run_all_checks, run_all_checks_with, _check_file_exists,
    _check_zip_structure, _check_required_files, analyze_document_xml_with,
    on_analysis_error, on_parse_error, _check_invalid_characters,
    _check_relationships, _check_embedded_objects.
  repeat first
    [ apply run_checks_keeps_totals, semantic_checks_keep_totals
    | keeps_totals_step ].
Qed.

Lemma stat_lines_return (rt : Runtime) (ps : Process) (d : DocxDiagnostic)
    (item : string * string) :
  totals_kept d → ∃ lines, stat_lines rt ps (stats d) item = inr lines.
Proof.
  intros Hd. unfold stat_lines. destruct item as [key label].
  destruct (stats d !! key) as [[n|size|m]|] eqn:Hkey; try (eexists; reflexivity).
  destruct (Hd key m Hkey) as [total Htotal]. rewrite Htotal.
  eexists. reflexivity.
Qed.

Lemma lines_until_error_returns {A} (turn : A → PyExn + list string) (l : list A) :
  (∀ x, ∃ lines, turn x = inr lines) → snd (lines_until_error turn l) = None.
Proof.
  intros H. induction l as [|x l IH]; [done|]. cbn [lines_until_error].
  destruct (H x) as [lines ->]. by destruct (lines_until_error turn l).
Qed.

Lemma cons_snoc_shape {A} (x z : A) (l1 l2 : list A) :
  ∃ body, (x :: l1) ++ l2 ++ [z] = x :: body ++ [z].
Proof. exists (l1 ++ l2). cbn. by rewrite app_assoc. Qed.

Lemma run_keeps_totals (rt : Runtime) (os : OS) (path : string)
    (verbose_mode : bool) :
  totals_kept (fst (diagnose rt os path verbose_mode)).
Proof.
  unfold diagnose. apply run_all_checks_keeps_totals. intros k m Hk.
  cbn in Hk. rewrite lookup_empty in Hk. discriminate.
Qed.

Lemma report_lines_no_error (rt : Runtime) (ps : Process) (c : Colors.t)
    (d : DocxDiagnostic) :
  totals_kept d → snd (report_lines rt ps c d) = None.
Proof.
  intros Hd. unfold report_lines. cbv zeta.
  destruct (decide (stats d = ∅)) as [Hempty|Hstats]; [reflexivity|].
  pose proof (lines_until_error_returns (stat_lines rt ps (stats d)) stat_items
                (λ item, stat_lines_return rt ps d item Hd)) as Hnone.
  destruct (lines_until_error (stat_lines rt ps (stats d)) stat_items)
    as [lines exn]. cbn [snd] in Hnone. by subst exn.
Qed.

Lemma report_lines_shape (rt : Runtime) (ps : Process) (c : Colors.t)
    (d : DocxDiagnostic) :
  snd (report_lines rt ps c d) = None →
  ∃ body, report_lines rt ps c d = (rule c :: body ++ [rule c +:+ lf], None).
Proof.
  intros Hnone.
  assert (Hfst : ∃ body, fst (report_lines rt ps c d)
                         = rule c :: body ++ [rule c +:+ lf]).
  { revert Hnone. unfold report_lines. cbv zeta.
    destruct (decide (stats d = ∅)) as [Hempty|Hstats].
    - intros _. cbn [fst]. apply cons_snoc_shape.
    - destruct (lines_until_error (stat_lines rt ps (stats d)) stat_items)
        as [lines [e|]]; [discriminate|].
      intros _. cbn [fst]. apply cons_snoc_shape. }
  destruct Hfst as [body Hbody]. exists body.
  destruct (report_lines rt ps c d) as [lines exn]. cbn [fst snd] in *.
  by subst.
Qed.

(** ** Printing *)

Lemma print_all_cons (ps : Process) (x : Write) (l : list Write)
    (written : list Write) :
  print_all ps (x :: l) written
  = match print ps x written with
    | (written', Return _) => print_all ps l written'
    | (written', Raise e) => (written', Raise e)
    end.
Proof. reflexivity. Qed.

Lemma print_all_app (ps : Process) (l1 l2 : list Write) (written : list Write) :
  print_all ps (l1 ++ l2) written
  = match print_all ps l1 written with
    | (written', Return _) => print_all ps l2 written'
    | (written', Raise e) => (written', Raise e)
    end.
Proof.
  revert written. induction l1 as [|x l1 IH]; intros written; [done|].
  cbn [app]. rewrite !print_all_cons.
  destruct (print ps x written) as [w1 [[]|e]]; [apply IH | done].
Qed.

Lemma prints_ret {A} (ps : Process) (a : A) : prints ps (io_ret a) [] (Return a).
Proof. intros written. reflexivity. Qed.

Lemma prints_raise {A} (ps : Process) (e : PyExn) :
  prints ps (io_raise (A:=A) e) [] (Raise e).
Proof. intros written. reflexivity. Qed.

Lemma prints_print (ps : Process) (x : Write) :
  prints ps (print ps x) [x] (Return tt).
Proof.
  intros written. rewrite print_all_cons.
  by destruct (print ps x written) as [w1 [[]|e]].
Qed.

Lemma prints_bind {A B} (ps : Process) (m : IO A) (k : A → IO B)
    (l1 l2 : list Write) (a : A) (r : Result B) :
  prints ps m l1 (Return a) → prints ps (k a) l2 r →
  prints ps (io_bind m k) (l1 ++ l2) r.
Proof.
  intros Hm Hk written. unfold io_bind. rewrite Hm, print_all_app.
  destruct (print_all ps l1 written) as [w1 [[]|e]]; [apply Hk | done].
Qed.

Lemma prints_bind_raise {A B} (ps : Process) (m : IO A) (k : A → IO B)
    (l : list Write) (e : PyExn) :
  prints ps m l (Raise e) → prints ps (io_bind m k) l (Raise e).
Proof.
  intros Hm written. unfold io_bind. rewrite Hm.
  by destruct (print_all ps l written) as [w1 [[]|e1]].
Qed.

Lemma prints_for_each {A} (ps : Process) (body : A → IO unit)
    (f : A → list Write) (l : list A) :
  (∀ x, prints ps (body x) (f x) (Return tt)) →
  prints ps (io_for_each l body) (flat_map f l) (Return tt).
Proof.
  intros Hbody. induction l as [|x l IH]; [apply prints_ret|].
  cbn [io_for_each flat_map]. by eapply prints_bind.
Qed.

Lemma prints_accepted {A} (ps : Process) (m : IO A) (l : list Write)
    (r : Result A) (written : list Write) :
  prints ps m l r → accepts_every_write ps → m written = (written ++ l, r).
Proof.
  intros Hm Hps. rewrite Hm. clear Hm.
  assert (Hall : print_all ps l written = (written ++ l, Return tt)).
  { revert written. induction l as [|x l IH]; intros written.
    - cbn. by rewrite app_nil_r.
    - rewrite print_all_cons. unfold print at 1.
      rewrite Hps, IH. by rewrite <- app_assoc. }
  by rewrite Hall.
Qed.

Lemma print_all_fault (ps : Process) (l : list Write) (written : list Write)
    (e : PyExn) :
  snd (print_all ps l written) = Raise e → console_fault ps e.
Proof.
  revert written. induction l as [|x l IH]; intros written; [discriminate|].
  rewrite print_all_cons. unfold print at 1.
  destruct (write_fault ps written x) as [e'|] eqn:Hfault.
  - intros [= <-]. by exists written, x.
  - apply IH.
Qed.

Lemma prints_fault {A} (ps : Process) (m : IO A) (l : list Write) (a : A)
    (written : list Write) (e : PyExn) :
  prints ps m l (Return a) → snd (m written) = Raise e → console_fault ps e.
Proof.
  intros Hm. rewrite Hm.
  destruct (print_all ps l written) as [w1 [[]|e1]] eqn:Hall; [discriminate|].
  intros [= <-]. apply (print_all_fault ps l written). by rewrite Hall.
Qed.

Lemma print_stat_prints (rt : Runtime) (ps : Process)
    (stats : gmap string StatValue) (item : string * string) :
  match stat_lines rt ps stats item with
  | inr lines =>
      prints ps (print_stat rt ps stats item)
        (map (λ s, ToStdout (Print s)) lines) (Return tt)
  | inl e => prints ps (print_stat rt ps stats item) [] (Raise e)
  end.
Proof.
  unfold stat_lines, print_stat. destruct item as [key label].
  destruct (stats !! key) as [[n|size|m]|]; cbv zeta.
  - destruct (negb (n =? 0) && (0 <? n)); [apply prints_print | apply prints_ret].
  - destruct (float_positive ps size); [apply prints_print | apply prints_ret].
  - destruct (m !! "total") as [total|].
    + destruct (negb (total =? 0) && (0 <? total));
        [apply prints_print | apply prints_ret].
    + destruct (decide (m = ∅)); [apply prints_ret | apply prints_raise].
  - apply prints_ret.
Qed.

Lemma print_stats_prints (rt : Runtime) (ps : Process)
    (stats : gmap string StatValue) (items : list (string * string)) :
  prints ps (io_for_each items (print_stat rt ps stats))
    (map (λ s, ToStdout (Print s))
         (fst (lines_until_error (stat_lines rt ps stats) items)))
    (match snd (lines_until_error (stat_lines rt ps stats) items) with
     | Some e => Raise e
     | None => Return tt
     end).
Proof.
  induction items as [|item items IH]; [apply prints_ret|].
  cbn [io_for_each lines_until_error].
  pose proof (print_stat_prints rt ps stats item) as Hitem.
  destruct (stat_lines rt ps stats item) as [e|lines].
  - cbn [fst snd map]. by apply prints_bind_raise.
  - destruct (lines_until_error (stat_lines rt ps stats) items) as [rest exn].
    cbn [fst snd] in IH |- *. rewrite map_app. by eapply prints_bind.
Qed.

Lemma print_report_prints (rt : Runtime) (ps : Process) (c : Colors.t)
    (d : DocxDiagnostic) :
  prints ps (print_report rt ps c d)
    (map (λ s, ToStdout (Print s)) (fst (report_lines rt ps c d)))
    (match snd (report_lines rt ps c d) with
     | Some e => Raise e
     | None => Return tt
     end).
Proof.
  unfold print_report, report_lines. cbv zeta.
  assert (Hgroups :
    prints ps
      (io_for_each (report_groups d)
         (λ '(category, group),
            io_bind
              (print ps (ToStdout (Print (lf +:+ Colors.BOLD c
                 +:+ ("[" +:+ category +:+ "]") +:+ Colors.RESET c))))
              (λ _, io_for_each group
                      (λ issue,
                         io_bind
                           (print ps (ToStdout (Print (format c issue (verbose d)))))
                           (λ _, print ps (ToStdout (Print EmptyString)))))))
      (map (λ s, ToStdout (Print s))
         (flat_map
            (λ '(category, group),
               (lf +:+ Colors.BOLD c +:+ ("[" +:+ category +:+ "]")
                   +:+ Colors.RESET c)
               :: flat_map (λ issue, [format c issue (verbose d); EmptyString])
                           group)
            (report_groups d)))
      (Return tt)).
  { induction (report_groups d) as [|[category group] groups IH];
      [apply prints_ret|].
    cbn [io_for_each flat_map]. rewrite map_app.
    eapply prints_bind; [|exact IH]. cbn [map].
    eapply (prints_bind ps _ _ [_]); [apply prints_print|].
    clear. induction group as [|issue group IHg]; [apply prints_ret|].
    cbn [io_for_each flat_map app map].
    eapply (prints_bind ps _ _ [_; _]); [|exact IHg].
    eapply (prints_bind ps _ _ [_] [_]); apply prints_print. }
  set (groups_lines := flat_map _ (report_groups d)) in *.
  clearbody groups_lines.
  destruct (decide (stats d = ∅)) as [Hempty|Hstats].
  - cbn [fst snd]. rewrite !map_app, <- !app_assoc. cbn [map app].
    do 5 (eapply (prints_bind ps _ _ [_]); [apply prints_print|]).
    eapply prints_bind; [exact Hgroups|].
    do 5 (eapply (prints_bind ps _ _ [_]); [apply prints_print|]).
    eapply (prints_bind ps _ _ []); [apply prints_ret|]. apply prints_print.
  - pose proof (print_stats_prints rt ps (stats d) stat_items) as Hstat.
    destruct (lines_until_error (stat_lines rt ps (stats d)) stat_items)
      as [lines [e|]]; cbn [fst snd] in Hstat |- *;
      rewrite !map_app, <- ?app_assoc; cbn [map app];
      do 5 (eapply (prints_bind ps _ _ [_]); [apply prints_print|]);
      (eapply prints_bind; [exact Hgroups|]);
      do 5 (eapply (prints_bind ps _ _ [_]); [apply prints_print|]).
    + apply prints_bind_raise.
      eapply (prints_bind ps _ _ [_]); [apply prints_print | exact Hstat].
    + eapply (prints_bind ps _ _ (_ :: _) [_]); [|apply prints_print].
      eapply (prints_bind ps _ _ [_]); [apply prints_print | exact Hstat].
Qed.

(** X29.  [print_report] on the object of a run.  The comparison of a
    statistic with 0 never raises there: it could only for a dictionary
    without a total, and every dictionary a run stores has one.  So the
    method makes the calls of [print] of the report, which starts with
    the rule and ends with the rule followed by a line feed, one after
    the other as long as the console takes them: on a console that takes
    every write it runs to its end with all of them written, and an
    exception that leaves it is one that a call of [print] raised. *)
Theorem print_report_completes (rt : Runtime) (os : OS) (ps : Process)
    (c : Colors.t) (path : string) (verbose_mode : bool)
    (written : list Write) :
  let d := fst (diagnose rt os path verbose_mode) in
  totals_kept d
  ∧ ∃ body,
      let calls := map (λ s, ToStdout (Print s))
                       (rule c :: body ++ [rule c +:+ lf]) in
      report_lines rt ps c d = (rule c :: body ++ [rule c +:+ lf], None)
      ∧ print_report rt ps c d written = print_all ps calls written
      ∧ (accepts_every_write ps →
         print_report rt ps c d written = (written ++ calls, Return tt))
      ∧ (∀ e, snd (print_report rt ps c d written) = Raise e →
              console_fault ps e).
Proof.
  cbv zeta. pose proof (run_keeps_totals rt os path verbose_mode) as Hd.
  split; [exact Hd|].
  pose proof (report_lines_no_error rt ps c _ Hd) as Hnone.
  destruct (report_lines_shape rt ps c _ Hnone) as [body Hbody].
  pose proof (print_report_prints rt ps c
                (fst (diagnose rt os path verbose_mode))) as Hprints.
  rewrite Hbody in Hprints. cbn [fst snd] in Hprints.
  exists body. split; [exact Hbody|]. split; [|split].
  - rewrite Hprints. by destruct (print_all ps _ written) as [w1 [[]|e]].
  - intros Hps. by apply (prints_accepted ps _ _ _ written Hprints).
  - intros e. by apply (prints_fault ps _ _ tt written e Hprints).
Qed.

Lemma print_report_witness :
  ∃ body,
    print_report revised_runtime terminal Colors.initial
      (fst (diagnose revised_runtime
              (os_with_archive "a.docx" 2048 revised_archive) "a.docx" false))
      []
    = ([] ++ map (λ s, ToStdout (Print s))
                 (rule Colors.initial :: body ++ [rule Colors.initial +:+ lf]),
       Return tt).
Proof.
  destruct (print_report_completes revised_runtime
              (os_with_archive "a.docx" 2048 revised_archive) terminal
              Colors.initial "a.docx" false [])
    as (_ & body & _ & _ & Hdone & _).
  exists body. apply Hdone. intros written x. reflexivity.
Defined.
(** ** The command line *)

Lemma status_fail_eqb (d : DocxDiagnostic) :
  String.eqb (sm_status (get_summary d)) "FAIL"
  = negb (count_severity ERROR (issues d) =? 0)%nat.
Proof.
  unfold get_summary. cbn [sm_status].
  destruct (count_severity ERROR (issues d)); cbn; [|done].
  by repeat case_match.
Qed.

Lemma prints_ext {A} (ps : Process) (m m' : IO A) (l : list Write)
    (r : Result A) :
  (∀ written, m written = m' written) → prints ps m' l r → prints ps m l r.
Proof. intros Heq Hm written. rewrite Heq. apply Hm. Qed.

Lemma prints_fold {A S} (ps : Process) (body : S → A → IO S)
    (f : A → list Write) (g : S → A → S) (l : list A) (s : S) :
  (∀ s x, prints ps (body s x) (f x) (Return (g s x))) →
  prints ps (io_fold body s l) (flat_map f l) (Return (fold_left g l s)).
Proof.
  intros Hbody. revert s. induction l as [|x l IH]; intros s;
    [apply prints_ret|].
  cbn [io_fold flat_map fold_left]. eapply prints_bind; [apply Hbody | apply IH].
Qed.

Lemma prints_outcome {A} (ps : Process) (m : IO A) (l : list Write)
    (r : Result A) (written : list Write) (e : PyExn) :
  prints ps m l r → snd (m written) = Raise e →
  console_fault ps e ∨ r = Raise e.
Proof.
  intros Hm. rewrite Hm.
  destruct (print_all ps l written) as [w1 [a|e1]] eqn:Hall; cbn [snd].
  - intros ->. by right.
  - intros [= <-]. left. apply (print_all_fault ps l written). by rewrite Hall.
Qed.

Lemma map_flat_map {A B C} (g : B → C) (f : A → list B) (l : list A) :
  map g (flat_map f l) = flat_map (λ x, map g (f x)) l.
Proof.
  induction l as [|x l IH]; [done|]. cbn [flat_map]. by rewrite map_app, IH.
Qed.

Lemma main_file_prints (rt : Runtime) (os : OS) (ps : Process) (args : Args)
    (c : Colors.t) (vars : list Summary * bool) (file : string) :
  prints ps (main_file rt os ps args c vars file)
    (map ToStdout (file_output rt os ps args c file))
    (Return (after_file rt os args vars file)).
Proof.
  pose proof (run_keeps_totals rt os file (args_verbose args)) as Htotals.
  pose proof (report_lines_no_error rt ps c _ Htotals) as Hnone.
  pose proof (print_report_prints rt ps c
                (fst (diagnose rt os file (args_verbose args)))) as Hreport.
  rewrite Hnone in Hreport.
  destruct (run_all_checks_with_returns rt os (SEMANTIC_CHECKS rt)
              (init file (args_verbose args))) as [passed Hret].
  pose proof (run_result_is_error_count rt os _ _ _ Hret) as Hpassed.
  fold (run_all_checks rt os) in Hret, Hpassed.
  fold (diagnose rt os file (args_verbose args)) in Hret, Hpassed.
  unfold file_output, after_file, file_summary. rewrite status_fail_eqb.
  rewrite <- Hpassed.
  apply (prints_ext ps _
           (io_bind (print ps (ToStdout (Print (analyzing_line c file))))
              (λ _, if args_json args then
                      io_ret (fst vars
                              ++ [get_summary
                                    (fst (diagnose rt os file (args_verbose args)))],
                              snd vars || negb passed)
                    else
                      io_bind (print_report rt ps c
                                 (fst (diagnose rt os file (args_verbose args))))
                              (λ _, io_ret (fst vars, snd vars || negb passed))))).
  - intros written. unfold main_file, run_all_checks_printing, io_bind.
    destruct vars as [results has_errors]. cbn [filepath init fst snd].
    destruct (print ps _ written) as [w1 [[]|e]]; [|done].
    fold (diagnose rt os file (args_verbose args)).
    destruct (diagnose rt os file (args_verbose args)) as [d r].
    cbn [fst snd] in *. subst r.
    assert (Herr : (if negb passed then true else has_errors)
                   = has_errors || negb passed)
      by (destruct passed, has_errors; done).
    rewrite Herr. by destruct (args_json args).
  - cbn [map]. eapply (prints_bind ps _ _ [_]); [apply prints_print|].
    destruct (args_json args).
    + apply prints_ret.
    + rewrite app_nil_r, <- (app_nil_r (map ToStdout _)), map_map.
      eapply prints_bind; [exact Hreport | apply prints_ret].
Qed.

Lemma after_files (rt : Runtime) (os : OS) (args : Args) (files : list string)
    (vars : list Summary * bool) :
  fold_left (after_file rt os args) files vars
  = (fst vars
     ++ (if args_json args then map (file_summary rt os args) files else []),
     snd vars
     || existsb (λ s, String.eqb (sm_status s) "FAIL")
                (map (file_summary rt os args) files)).
Proof.
  revert vars. induction files as [|file files IH]; intros [results has_errors].
  - cbn. rewrite orb_false_r. by destruct (args_json args); rewrite app_nil_r.
  - cbn [fold_left]. rewrite IH. unfold after_file. cbn [fst snd map existsb].
    rewrite orb_assoc. f_equal.
    destruct (args_json args); by rewrite <- ?app_assoc.
Qed.

Lemma prints_fold_raise {A S} (ps : Process) (body : S → A → IO S)
    (f : A → list Write) (g : S → A → S) (l1 l2 : list A) (x : A) (s : S)
    (e : PyExn) :
  (∀ s y, y ∈ l1 → prints ps (body s y) (f y) (Return (g s y))) →
  (∀ s, prints ps (body s x) [] (Raise e)) →
  prints ps (io_fold body s (l1 ++ x :: l2)) (flat_map f l1) (Raise e).
Proof.
  intros Hbody Hx. revert s. induction l1 as [|y l1 IH]; intros s.
  - cbn [app io_fold flat_map]. by apply prints_bind_raise.
  - cbn [app io_fold flat_map]. eapply prints_bind.
    + apply Hbody, list_elem_of_here.
    + apply IH. intros s' z Hz. by apply Hbody, list_elem_of_further.
Qed.

Lemma prints_fold_in {A S} (ps : Process) (body : S → A → IO S)
    (f : A → list Write) (g : S → A → S) (l : list A) (s : S) :
  (∀ s x, x ∈ l → prints ps (body s x) (f x) (Return (g s x))) →
  prints ps (io_fold body s l) (flat_map f l) (Return (fold_left g l s)).
Proof.
  intros Hbody. revert s. induction l as [|x l IH]; intros s;
    [apply prints_ret|].
  cbn [io_fold flat_map fold_left]. eapply prints_bind.
  - apply Hbody, list_elem_of_here.
  - apply IH. intros s' z Hz. by apply Hbody, list_elem_of_further.
Qed.

Lemma main_argument_prints (rt : Runtime) (os : OS) (ps : Process)
    (args : Args) (c : Colors.t) (vars : list Summary * bool)
    (filepath : string) :
  match files_to_check ps filepath with
  | inl e => prints ps (main_argument rt os ps args c vars filepath) [] (Raise e)
  | inr _ =>
      prints ps (main_argument rt os ps args c vars filepath)
        (argument_writes rt os ps args c filepath)
        (Return (fold_left (after_file rt os args) (argument_files ps filepath)
                   vars))
  end.
Proof.
  unfold main_argument, argument_writes, argument_files.
  destruct (files_to_check ps filepath) as [e|[files|]]; cbn [fold_left].
  - apply prints_raise.
  - rewrite map_flat_map.
    apply (prints_fold ps _ (λ file, map ToStdout (file_output rt os ps args c file))
             (after_file rt os args)).
    intros s x. apply main_file_prints.
  - eapply (prints_bind ps _ _ [_] []); [apply prints_print | apply prints_ret].
Qed.

Lemma first_glob_fault (ps : Process) (l : list string) :
  Forall (λ filepath, ∃ files, files_to_check ps filepath = inr files) l
  ∨ ∃ l1 filepath l2 e,
      l = l1 ++ filepath :: l2
      ∧ Forall (λ filepath, ∃ files, files_to_check ps filepath = inr files) l1
      ∧ files_to_check ps filepath = inl e.
Proof.
  induction l as [|filepath l IH]; [by left|].
  destruct (files_to_check ps filepath) as [e|files] eqn:Hfiles.
  - right. by exists [], filepath, l, e.
  - destruct IH as [Hall|(l1 & p & l2 & e & -> & Hall & Hp)].
    + left. constructor; [by exists files | done].
    + right. exists (filepath :: l1), p, l2, e. split; [done|].
      split; [|done]. constructor; [by exists files | done].
Qed.

Lemma stdout_of_app (l1 l2 : list Write) :
  stdout_of (l1 ++ l2) = stdout_of l1 ++ stdout_of l2.
Proof. apply flat_map_app. Qed.

Lemma stderr_of_app (l1 l2 : list Write) :
  stderr_of (l1 ++ l2) = stderr_of l1 ++ stderr_of l2.
Proof. apply flat_map_app. Qed.

Lemma stdout_of_stdout (l : list Output) : stdout_of (map ToStdout l) = l.
Proof. induction l as [|o l IH]; [done|]. cbn. by rewrite <- IH at 2. Qed.

Lemma stderr_of_stdout (l : list Output) : stderr_of (map ToStdout l) = [].
Proof. induction l as [|o l IH]; [done|]. exact IH. Qed.

Lemma argument_writes_stdout (rt : Runtime) (os : OS) (ps : Process)
    (args : Args) (c : Colors.t) (arguments : list string) :
  stdout_of (flat_map (argument_writes rt os ps args c) arguments)
  = flat_map (file_output rt os ps args c)
      (flat_map (argument_files ps) arguments).
Proof.
  induction arguments as [|filepath arguments IH]; [done|].
  cbn [flat_map]. rewrite stdout_of_app, flat_map_app, IH. f_equal.
  unfold argument_writes, argument_files.
  destruct (files_to_check ps filepath) as [e|[files|]]; [done| |done].
  apply stdout_of_stdout.
Qed.

Lemma argument_writes_stderr (rt : Runtime) (os : OS) (ps : Process)
    (args : Args) (c : Colors.t) (arguments : list string) :
  stderr_of (flat_map (argument_writes rt os ps args c) arguments)
  = map (λ filepath, "Warning: No files match pattern: " +:+ filepath)
        (filter (λ filepath, unmatched ps filepath = true) arguments).
Proof.
  induction arguments as [|filepath arguments IH]; [done|].
  cbn [flat_map]. rewrite stderr_of_app, filter_cons, IH.
  unfold argument_writes, unmatched.
  destruct (files_to_check ps filepath) as [e|[files|]].
  - by rewrite decide_False by done.
  - rewrite decide_False by done. by rewrite stderr_of_stdout.
  - by rewrite decide_True by done.
Qed.

Lemma after_arguments (rt : Runtime) (os : OS) (ps : Process) (args : Args)
    (arguments : list string) (vars : list Summary * bool) :
  fold_left (λ vars filepath,
               fold_left (after_file rt os args) (argument_files ps filepath) vars)
    arguments vars
  = fold_left (after_file rt os args) (flat_map (argument_files ps) arguments)
      vars.
Proof.
  revert vars. induction arguments as [|filepath arguments IH]; intros vars;
    [done|].
  cbn [fold_left flat_map]. by rewrite IH, fold_left_app.
Qed.

Lemma main_prints (rt : Runtime) (os : OS) (ps : Process) (args : Args)
    (c : Colors.t) :
  main_colors ps args = inr c →
  globs_return ps args →
  prints ps (main rt os ps args)
    (flat_map (argument_writes rt os ps args c) (args_files args)
     ++ map ToStdout
          (if args_json args
           then json_output (map (file_summary rt os args) (analysed_files ps args))
           else []))
    (main_result args (map (file_summary rt os args) (analysed_files ps args))).
Proof.
  intros Hc Hglobs. unfold main. rewrite Hc.
  eapply prints_bind.
  - apply (prints_fold_in ps _ (argument_writes rt os ps args c)
             (λ vars filepath,
                fold_left (after_file rt os args) (argument_files ps filepath)
                  vars)).
    intros vars filepath Hin.
    pose proof (main_argument_prints rt os ps args c vars filepath) as Harg.
    unfold globs_return in Hglobs. rewrite Forall_forall in Hglobs.
    destruct (Hglobs filepath Hin) as [files Hfiles].
    by rewrite Hfiles in Harg.
  - rewrite after_arguments, after_files. fold (analysed_files ps args).
    cbn [fst snd app orb]. unfold main_result, exit_code, json_output.
    destruct (args_json args).
    + destruct (map (file_summary rt os args) (analysed_files ps args))
        as [|s1 [|s2 rest]]; cbn [map].
      * by apply prints_bind_raise, prints_raise.
      * eapply (prints_bind ps _ _ [_] []); [apply prints_print | apply prints_ret].
      * eapply (prints_bind ps _ _ [_] []); [apply prints_print | apply prints_ret].
    + eapply (prints_bind ps _ _ [] []); apply prints_ret.
Qed.

Lemma main_prints_glob_fault (rt : Runtime) (os : OS) (ps : Process)
    (args : Args) (c : Colors.t) (l1 l2 : list string) (filepath : string)
    (e : PyExn) :
  main_colors ps args = inr c →
  args_files args = l1 ++ filepath :: l2 →
  Forall (λ filepath, ∃ files, files_to_check ps filepath = inr files) l1 →
  files_to_check ps filepath = inl e →
  prints ps (main rt os ps args)
    (flat_map (argument_writes rt os ps args c) l1) (Raise e).
Proof.
  intros Hc Hsplit Hall Hfault. unfold main. rewrite Hc, Hsplit.
  apply prints_bind_raise.
  apply (prints_fold_raise ps _ (argument_writes rt os ps args c)
           (λ vars filepath,
              fold_left (after_file rt os args) (argument_files ps filepath)
                vars)).
  - intros vars p Hin.
    pose proof (main_argument_prints rt os ps args c vars p) as Harg.
    rewrite Forall_forall in Hall. destruct (Hall p Hin) as [files Hfiles].
    by rewrite Hfiles in Harg.
  - intros vars.
    pose proof (main_argument_prints rt os ps args c vars filepath) as Harg.
    by rewrite Hfault in Harg.
Qed.

(** X30.  What [main] does with its arguments.  When [--no-color] is not
    given and [isatty] raises, [main] ends with that exception before it
    prints anything.  Otherwise an exception that leaves [main] is one
    that a call of [print] raised, one that [glob.glob] raised on an
    argument, or the [IndexError] of taking the first result with
    [--json] when no file was analysed.  When [glob.glob] raises on no
    argument, [main] analyses the files as given and the matches of the
    patterns, in order, and makes its calls of [print] one after the
    other as long as the console takes them: on the standard error a
    warning for each pattern without a match; on the standard output the
    line and, without [--json], the report of each file, and with
    [--json] the document after the lines, which are then uncoloured: the
    summary itself for one file, the array of the summaries for more.  On
    a console that takes every write it then exits with code 1 when the
    summary of some analysed file is FAIL and with code 0 otherwise, also
    when no file was analysed; except with [--json] and no analysed file,
    where it ends with the [IndexError]. *)
Theorem main_outcome (rt : Runtime) (os : OS) (ps : Process) (args : Args) :
  let files := analysed_files ps args in
  let summaries := map (file_summary rt os args) files in
  match main_colors ps args with
  | inl e =>
      args_no_color args = false ∧ stdout_isatty ps = inl e
      ∧ main rt os ps args [] = ([], Raise e)
  | inr c =>
      (args_json args = true → c = Colors.disable Colors.initial)
      ∧ (∀ e, snd (main rt os ps args []) = Raise e →
              console_fault ps e
              ∨ glob_fault ps args e
              ∨ (e = index_error ∧ args_json args = true ∧ files = []))
      ∧ (globs_return ps args →
         ∃ calls,
           prints ps (main rt os ps args) calls (main_result args summaries)
           ∧ stderr_of calls
             = map (λ filepath, "Warning: No files match pattern: " +:+ filepath)
                   (unmatched_patterns ps args)
           ∧ stdout_of calls
             = flat_map (file_output rt os ps args c) files
               ++ (if args_json args then json_output summaries else [])
           ∧ (accepts_every_write ps →
              main rt os ps args [] = (calls, main_result args summaries)))
  end.
Proof.
  cbv zeta. destruct (main_colors ps args) as [e|c] eqn:Hc.
  - unfold main. rewrite Hc. unfold main_colors in Hc.
    destruct (args_no_color args); [discriminate|].
    destruct (stdout_isatty ps) as [e'|isatty]; [|discriminate].
    by injection Hc as ->.
  - split.
    { intros Hjson. unfold main_colors in Hc. rewrite Hjson in Hc.
      destruct (args_no_color args); [congruence|].
      destruct (stdout_isatty ps) as [e'|isatty]; [discriminate|].
      rewrite orb_true_r in Hc. congruence. }
    split.
    { intros e He.
      destruct (first_glob_fault ps (args_files args))
        as [Hglobs|(l1 & filepath & l2 & e' & Hsplit & Hall & Hfault)].
      - pose proof (main_prints rt os ps args c Hc Hglobs) as Hmain.
        destruct (prints_outcome ps _ _ _ [] e Hmain He) as [Hconsole|Hend];
          [by left|right; right].
        unfold main_result in Hend.
        destruct (args_json args); [|discriminate].
        destruct (analysed_files ps args) as [|file files]; [|discriminate].
        by injection Hend as <-.
      - pose proof (main_prints_glob_fault rt os ps args c l1 l2 filepath e'
                      Hc Hsplit Hall Hfault) as Hmain.
        destruct (prints_outcome ps _ _ _ [] e Hmain He) as [Hconsole|Hend];
          [by left|right; left].
        injection Hend as <-. exists filepath. split; [|done].
        rewrite Hsplit. apply elem_of_app. right. apply list_elem_of_here. }
    intros Hglobs.
    pose proof (main_prints rt os ps args c Hc Hglobs) as Hmain.
    eexists. split; [exact Hmain|].
    split; [|split].
    + rewrite stderr_of_app, stderr_of_stdout, app_nil_r.
      apply argument_writes_stderr.
    + rewrite stdout_of_app, stdout_of_stdout. f_equal.
      apply argument_writes_stdout.
    + intros Hps. apply (prints_accepted ps _ _ _ [] Hmain Hps).
Qed.

Lemma main_outcome_witness :
  ∃ calls,
    main revised_runtime (os_with_archive "a.docx" 2048 revised_archive)
      terminal (mkArgs ["a.docx"; "*.doc"] false false false) []
    = (calls,
       main_result (mkArgs ["a.docx"; "*.doc"] false false false)
         (map (file_summary revised_runtime
                 (os_with_archive "a.docx" 2048 revised_archive)
                 (mkArgs ["a.docx"; "*.doc"] false false false))
              (analysed_files terminal
                 (mkArgs ["a.docx"; "*.doc"] false false false)))).
Proof.
  pose proof (main_outcome revised_runtime
                (os_with_archive "a.docx" 2048 revised_archive) terminal
                (mkArgs ["a.docx"; "*.doc"] false false false)) as H.
  cbv zeta in H.
  change (main_colors terminal (mkArgs ["a.docx"; "*.doc"] false false false))
    with (@inr PyExn Colors.t Colors.initial) in H.
  destruct H as (_ & _ & H).
  destruct H as (calls & _ & _ & _ & Hdone).
  - repeat constructor; eexists; reflexivity.
  - exists calls. apply Hdone. intros written x. reflexivity.
Defined.

(** ** A check that raises *)






(** ** The stages after the loader *)










